(** * BigBarber: the interactive prototype of [main.py]

    A shallow embedding of the two minigames ([PrecisionCutMode],
    [BrawlMode]) and of the mode selector ([Game]) of [src/main.py],
    followed by the properties of its update loop.

    Modelling conventions.
    - Python numbers ([int] and [float]) are exact rationals [Q]; counters
      that stay integral in the source ([combo], [left_hp], [right_hp],
      [menu_selected]) are [Z].  Numeric results are compared with [==].
    - [random.random()] reads the next entry of a tape [Rng]; every call of
      [random.uniform(a, b)] is [a + (b - a) * random()], as in CPython.
    - [math.pi], [math.cos] and [math.sin] are the fields of the class [Math].
    - Sparks and particles are mutable objects: they live in a heap and the
      lists [sparks] / [particles] hold references, so that the in-place
      update and [list.remove] of the pruning loops act on shared objects.
    - An exception ([ValueError] of [list.remove]) is the result [None]. *)

From Stdlib Require Import QArith Qabs Qminmax Lqa ZArith Lia List Bool.
From stdpp Require Import base option list gmap strings.

Open Scope Q_scope.

(** * Part I: the program *)

(** ** Python numeric builtins *)

Definition Qltb (a b : Q) : bool := negb (Qle_bool b a).

(** [max(a, b)] keeps [a] unless [b > a]; [min(a, b)] keeps [a] unless [b < a]. *)
Definition py_max (a b : Q) : Q := if Qltb a b then b else a.
Definition py_min (a b : Q) : Q := if Qltb b a then b else a.
Definition py_maxZ (a b : Z) : Z := if (a <? b)%Z then b else a.
Definition py_minZ (a b : Z) : Z := if (b <? a)%Z then b else a.

(** [int(x)] on a number: truncation towards zero. *)
Definition py_int (q : Q) : Z := Z.quot (Qnum q) (Z.pos (Qden q)).

(** The [math] module, as far as [main.py] uses it. *)
Class Math := { pi : Q; cos : Q -> Q; sin : Q -> Q }.

(** ** The random source *)

(** The tape of results of successive [random.random()] calls. *)
Definition Rng := nat -> Q.

Definition random (r : Rng) : Q * Rng := (r 0%nat, fun i => r (S i)).

Definition uniform (a b : Q) (r : Rng) : Q * Rng :=
  let '(u, r') := random r in (a + (b - a) * u, r').

(** [random.random()] returns a value of the half-open unit interval. *)
Definition unit_tape (r : Rng) : Prop := forall i, 0 <= r i /\ r i < 1.

(** ** Module constants *)

Definition WIDTH : Q := 1280.
Definition HEIGHT : Q := 720.

(** ** Mutable objects held in lists *)

Module Heap.
Section Objects.
Context {T : Type}.
Variable life : T -> Q.
Variable tick : Q -> T -> T.
Variable eqb : T -> T -> bool.

(** Constructing an object yields a reference that no list holds yet. *)
Definition alloc (v : T) (h : list T) : nat * list T := (length h, h ++ [v]).

(** [for _ in range(n): lst.append(<new object>)]; [mk] builds one object
    from the random source. *)
Fixpoint spawn (n : nat) (mk : Rng -> T * Rng)
  (refs : list nat) (h : list T) (r : Rng) : list nat * list T * Rng :=
  match n with
  | O => (refs, h, r)
  | S n' =>
      let '(v, r1) := mk r in
      let '(l, h1) := alloc v h in
      spawn n' mk (refs ++ [l]) h1 r1
  end.

(** [lst.remove(obj)]: drops the first entry that is [obj] or compares equal
    to it; [None] is the [ValueError] raised when there is none. *)
Fixpoint list_remove (h : list T) (l : nat) (v : T) (xs : list nat)
  : option (list nat) :=
  match xs with
  | [] => None
  | x :: xs' =>
      if Nat.eqb x l
         || match h !! x with Some vx => eqb vx v | None => false end
      then Some xs'
      else option_map (cons x) (list_remove h l v xs')
  end.

(** [for o in list(lst): <tick o in place>; if o.life <= 0: lst.remove(o)].
    [snap] is the copy being iterated, [cur] the list being pruned. *)
Fixpoint prune_loop (dt : Q) (snap : list nat) (h : list T) (cur : list nat)
  : option (list T * list nat) :=
  match snap with
  | [] => Some (h, cur)
  | l :: rest =>
      match h !! l with
      | None => None
      | Some v =>
          let v' := tick dt v in
          let h' := <[l := v']> h in
          if Qle_bool (life v') 0 then
            match list_remove h' l v' cur with
            | None => None
            | Some cur' => prune_loop dt rest h' cur'
            end
          else prune_loop dt rest h' cur
      end
  end.

(** The object behind [l] has positive remaining life. *)
Definition alive (h : list T) (l : nat) : bool :=
  match h !! l with Some v => Qltb 0 (life v) | None => false end.

(** Every reference is distinct and points into the heap. *)
Definition wf (h : list T) (refs : list nat) : Prop :=
  NoDup refs /\ forall l, l ∈ refs -> (l < length h)%nat.

(** Every listed object has a remaining life in [(0, hi]]. *)
Definition lives_in (hi : Q) (h : list T) (refs : list nat) : Prop :=
  forall l, l ∈ refs -> exists v, h !! l = Some v /\ 0 < life v /\ life v <= hi.

End Objects.
End Heap.

(** ** [class Spark] *)

Module Spark.

Record t := mk { x : Q; y : Q; dx : Q; dy : Q; life : Q }.

Definition update (dt : Q) (self : t) : t :=
  {| x := x self + dx self * dt;
     y := y self + dy self * dt;
     dx := dx self;
     dy := dy self;
     life := life self - dt |}.

Definition set_dy (v : Q) (self : t) : t :=
  {| x := x self; y := y self; dx := dx self; dy := v; life := life self |}.

(** The [__eq__] that [@dataclass] generates: field by field. *)
Definition eqb (a b : t) : bool :=
  Qeq_bool (x a) (x b) && Qeq_bool (y a) (y b) && Qeq_bool (dx a) (dx b)
  && Qeq_bool (dy a) (dy b) && Qeq_bool (life a) (life b).

End Spark.

(** ** [class PrecisionCutMode] *)

Module PrecisionCutMode.

Record t := mk {
  time_limit : Q;
  time_left : Q;
  combo : Z;
  combo_timer : Q;
  sparks : list nat;
  perfect_text_timer : Q;
  head_center : Q * Q;
  head_radius : Q;
  fade_x : Q;
  clip_y : Q;
  perfection_window : Q }.

Definition set_time_left (v : Q) (s : t) : t :=
  mk (time_limit s) v (combo s) (combo_timer s) (sparks s)
     (perfect_text_timer s) (head_center s) (head_radius s) (fade_x s)
     (clip_y s) (perfection_window s).
Definition set_combo (v : Z) (s : t) : t :=
  mk (time_limit s) (time_left s) v (combo_timer s) (sparks s)
     (perfect_text_timer s) (head_center s) (head_radius s) (fade_x s)
     (clip_y s) (perfection_window s).
Definition set_combo_timer (v : Q) (s : t) : t :=
  mk (time_limit s) (time_left s) (combo s) v (sparks s)
     (perfect_text_timer s) (head_center s) (head_radius s) (fade_x s)
     (clip_y s) (perfection_window s).
Definition set_sparks (v : list nat) (s : t) : t :=
  mk (time_limit s) (time_left s) (combo s) (combo_timer s) v
     (perfect_text_timer s) (head_center s) (head_radius s) (fade_x s)
     (clip_y s) (perfection_window s).
Definition set_perfect_text_timer (v : Q) (s : t) : t :=
  mk (time_limit s) (time_left s) (combo s) (combo_timer s) (sparks s)
     v (head_center s) (head_radius s) (fade_x s)
     (clip_y s) (perfection_window s).
Definition set_clip_y (v : Q) (s : t) : t :=
  mk (time_limit s) (time_left s) (combo s) (combo_timer s) (sparks s)
     (perfect_text_timer s) (head_center s) (head_radius s) (fade_x s)
     v (perfection_window s).

(** [__init__] *)
Definition init : t :=
  let head_center := (WIDTH * 0.6, HEIGHT * 0.45) in
  {| time_limit := 12.0;
     time_left := 12.0;
     combo := 0%Z;
     combo_timer := 0.0;
     sparks := [];
     perfect_text_timer := 0.0;
     head_center := head_center;
     head_radius := 120;
     fade_x := fst head_center - 70;
     clip_y := snd head_center;
     perfection_window := 8.0 |}.

Definition reset (s : t) : t :=
  set_perfect_text_timer 0.0
    (set_sparks []
      (set_combo_timer 0.0
        (set_combo 0%Z
          (set_time_left (time_limit s) s)))).

(** A mode object together with the heap of its sparks and the random source. *)
Definition config : Type := t * list Spark.t * Rng.

Section Update.
Context {M : Math}.

(** [self.time_left = max(0.0, self.time_left - dt)] *)
Definition update_time (dt : Q) (s : t) : t :=
  set_time_left (py_max 0.0 (time_left s - dt)) s.

(** [self.clip_y = max(100, min(HEIGHT - 80, my))] *)
Definition update_clip (mouse_pos : Z * Z) (s : t) : t :=
  let my := inject_Z (snd mouse_pos) in
  set_clip_y (py_max 100 (py_min (HEIGHT - 80) my)) s.

(** The two quantities of the hit test. *)
Definition vert_err (s : t) : Q := Qabs (clip_y s - (snd (head_center s) + 10)).
Definition dist (mouse_pos : Z * Z) (s : t) : Q :=
  Qabs (inject_Z (fst mouse_pos) - fade_x s) + vert_err s.

(** One [Spark(...)] of a burst: angle, speed, then lifetime are drawn. *)
Definition new_spark (lo hi llo lhi : Q) (s : t) (r : Rng) : Spark.t * Rng :=
  let '(ang, r1) := uniform (- pi / 2) (pi / 2) r in
  let '(speed, r2) := uniform lo hi r1 in
  let '(lf, r3) := uniform llo lhi r2 in
  (Spark.mk (fade_x s) (clip_y s) (cos ang * speed) (sin ang * speed) lf, r3).

(** The [if mouse_down:] block: classification of the press. *)
Definition update_press (mouse_pos : Z * Z) (mouse_down : bool) (c : config)
  : config :=
  let '(s, h, r) := c in
  if mouse_down then
    if Qltb (dist mouse_pos s) 80 then
      if Qle_bool (vert_err s) (perfection_window s) then
        let s1 := set_combo (combo s + 1)%Z s in
        let s2 := set_combo_timer 1.2 s1 in
        let s3 := set_perfect_text_timer 0.9 s2 in
        let '(refs, h', r') :=
          Heap.spawn 12 (new_spark 120 350 0.4 0.9 s3) (sparks s3) h r in
        (set_sparks refs s3, h', r')
      else
        let s1 := set_combo 0%Z s in
        let '(refs, h', r') :=
          Heap.spawn 4 (new_spark 40 140 0.2 0.6 s1) (sparks s1) h r in
        (set_sparks refs s1, h', r')
    else (s, h, r)
  else (s, h, r).

(** [sp.update(dt); sp.dy += 300 * dt] *)
Definition tick (dt : Q) (sp : Spark.t) : Spark.t :=
  let sp1 := Spark.update dt sp in
  Spark.set_dy (Spark.dy sp1 + 300 * dt) sp1.

(** The [for sp in list(self.sparks):] loop. *)
Definition update_sparks (dt : Q) (c : t * list Spark.t)
  : option (t * list Spark.t) :=
  let '(s, h) := c in
  match Heap.prune_loop Spark.life tick Spark.eqb dt (sparks s) h (sparks s) with
  | None => None
  | Some (h', refs) => Some (set_sparks refs s, h')
  end.

(** The [# timers] block. *)
Definition update_timers (dt : Q) (s : t) : t :=
  let s1 :=
    if Qltb 0 (combo_timer s)
    then set_combo_timer (combo_timer s - dt) s
    else set_combo 0%Z s in
  if Qltb 0 (perfect_text_timer s1)
  then set_perfect_text_timer (perfect_text_timer s1 - dt) s1
  else s1.

(** The state right after the press is classified, before sparks and timers. *)
Definition classified (dt : Q) (mouse_pos : Z * Z) (mouse_down : bool)
  (c : config) : config :=
  let '(s, h, r) := c in
  update_press mouse_pos mouse_down (update_clip mouse_pos (update_time dt s), h, r).

Definition update (dt : Q) (mouse_pos : Z * Z) (mouse_down : bool) (c : config)
  : option config :=
  let '(s3, h3, r3) := classified dt mouse_pos mouse_down c in
  match update_sparks dt (s3, h3) with
  | None => None
  | Some (s4, h4) => Some (update_timers dt s4, h4, r3)
  end.

(** Whether the press of this call is a precise hit. *)
Definition precise_hit (dt : Q) (mouse_pos : Z * Z) (s : t) : bool :=
  let s2 := update_clip mouse_pos (update_time dt s) in
  Qltb (dist mouse_pos s2) 80 && Qle_bool (vert_err s2) (perfection_window s2).

(** The mode objects (with their heaps) that a game can hold: built by
    [__init__], [reset()] on entry, then any run of [update] calls with
    [dt >= 0] and of further [reset()] calls. *)
Inductive reachable : t * list Spark.t -> Prop :=
| reach_reset : reachable (reset init, [])
| reach_reenter s h : reachable (s, h) -> reachable (reset s, h)
| reach_update s h r dt mouse_pos mouse_down s' h' r' :
    reachable (s, h) ->
    0 <= dt ->
    update dt mouse_pos mouse_down (s, h, r) = Some (s', h', r') ->
    reachable (s', h').

End Update.

(** *** [draw]: the values handed to pygame

    [draw] only reads the mode.  A rectangle is [(x, y, w, h)], a colour is
    [(r, g, b)] or [(r, g, b, a)]. *)

(** The [# electric sparks] loop: per listed spark, the RGBA colour of its
    dot ([ELECTRIC_BLUE] with the computed alpha) and the blit position. *)
Definition draw_sparks (s : t) (h : list Spark.t)
  : list ((Z * Z * Z * Z) * (Z * Z)) :=
  flat_map
    (fun l =>
       match h !! l with
       | Some sp =>
           let alpha :=
             py_maxZ 0 (py_minZ 255 (py_int (255 * (Spark.life sp / 1.0)))) in
           [((66, 170, 255, alpha)%Z, (py_int (Spark.x sp), py_int (Spark.y sp)))]
       | None => []
       end)
    (sparks s).

(** The [# UI: Time Limit bar] block: background, fill and remainder
    rectangles with their colours, and the number printed after ["Time: "].
    [ticks] is [pygame.time.get_ticks()]; [None] is the [ZeroDivisionError]
    of [self.time_left / self.time_limit]. *)
Definition time_bar (ticks : Z) (s : t)
  : option (list ((Z * Z * Z) * (Q * Q * Q * Q)) * Z) :=
  let bar_w := WIDTH * 0.8 in
  let bar_h := 20 in
  let bx := (WIDTH - bar_w) / 2 in
  let by_ := 18 in
  if Qeq_bool (time_limit s) 0 then None
  else
    let frac := time_left s / time_limit s in
    let fill_w := inject_Z (py_int (bar_w * frac)) in
    let blink := Qltb (time_left s) 4.0 && (ticks mod 600 <? 300)%Z in
    let fill_col := if blink then (220, 30, 30)%Z else (255, 80, 80)%Z in
    Some ([((60, 10, 10)%Z, (bx - 4, by_ - 4, bar_w + 8, bar_h + 8));
           (fill_col, (bx, by_, fill_w, bar_h));
           ((120, 120, 120)%Z, (bx + fill_w, by_, bar_w - fill_w, bar_h))],
          py_int (time_left s)).

(** The [# Vertical precision meter] block: the track and the indicator. *)
Definition precision_meter (s : t) : (Q * Q * Q * Q) * (Q * Q * Q * Q) :=
  let meter_h := 300 in
  let mx := WIDTH - 70 in
  let my_top := (HEIGHT - meter_h) / 2 in
  let rel := (clip_y s - 100) / (HEIGHT - 180) in
  let ind_y := my_top + rel * meter_h in
  ((mx - 22, my_top - 6, 44, meter_h + 12), (mx - 12, ind_y - 6, 24, 12)).

End PrecisionCutMode.

(** ** Brawl particles: the five-element lists [[x, y, dx, dy, life]] *)

Module Particle.

Record t := mk { p0 : Q; p1 : Q; p2 : Q; p3 : Q; p4 : Q }.

(** List equality: element by element. *)
Definition eqb (a b : t) : bool :=
  Qeq_bool (p0 a) (p0 b) && Qeq_bool (p1 a) (p1 b) && Qeq_bool (p2 a) (p2 b)
  && Qeq_bool (p3 a) (p3 b) && Qeq_bool (p4 a) (p4 b).

End Particle.

(** ** [class BrawlMode] *)

Module BrawlMode.

Record t := mk {
  timer : Q;
  left_hp : Z;
  right_hp : Z;
  super_full : bool;
  super_active : bool;
  super_timer : Q;
  left_pos : Q * Q;
  right_pos : Q * Q;
  left_vel : Q * Q;
  right_vel : Q * Q;
  particles : list nat }.

Definition set_timer (v : Q) (s : t) : t :=
  mk v (left_hp s) (right_hp s) (super_full s) (super_active s) (super_timer s)
     (left_pos s) (right_pos s) (left_vel s) (right_vel s) (particles s).
Definition set_left_hp (v : Z) (s : t) : t :=
  mk (timer s) v (right_hp s) (super_full s) (super_active s) (super_timer s)
     (left_pos s) (right_pos s) (left_vel s) (right_vel s) (particles s).
Definition set_right_hp (v : Z) (s : t) : t :=
  mk (timer s) (left_hp s) v (super_full s) (super_active s) (super_timer s)
     (left_pos s) (right_pos s) (left_vel s) (right_vel s) (particles s).
Definition set_super_full (v : bool) (s : t) : t :=
  mk (timer s) (left_hp s) (right_hp s) v (super_active s) (super_timer s)
     (left_pos s) (right_pos s) (left_vel s) (right_vel s) (particles s).
Definition set_super_active (v : bool) (s : t) : t :=
  mk (timer s) (left_hp s) (right_hp s) (super_full s) v (super_timer s)
     (left_pos s) (right_pos s) (left_vel s) (right_vel s) (particles s).
Definition set_super_timer (v : Q) (s : t) : t :=
  mk (timer s) (left_hp s) (right_hp s) (super_full s) (super_active s) v
     (left_pos s) (right_pos s) (left_vel s) (right_vel s) (particles s).
(** [self.left_pos[0] = v] and [self.right_pos[0] = v] *)
Definition set_left_x (v : Q) (s : t) : t :=
  mk (timer s) (left_hp s) (right_hp s) (super_full s) (super_active s)
     (super_timer s) (v, snd (left_pos s)) (right_pos s) (left_vel s)
     (right_vel s) (particles s).
Definition set_right_x (v : Q) (s : t) : t :=
  mk (timer s) (left_hp s) (right_hp s) (super_full s) (super_active s)
     (super_timer s) (left_pos s) (v, snd (right_pos s)) (left_vel s)
     (right_vel s) (particles s).
Definition set_particles (v : list nat) (s : t) : t :=
  mk (timer s) (left_hp s) (right_hp s) (super_full s) (super_active s)
     (super_timer s) (left_pos s) (right_pos s) (left_vel s) (right_vel s) v.

(** [__init__] *)
Definition init : t :=
  {| timer := 99;
     left_hp := 100%Z;
     right_hp := 100%Z;
     super_full := true;
     super_active := false;
     super_timer := 0.0;
     left_pos := (220, HEIGHT - 220);
     right_pos := (WIDTH - 220, HEIGHT - 220);
     left_vel := (0, 0);
     right_vel := (0, 0);
     particles := [] |}.

Definition reset (s : t) : t :=
  set_particles []
    (set_super_timer 0.0
      (set_super_active false
        (set_super_full true
          (set_right_hp 100%Z
            (set_left_hp 100%Z
              (set_timer 99 s)))))).

(** [inputs.get(key)] used as a condition: a missing key is falsy. *)
Definition get (inputs : gmap string bool) (key : string) : bool :=
  default false (inputs !! key).

(** A mode object with the heap of its particles and the random source. *)
Definition config : Type := t * list Particle.t * Rng.

Section Update.
Context {M : Math}.

(** [self.timer = max(0, self.timer - dt)] *)
Definition update_timer (dt : Q) (s : t) : t :=
  set_timer (py_max 0 (timer s - dt)) s.

(** The A/D controls of the left fighter. *)
Definition update_move (dt : Q) (inputs : gmap string bool) (s : t) : t :=
  let s1 :=
    if get inputs "left_move"
    then set_left_x (fst (left_pos s) + -180 * dt) s else s in
  if get inputs "right_move"
  then set_left_x (fst (left_pos s1) + 180 * dt) s1 else s1.

(** [# clamp positions] *)
Definition update_clamp (s : t) : t :=
  let s1 :=
    set_left_x (py_max 120 (py_min (WIDTH / 2 - 60) (fst (left_pos s)))) s in
  set_right_x
    (py_max (WIDTH / 2 + 60) (py_min (WIDTH - 120) (fst (right_pos s1)))) s1.

(** One particle of a burst around [(px, py)]. *)
Definition new_particle (a lo hi llo lhi : Q) (px py : Q) (r : Rng)
  : Particle.t * Rng :=
  let '(ang, r1) := uniform (- a) a r in
  let '(spd, r2) := uniform lo hi r1 in
  let '(lf, r3) := uniform llo lhi r2 in
  (Particle.mk px py (cos ang * spd) (sin ang * spd) lf, r3).

(** Whether the [# Super move trigger] branch is taken. *)
Definition triggers (inputs : gmap string bool) (s : t) : bool :=
  get inputs "super" && super_full s && negb (super_active s).

(** [# Super move trigger] *)
Definition update_trigger (inputs : gmap string bool) (c : config) : config :=
  let '(s, h, r) := c in
  if triggers inputs s then
    let s1 := set_super_active true s in
    let s2 := set_super_timer 0.7 s1 in
    let s3 := set_super_full false s2 in
    let '(refs, h', r') :=
      Heap.spawn 30
        (new_particle 0.3 400 700 0.3 0.9
           (fst (left_pos s3) + 60) (snd (left_pos s3) - 60))
        (particles s3) h r in
    (set_particles refs s3, h', r')
  else (s, h, r).

(** [# update super] *)
Definition update_super (dt : Q) (c : config) : config :=
  let '(s, h, r) := c in
  if super_active s then
    let s1 := set_super_timer (super_timer s - dt) s in
    if Qle_bool (super_timer s1) 0 then
      let s2 := set_super_active false s1 in
      let s3 := set_right_hp (py_maxZ 0 (right_hp s2 - 28)) s2 in
      let '(refs, h', r') :=
        Heap.spawn 40
          (new_particle 0.7 100 320 0.4 1.1
             (fst (right_pos s3) - 40) (snd (right_pos s3) - 40))
          (particles s3) h r in
      (set_particles refs s3, h', r')
    else (s1, h, r)
  else (s, h, r).

(** [p[0] += p[2] * dt; p[1] += p[3] * dt; p[4] -= dt; p[3] += 300 * dt] *)
Definition tick (dt : Q) (p : Particle.t) : Particle.t :=
  let q0 := Particle.p0 p + Particle.p2 p * dt in
  let q1 := Particle.p1 p + Particle.p3 p * dt in
  let q4 := Particle.p4 p - dt in
  let q3 := Particle.p3 p + 300 * dt in
  Particle.mk q0 q1 (Particle.p2 p) q3 q4.

(** [# update particles] *)
Definition update_particles (dt : Q) (c : t * list Particle.t)
  : option (t * list Particle.t) :=
  let '(s, h) := c in
  match Heap.prune_loop Particle.p4 tick Particle.eqb dt
          (particles s) h (particles s) with
  | None => None
  | Some (h', refs) => Some (set_particles refs s, h')
  end.

(** [# simple AI]: [random.random()] is only called while a super is active. *)
Definition update_ai (dt : Q) (c : t * Rng) : t * Rng :=
  let '(s, r) := c in
  if super_active s then
    let '(u, r') := random r in
    if Qltb u 0.015
    then (set_right_x (fst (right_pos s) + 100 * dt) s, r')
    else (s, r')
  else (s, r).

(** The state before the [# Super move trigger] block. *)
Definition moved (dt : Q) (inputs : gmap string bool) (s : t) : t :=
  update_clamp (update_move dt inputs (update_timer dt s)).

(** The state after the [# update super] block, before the particle loop. *)
Definition resolved (dt : Q) (inputs : gmap string bool) (c : config) : config :=
  let '(s, h, r) := c in
  update_super dt (update_trigger inputs (moved dt inputs s, h, r)).

Definition update (dt : Q) (inputs : gmap string bool) (c : config)
  : option config :=
  let '(s5, h5, r5) := resolved dt inputs c in
  match update_particles dt (s5, h5) with
  | None => None
  | Some (s6, h6) =>
      let '(s7, r7) := update_ai dt (s6, r5) in
      Some (s7, h6, r7)
  end.

(** The mode objects (with their heaps) that a game can hold: built by
    [__init__], [reset()] on entry, then any run of [update] calls with
    [dt >= 0] and of further [reset()] calls. *)
Inductive reachable : t * list Particle.t -> Prop :=
| reach_reset : reachable (reset init, [])
| reach_reenter s h : reachable (s, h) -> reachable (reset s, h)
| reach_update s h r dt inputs s' h' r' :
    reachable (s, h) ->
    0 <= dt ->
    update dt inputs (s, h, r) = Some (s', h', r') ->
    reachable (s', h').

End Update.

(** *** [draw]: the values handed to pygame *)

(** The [# draw particles] loop: per listed particle, its radius, the RGBA
    colour of its dot and the blit position. *)
Definition draw_particles (s : t) (h : list Particle.t)
  : list (Z * (Z * Z * Z * Z) * (Q * Q)) :=
  flat_map
    (fun l =>
       match h !! l with
       | Some p =>
           let life := Particle.p4 p in
           let size := py_maxZ 2 (py_int (8 * life)) in
           let col := if super_active s then (255, 255, 255)%Z
                      else (200, 230, 255)%Z in
           let alpha := py_int (200 * py_max 0.2 (life / 1.0)) in
           [(size, (fst (fst col), snd (fst col), snd col, alpha),
             (Particle.p0 p - inject_Z size, Particle.p1 p - inject_Z size))]
       | None => []
       end)
    (particles s).

(** The centre [(fx, fy)] of the glowing fist, drawn only while a super is
    active. *)
Definition draw_fist (s : t) : option (Q * Q) :=
  if super_active s then
    let t_ := (0.7 - super_timer s) / 0.7 in
    let fx := fst (left_pos s) + 60 + 480 * t_ in
    let fy := snd (left_pos s) - 60 in
    Some (fx, fy)
  else None.


End BrawlMode.

(** ** [class Game]: the mode selector *)

Module Game.

(** [STATE_MENU], [STATE_PRECISION], [STATE_BRAWL] *)
Inductive State := STATE_MENU | STATE_PRECISION | STATE_BRAWL.

(** The pygame key codes that [main.py] looks at; [K_other] is any other key. *)
Inductive Key :=
  K_RIGHT | K_d | K_LEFT | K_a | K_RETURN | K_ESCAPE | K_SPACE | K_other.

(** The event types of [handle_events]; [OTHER] is any other event. *)
Inductive Event := QUIT | KEYDOWN (key : Key) | MOUSEBUTTONDOWN | OTHER.

(** [==] on mode names and on key codes. *)
Definition State_eqb (a b : State) : bool :=
  match a, b with
  | STATE_MENU, STATE_MENU => true
  | STATE_PRECISION, STATE_PRECISION => true
  | STATE_BRAWL, STATE_BRAWL => true
  | _, _ => false
  end.

Definition Key_eqb (a b : Key) : bool :=
  match a, b with
  | K_RIGHT, K_RIGHT | K_d, K_d | K_LEFT, K_LEFT | K_a, K_a => true
  | K_RETURN, K_RETURN | K_ESCAPE, K_ESCAPE | K_SPACE, K_SPACE => true
  | K_other, K_other => true
  | _, _ => false
  end.

Record t := mk {
  state : State;
  precision : PrecisionCutMode.t;
  brawl : BrawlMode.t;
  running : bool;
  menu_selected : Z;
  _mouse_down : bool }.

(** What lives outside the [Game] object: both heaps and the random source. *)
Record World := mkWorld {
  spark_heap : list Spark.t;
  particle_heap : list Particle.t;
  rng : Rng }.

Definition set_state (v : State) (g : t) : t :=
  mk v (precision g) (brawl g) (running g) (menu_selected g) (_mouse_down g).
Definition set_precision (v : PrecisionCutMode.t) (g : t) : t :=
  mk (state g) v (brawl g) (running g) (menu_selected g) (_mouse_down g).
Definition set_brawl (v : BrawlMode.t) (g : t) : t :=
  mk (state g) (precision g) v (running g) (menu_selected g) (_mouse_down g).
Definition set_running (v : bool) (g : t) : t :=
  mk (state g) (precision g) (brawl g) v (menu_selected g) (_mouse_down g).
Definition set_menu_selected (v : Z) (g : t) : t :=
  mk (state g) (precision g) (brawl g) (running g) v (_mouse_down g).
Definition set_mouse_down (v : bool) (g : t) : t :=
  mk (state g) (precision g) (brawl g) (running g) (menu_selected g) v.

(** [__init__]; [_mouse_down] is first assigned by [handle_events], which
    [run] calls before anything reads it. *)
Definition init : t :=
  {| state := STATE_MENU;
     precision := PrecisionCutMode.init;
     brawl := BrawlMode.init;
     running := true;
     menu_selected := 0%Z;
     _mouse_down := false |}.

Definition init_world (r : Rng) : World :=
  {| spark_heap := []; particle_heap := []; rng := r |}.

(** The mode changes that the selector is meant to make, by name: entering
    a minigame from the menu, and leaving one for the menu. *)
Inductive allowed : State -> State -> Prop :=
| menu_to_precision : allowed STATE_MENU STATE_PRECISION
| menu_to_brawl : allowed STATE_MENU STATE_BRAWL
| precision_to_menu : allowed STATE_PRECISION STATE_MENU
| brawl_to_menu : allowed STATE_BRAWL STATE_MENU.

(** The same transitions with the input that takes them: a confirm (RETURN)
    leaves the menu, a cancel (ESCAPE) returns to it, and any event may
    leave the mode as it is. *)
Inductive selector_step : State -> Event -> State -> Prop :=
| step_confirm s' :
    allowed STATE_MENU s' -> selector_step STATE_MENU (KEYDOWN K_RETURN) s'
| step_cancel s :
    allowed s STATE_MENU -> selector_step s (KEYDOWN K_ESCAPE) STATE_MENU
| step_stay s e : selector_step s e s.

(** A run of the selector over a queue of events, one step per event. *)
Inductive mode_path : State -> list Event -> State -> Prop :=
| path_nil s : mode_path s [] s
| path_cons s e s1 es s' :
    selector_step s e s1 -> mode_path s1 es s' -> mode_path s (e :: es) s'.

(** [key in (k1, k2)] *)
Definition key_in (key : Key) (ks : list Key) : bool :=
  existsb (Key_eqb key) ks.

Section Frame.
Context {M : Math}.

(** The body of [elif event.type == pygame.KEYDOWN:]. *)
Definition on_keydown (key : Key) (c : t * World) : option (t * World) :=
  let '(g, w) := c in
  if State_eqb (state g) STATE_MENU then
    let g1 :=
      if key_in key [K_RIGHT; K_d]
      then set_menu_selected (py_minZ 1 (menu_selected g + 1)) g else g in
    let g2 :=
      if key_in key [K_LEFT; K_a]
      then set_menu_selected (py_maxZ 0 (menu_selected g1 - 1)) g1 else g1 in
    if Key_eqb key K_RETURN then
      if (menu_selected g2 =? 0)%Z then
        let g3 := set_state STATE_PRECISION g2 in
        Some (set_precision (PrecisionCutMode.reset (precision g3)) g3, w)
      else
        let g3 := set_state STATE_BRAWL g2 in
        Some (set_brawl (BrawlMode.reset (brawl g3)) g3, w)
    else Some (g2, w)
  else
    let g1 :=
      if Key_eqb key K_ESCAPE then set_state STATE_MENU g else g in
    if State_eqb (state g1) STATE_BRAWL then
      if Key_eqb key K_SPACE then
        match BrawlMode.update 0 {[ "super" := true ]}
                (brawl g1, particle_heap w, rng w) with
        | None => None
        | Some (b, h, r) =>
            Some (set_brawl b g1, mkWorld (spark_heap w) h r)
        end
      else Some (g1, w)
    else Some (g1, w).

(** One iteration of [for event in pygame.event.get():]; the boolean is the
    local variable [mouse_down]. *)
Definition handle_event (e : Event) (mouse_down : bool) (c : t * World)
  : option (bool * (t * World)) :=
  match e with
  | QUIT => Some (mouse_down, (set_running false (fst c), snd c))
  | KEYDOWN key =>
      match on_keydown key c with
      | None => None
      | Some c' => Some (mouse_down, c')
      end
  | MOUSEBUTTONDOWN => Some (true, c)
  | OTHER => Some (mouse_down, c)
  end.

Fixpoint events_loop (events : list Event) (mouse_down : bool) (c : t * World)
  : option (bool * (t * World)) :=
  match events with
  | [] => Some (mouse_down, c)
  | e :: rest =>
      match handle_event e mouse_down c with
      | None => None
      | Some (md, c') => events_loop rest md c'
      end
  end.

(** [pressed] is [pygame.mouse.get_pressed()[0]]. *)
Definition handle_events (events : list Event) (pressed : bool) (c : t * World)
  : option (t * World) :=
  match events_loop events false c with
  | None => None
  | Some (md, (g, w)) => Some (set_mouse_down (pressed || md) g, w)
  end.

(** [keys] is [pygame.key.get_pressed()], [mouse_pos] is
    [pygame.mouse.get_pos()]. *)
Definition update (dt : Q) (mouse_pos : Z * Z) (keys : Key -> bool)
  (c : t * World) : option (t * World) :=
  let '(g, w) := c in
  match state g with
  | STATE_MENU => Some (g, w)
  | STATE_PRECISION =>
      match PrecisionCutMode.update dt mouse_pos (_mouse_down g)
              (precision g, spark_heap w, rng w) with
      | None => None
      | Some (p, h, r) =>
          Some (set_precision p g, mkWorld h (particle_heap w) r)
      end
  | STATE_BRAWL =>
      let inputs : gmap string bool :=
        <[ "super" := false ]>
          (<[ "right_move" := keys K_d || keys K_RIGHT ]>
            (<[ "left_move" := keys K_a || keys K_LEFT ]> ∅)) in
      let inputs :=
        if keys K_SPACE then <[ "super" := true ]> inputs else inputs in
      match BrawlMode.update dt inputs (brawl g, particle_heap w, rng w) with
      | None => None
      | Some (b, h, r) =>
          Some (set_brawl b g, mkWorld (spark_heap w) h r)
      end
  end.

(** What the environment supplies during one pass of the loop of [run]:
    [tick] is the result of [CLOCK.tick(FPS)] in milliseconds, [events] the
    queue returned by [pygame.event.get()]. *)
Record Frame := mkFrame {
  tick : Z;
  events : list Event;
  pressed : bool;
  mouse_pos : Z * Z;
  keys : Key -> bool }.

(** The body of the [while self.running:] loop.  [draw] and
    [pygame.display.flip()] read the game without changing it. *)
Definition frame (f : Frame) (c : t * World) : option (t * World) :=
  let dt := inject_Z (tick f) / 1000.0 in
  match handle_events (events f) (pressed f) c with
  | None => None
  | Some c1 => update dt (mouse_pos f) (keys f) c1
  end.

(** [run] on the frames the environment supplies: the loop ends as soon as
    [self.running] is false at the top of an iteration. *)
Fixpoint run (frames : list Frame) (c : t * World) : option (t * World) :=
  match frames with
  | [] => Some c
  | f :: rest =>
      if running (fst c) then
        match frame f c with
        | None => None
        | Some c' => run rest c'
        end
      else Some c
  end.

(** Both mode objects of the game, with their heaps, are mode objects that
    [reset()] and [update] calls with [dt >= 0] can produce. *)
Definition modes_reachable (c : t * World) : Prop :=
  PrecisionCutMode.reachable (precision (fst c), spark_heap (snd c))
  /\ BrawlMode.reachable (brawl (fst c), particle_heap (snd c)).

End Frame.
End Game.

(** ** Sample data for the examples *)

(** Low-order Taylor polynomials stand in for [math.cos] and [math.sin]. *)
Definition sample_math : Math :=
  {| pi := 3.14159;
     cos := fun a => 1 - a * a / 2;
     sin := fun a => a - a * a * a / 6 |}.

(** The tape on which [random.random()] always returns [0.0]. *)
Definition zero_tape : Rng := fun _ => 0.

(** The target point of the precision minigame: [(fade_x, head_center[1] + 10)]. *)
Definition target_point : Z * Z := (698, 334)%Z.

(** A pointer position far away from the fade line. *)
Definition far_corner : Z * Z := (0, 0)%Z.

(** A pointer position on the fade line, 16 pixels below the target row. *)
Definition below_target : Z * Z := (698, 350)%Z.

(** A freshly entered precision minigame. *)
Definition precision_start : PrecisionCutMode.config :=
  (PrecisionCutMode.reset PrecisionCutMode.init, [], zero_tape).

(** A freshly entered brawl. *)
Definition brawl_start : BrawlMode.config :=
  (BrawlMode.reset BrawlMode.init, [], zero_tape).

(** The inputs of [self.brawl.update(0, {"super": True})]. *)
Definition super_input : gmap string bool := {[ "super" := true ]}.

(** A brawl whose super has 0.1 s of wind-up left and whose opponent is at
    20 health. *)
Definition brawl_winding : BrawlMode.t :=
  BrawlMode.set_right_hp 20%Z
    (BrawlMode.set_super_timer 0.1
       (BrawlMode.set_super_full false
          (BrawlMode.set_super_active true
             (BrawlMode.reset BrawlMode.init)))).

(** Two sparks on the fade line: one with 0.05 s left, one with 0.5 s. *)
Definition two_sparks : list Spark.t :=
  [Spark.mk 698 334 120 0 0.05; Spark.mk 698 334 120 0 0.5].

Definition precision_two_sparks : PrecisionCutMode.t :=
  PrecisionCutMode.set_sparks [0%nat; 1%nat]
    (PrecisionCutMode.reset PrecisionCutMode.init).

(** Two particles next to the left fighter, with the same lifetimes. *)
Definition two_particles : list Particle.t :=
  [Particle.mk 280 440 400 0 0.05; Particle.mk 280 440 400 0 0.5].

Definition brawl_two_particles : BrawlMode.t :=
  BrawlMode.set_particles [0%nat; 1%nat] (BrawlMode.reset BrawlMode.init).

(** Entering the brawl and holding SPACE through one 0.6 s frame, with the
    random source always returning 0.0. *)
Definition super_round `{Math} (c : option BrawlMode.config)
  : option BrawlMode.config :=
  match c with
  | Some (s, h, r) =>
      BrawlMode.update 0.6 super_input (BrawlMode.reset s, h, zero_tape)
  | None => None
  end.

(** The game as [Game()] builds it, and a keyboard with no key held. *)
Definition game_start : Game.t * Game.World :=
  (Game.init, Game.init_world zero_tape).

Definition no_keys : Game.Key -> bool := fun _ => false.

(** One frame's event queue: choose the brawl, start it, click, fire the
    super, leave. *)
Definition sample_events : list Game.Event :=
  [Game.KEYDOWN Game.K_RIGHT; Game.KEYDOWN Game.K_RETURN; Game.MOUSEBUTTONDOWN;
   Game.KEYDOWN Game.K_SPACE; Game.KEYDOWN Game.K_ESCAPE].

(** Two frames of 16 ms: one carrying the sample queue, one carrying the
    window-close event. *)
Definition sample_frame : Game.Frame :=
  Game.mkFrame 16 sample_events false far_corner no_keys.

Definition quit_frame : Game.Frame :=
  Game.mkFrame 16 [Game.KEYDOWN Game.K_RETURN; Game.QUIT; Game.MOUSEBUTTONDOWN]
    false target_point no_keys.

(** The game right after RETURN on the first menu entry, and a 16 ms frame
    in which the button is held on the target point and nothing else
    happens. *)
Definition game_in_precision : Game.t * Game.World :=
  (Game.set_precision (PrecisionCutMode.reset PrecisionCutMode.init)
     (Game.set_state Game.STATE_PRECISION Game.init),
   Game.init_world zero_tape).

Definition held_frame : Game.Frame :=
  Game.mkFrame 16 [] true target_point no_keys.


(** A brawl whose super has landed. *)
Definition brawl_spent : BrawlMode.t :=
  BrawlMode.set_right_hp 72%Z
    (BrawlMode.set_super_full false (BrawlMode.reset BrawlMode.init)).

(** * Part II: properties *)

(** ** The program on concrete inputs *)

Example max_keeps_first_on_tie : py_max 0.0 0 = 0.0 /\ py_min 1 1.0 = 1.
Proof. by split. Qed.

Example uniform_on_zero_tape : fst (uniform 0.4 0.9 zero_tape) == 0.4.
Proof. reflexivity. Qed.

Example clipper_follows_pointer :
  PrecisionCutMode.clip_y
    (PrecisionCutMode.update_clip below_target PrecisionCutMode.init) == 350
  /\ PrecisionCutMode.clip_y
       (PrecisionCutMode.update_clip far_corner PrecisionCutMode.init) == 100
  /\ PrecisionCutMode.clip_y
       (PrecisionCutMode.update_clip (0, 5000)%Z PrecisionCutMode.init) == 640.
Proof. by repeat split. Qed.

Example target_point_is_a_perfect_hit :
  PrecisionCutMode.precise_hit 0.1 target_point PrecisionCutMode.init = true
  /\ PrecisionCutMode.precise_hit 0.1 below_target PrecisionCutMode.init = false
  /\ PrecisionCutMode.precise_hit 0.1 far_corner PrecisionCutMode.init = false.
Proof. by repeat split. Qed.

(** [list.remove] compares by value: asked to remove the spark behind
    reference 1, it drops the equal spark listed first. *)
Example remove_takes_first_equal :
  let sp := Spark.mk 698 334 120 0 0.5 in
  Heap.list_remove Spark.eqb [sp; sp] 1%nat sp [0%nat; 1%nat] = Some [1%nat]
  /\ Heap.list_remove Spark.eqb [sp] 0%nat sp [] = None.
Proof. by split. Qed.

Example space_in_brawl_triggers_the_super :
  match Game.on_keydown (M := sample_math) Game.K_SPACE
          (Game.set_state Game.STATE_BRAWL Game.init,
           Game.init_world zero_tape) with
  | Some (g, w) =>
      BrawlMode.super_active (Game.brawl g) = true
      /\ BrawlMode.super_full (Game.brawl g) = false
      /\ length (BrawlMode.particles (Game.brawl g)) = 30%nat
      /\ length (Game.particle_heap w) = 30%nat
  | None => False
  end.
Proof. vm_compute. by repeat split. Qed.

(** ** Numeric builtins *)

Lemma Qltb_lt a b : Qltb a b = true <-> a < b.
Proof.
  unfold Qltb. rewrite negb_true_iff.
  destruct (Qle_bool b a) eqn:E.
  - apply Qle_bool_iff in E. split; [discriminate | lra].
  - split; [intros _ | reflexivity].
    destruct (Qlt_le_dec a b) as [H|H]; [exact H |].
    apply Qle_bool_iff in H. congruence.
Qed.

Lemma Qltb_ge a b : Qltb a b = false <-> b <= a.
Proof.
  unfold Qltb. rewrite negb_false_iff. apply Qle_bool_iff.
Qed.

Lemma Qle_bool_gt a b : Qle_bool a b = false <-> b < a.
Proof.
  rewrite <- Qltb_lt. unfold Qltb. rewrite negb_true_iff. tauto.
Qed.

Lemma py_max_cases a b :
  (a < b /\ py_max a b = b) \/ (b <= a /\ py_max a b = a).
Proof.
  unfold py_max. destruct (Qltb a b) eqn:E.
  - left. apply Qltb_lt in E. auto.
  - right. apply Qltb_ge in E. auto.
Qed.

Lemma py_min_cases a b :
  (b < a /\ py_min a b = b) \/ (a <= b /\ py_min a b = a).
Proof.
  unfold py_min. destruct (Qltb b a) eqn:E.
  - left. apply Qltb_lt in E. auto.
  - right. apply Qltb_ge in E. auto.
Qed.

Lemma py_max_spec a b : py_max a b == Qmax a b.
Proof.
  destruct (py_max_cases a b) as [[H E]|[H E]]; rewrite E; symmetry.
  - apply Q.max_r. lra.
  - apply Q.max_l. exact H.
Qed.

Lemma py_max_floor a b : a <= py_max a b.
Proof. destruct (py_max_cases a b) as [[H E]|[H E]]; rewrite E; lra. Qed.

Lemma py_maxZ_spec a b : py_maxZ a b = Z.max a b.
Proof. unfold py_maxZ. destruct (Z.ltb_spec a b); lia. Qed.

Lemma py_minZ_spec a b : py_minZ a b = Z.min a b.
Proof. unfold py_minZ. destruct (Z.ltb_spec b a); lia. Qed.

(** A clamp [max(lo, min(hi, v))] lands in [[lo, hi]] whenever [lo <= hi]. *)
Lemma clamp_range lo hi v : lo <= hi -> lo <= py_max lo (py_min hi v) <= hi.
Proof.
  intros Hlh.
  destruct (py_min_cases hi v) as [[H1 E1]|[H1 E1]]; rewrite E1;
    [destruct (py_max_cases lo v) as [[H2 E2]|[H2 E2]]
    |destruct (py_max_cases lo hi) as [[H2 E2]|[H2 E2]]];
    rewrite E2; lra.
Qed.

(** ** The random source *)

Lemma uniform_range a b r :
  a <= b -> unit_tape r -> a <= fst (uniform a b r) <= b.
Proof.
  intros Hab H. unfold uniform, random. simpl.
  destruct (H 0%nat) as [H0 H1]. nra.
Qed.

Lemma unit_tape_uniform a b r : unit_tape r -> unit_tape (snd (uniform a b r)).
Proof. intros H i. apply H. Qed.

(** ** The pruning loop over shared objects *)

Section ObjectFacts.
Context {T : Type}.
Variable life : T -> Q.
Variable tick : Q -> T -> T.
Variable eqb : T -> T -> bool.
Hypothesis eqb_life : forall a b, eqb a b = true -> life a == life b.

(** [remove] walks past live objects to reach the expired one itself. *)
Lemma list_remove_self (h : list T) (l : nat) (v : T) (pre rest : list nat) :
  h !! l = Some v ->
  life v <= 0 ->
  (forall k, k ∈ pre -> k <> l /\ Heap.alive life h k = true) ->
  Heap.list_remove eqb h l v (pre ++ l :: rest) = Some (pre ++ rest).
Proof.
  intros Hl Hv. induction pre as [|k pre IH]; intros Hpre; simpl.
  - rewrite Nat.eqb_refl. reflexivity.
  - destruct (Hpre k) as [Hne Hk]; [left|].
    apply Nat.eqb_neq in Hne. rewrite Hne. simpl.
    unfold Heap.alive in Hk. destruct (h !! k) as [vk|] eqn:Ek.
    + destruct (eqb vk v) eqn:Eq.
      * apply eqb_life in Eq. apply Qltb_lt in Hk. lra.
      * rewrite IH; [reflexivity|]. intros k' Hk'. apply Hpre. by right.
    + rewrite IH; [reflexivity|]. intros k' Hk'. apply Hpre. by right.
Qed.

Lemma alive_insert_ne (h : list T) (l k : nat) (v : T) :
  k <> l -> Heap.alive life (<[l := v]> h) k = Heap.alive life h k.
Proof.
  intros Hne. unfold Heap.alive. by rewrite list_lookup_insert_ne.
Qed.

(** The loop invariant: the entries before the iteration point are the
    survivors, the pending entries are untouched. *)
Lemma prune_loop_inv (dt : Q) (snap : list nat) :
  forall (h : list T) (pre : list nat),
    NoDup (pre ++ snap) ->
    (forall l, l ∈ snap -> (l < length h)%nat) ->
    (forall l, l ∈ pre -> Heap.alive life h l = true) ->
    exists h',
      Heap.prune_loop life tick eqb dt snap h (pre ++ snap)
        = Some (h', pre ++ List.filter (Heap.alive life h') snap)
      /\ length h' = length h
      /\ (forall l v, l ∈ snap -> h !! l = Some v -> h' !! l = Some (tick dt v))
      /\ (forall l, l ∉ snap -> h' !! l = h !! l).
Proof.
  induction snap as [|l rest IH]; intros h pre Hnd Hval Hpre.
  - exists h. simpl. repeat split; try done.
    intros l v Hl. by apply elem_of_nil in Hl.
  - apply NoDup_app in Hnd as (Hnd1 & Hdisj & Hnd2).
    apply NoDup_cons in Hnd2 as [Hl_rest Hnd2].
    assert (Hlt : (l < length h)%nat) by (apply Hval; left).
    destruct (lookup_lt_is_Some_2 h l Hlt) as [v Hv].
    assert (Hl_pre : forall k, k ∈ pre -> k <> l).
    { intros k Hk ->. apply (Hdisj l Hk). left. }
    set (v' := tick dt v). set (h1 := <[l := v']> h).
    assert (Hh1l : h1 !! l = Some v') by (by apply list_lookup_insert_eq).
    assert (Hlen1 : length h1 = length h) by apply length_insert.
    simpl. rewrite Hv. fold v' h1.
    destruct (Qle_bool (life v') 0) eqn:Edead.
    + apply Qle_bool_iff in Edead.
      rewrite (list_remove_self h1 l v' pre rest Hh1l Edead).
      2:{ intros k Hk. split; [by apply Hl_pre|].
          unfold h1. rewrite alive_insert_ne; [by apply Hpre | by apply Hl_pre]. }
      destruct (IH h1 pre) as (h' & Hrun & Hlen & Hin & Hout).
      { apply NoDup_app. repeat split; try done.
        intros k Hk Hk'. apply (Hdisj k Hk). by right. }
      { intros k Hk. rewrite Hlen1. apply Hval. by right. }
      { intros k Hk. unfold h1. rewrite alive_insert_ne; [by apply Hpre | by apply Hl_pre]. }
      exists h'. rewrite Hrun.
      assert (Hh'l : h' !! l = Some v') by (rewrite Hout; done).
      assert (Heq : Heap.alive life h' l = false).
      { unfold Heap.alive. rewrite Hh'l. apply Qltb_ge. exact Edead. }
      rewrite Heq. split; [reflexivity|]. split; [congruence|]. split.
      * intros k vk Hk Hvk. apply elem_of_cons in Hk as [->|Hk].
        -- rewrite Hv in Hvk. injection Hvk as <-. exact Hh'l.
        -- apply Hin; [done|]. unfold h1. rewrite list_lookup_insert_ne; [done|].
           intros ->. done.
      * intros k Hk. apply not_elem_of_cons in Hk as [Hkl Hk].
        rewrite Hout; [|done]. unfold h1. by rewrite list_lookup_insert_ne.
    + apply Qle_bool_gt in Edead.
      destruct (IH h1 (pre ++ [l])) as (h' & Hrun & Hlen & Hin & Hout).
      { rewrite <- app_assoc. simpl. apply NoDup_app. repeat split; try done.
        by apply NoDup_cons. }
      { intros k Hk. rewrite Hlen1. apply Hval. by right. }
      { intros k Hk. apply elem_of_app in Hk as [Hk|Hk].
        - unfold h1. rewrite alive_insert_ne; [by apply Hpre | by apply Hl_pre].
        - apply list_elem_of_singleton in Hk as ->.
          unfold Heap.alive. rewrite Hh1l. by apply Qltb_lt. }
      exists h'. rewrite <- app_assoc in Hrun. simpl in Hrun. rewrite Hrun.
      assert (Hh'l : h' !! l = Some v') by (rewrite Hout; done).
      assert (Heq : Heap.alive life h' l = true).
      { unfold Heap.alive. rewrite Hh'l. by apply Qltb_lt. }
      rewrite Heq. rewrite <- app_assoc. simpl.
      split; [reflexivity|]. split; [congruence|]. split.
      * intros k vk Hk Hvk. apply elem_of_cons in Hk as [->|Hk].
        -- rewrite Hv in Hvk. injection Hvk as <-. exact Hh'l.
        -- apply Hin; [done|]. unfold h1. rewrite list_lookup_insert_ne; [done|].
           intros ->. done.
      * intros k Hk. apply not_elem_of_cons in Hk as [Hkl Hk].
        rewrite Hout; [|done]. unfold h1. by rewrite list_lookup_insert_ne.
Qed.

(** The loop as a whole: every listed object is ticked once, in place, and the
    list becomes the sublist of the references whose object is still alive. *)
Lemma prune_loop_filter (dt : Q) (h : list T) (refs : list nat) :
  Heap.wf h refs ->
  exists h',
    Heap.prune_loop life tick eqb dt refs h refs
      = Some (h', List.filter (Heap.alive life h') refs)
    /\ length h' = length h
    /\ (forall l v, l ∈ refs -> h !! l = Some v -> h' !! l = Some (tick dt v))
    /\ (forall l, l ∉ refs -> h' !! l = h !! l).
Proof.
  intros [Hnd Hval].
  destruct (prune_loop_inv dt refs h [] Hnd Hval) as (h' & H); [|by exists h'].
  intros l Hl. by apply elem_of_nil in Hl.
Qed.

End ObjectFacts.

(** ** Bursts and well-formed reference lists *)

Section SpawnFacts.
Context {T : Type}.

(** A burst of [n] objects appends [n] fresh references, in order, and [n]
    new objects; [I] is what is known of the random source, [P] what each
    constructed object satisfies. *)
Lemma spawn_spec (P : T -> Prop) (I : Rng -> Prop) (mk : Rng -> T * Rng) :
  (forall r, I r -> P (fst (mk r)) /\ I (snd (mk r))) ->
  forall (n : nat) (refs : list nat) (h : list T) (r : Rng),
    I r ->
    exists vs r',
      Heap.spawn n mk refs h r = (refs ++ seq (length h) n, h ++ vs, r')
      /\ length vs = n /\ Forall P vs /\ I r'.
Proof.
  intros Hmk. induction n as [|n IH]; intros refs h r Hr; simpl.
  - exists [], r. rewrite !app_nil_r. by repeat split.
  - destruct (mk r) as [v r1] eqn:Emk.
    destruct (Hmk r Hr) as [Hv Hr1]. rewrite Emk in Hv, Hr1. simpl in Hv, Hr1.
    destruct (IH (refs ++ [length h]) (h ++ [v]) r1 Hr1)
      as (vs & r' & Hrun & Hlen & HP & Hr').
    exists (v :: vs), r'. rewrite Hrun.
    rewrite length_app, Nat.add_1_r, <- !app_assoc. simpl.
    repeat split; try done.
    + by rewrite Hlen.
    + by constructor.
Qed.

Lemma spawn_shape (mk : Rng -> T * Rng) (n : nat) (refs : list nat)
  (h : list T) (r : Rng) :
  exists vs r',
    Heap.spawn n mk refs h r = (refs ++ seq (length h) n, h ++ vs, r')
    /\ length vs = n.
Proof.
  destruct (spawn_spec (fun _ => True) (fun _ => True) mk
              (fun _ _ => conj I I) n refs h r I) as (vs & r' & H1 & H2 & _).
  by exists vs, r'.
Qed.

Lemma wf_nil (h : list T) : Heap.wf h [].
Proof.
  split; [constructor|]. intros l Hl. by apply elem_of_nil in Hl.
Qed.

Lemma wf_spawned (h vs : list T) (refs : list nat) :
  Heap.wf h refs ->
  Heap.wf (h ++ vs) (refs ++ seq (length h) (length vs)).
Proof.
  intros [Hnd Hval]. split.
  - apply NoDup_app. repeat split; [done| |apply NoDup_seq].
    intros l Hl Hl'. apply Hval in Hl. apply elem_of_seq in Hl'. lia.
  - intros l Hl. rewrite length_app. apply elem_of_app in Hl as [Hl|Hl].
    + apply Hval in Hl. lia.
    + apply elem_of_seq in Hl. lia.
Qed.

Lemma wf_filter (f : nat -> bool) (h h' : list T) (refs : list nat) :
  Heap.wf h refs -> length h' = length h -> Heap.wf h' (List.filter f refs).
Proof.
  intros [Hnd Hval] Hlen. split.
  - apply NoDup_ListNoDup, List.NoDup_filter. by apply NoDup_ListNoDup.
  - intros l Hl. apply list_elem_of_In, List.filter_In in Hl as [Hl _].
    rewrite Hlen. by apply Hval, list_elem_of_In.
Qed.

End SpawnFacts.

(** Equal sparks and equal particles have equal remaining life. *)
Lemma Spark_eqb_life a b : Spark.eqb a b = true -> Spark.life a == Spark.life b.
Proof.
  unfold Spark.eqb. rewrite !andb_true_iff. intros [_ H].
  by apply Qeq_bool_iff.
Qed.

Lemma Particle_eqb_life a b :
  Particle.eqb a b = true -> Particle.p4 a == Particle.p4 b.
Proof.
  unfold Particle.eqb. rewrite !andb_true_iff. intros [_ H].
  by apply Qeq_bool_iff.
Qed.

(** ** [PrecisionCutMode]: the phases of [update] *)

Section PrecisionFacts.
Import PrecisionCutMode.
Context {M : Math}.

Lemma new_spark_spec (lo hi llo lhi : Q) (s : t) (r : Rng) :
  llo <= lhi ->
  let v := fst (new_spark lo hi llo lhi s r) in
  Spark.x v = fade_x s /\ Spark.y v = clip_y s
  /\ (unit_tape r ->
      (llo <= Spark.life v /\ Spark.life v <= lhi)
      /\ unit_tape (snd (new_spark lo hi llo lhi s r))).
Proof.
  intros Hl. unfold new_spark, uniform, random. simpl.
  split; [reflexivity|]. split; [reflexivity|]. intros H. split.
  - destruct (H 2%nat) as [H0 H1]. split; nra.
  - intros i. apply H.
Qed.

(** What a burst of sparks adds: fresh references to new sparks placed at
    [(fade_x, clip_y)], with lifetimes in the range of the burst. *)
Lemma spark_burst (n : nat) (lo hi llo lhi : Q) (s : t)
  (refs : list nat) (h : list Spark.t) (r : Rng) :
  llo <= lhi ->
  exists vs r',
    Heap.spawn n (new_spark lo hi llo lhi s) refs h r
      = (refs ++ seq (length h) n, h ++ vs, r')
    /\ length vs = n
    /\ Forall (fun v => Spark.x v = fade_x s /\ Spark.y v = clip_y s) vs
    /\ (unit_tape r ->
        Forall (fun v => llo <= Spark.life v /\ Spark.life v <= lhi) vs).
Proof.
  intros Hl.
  destruct (spawn_spec
    (fun v => (Spark.x v = fade_x s /\ Spark.y v = clip_y s)
              /\ (unit_tape r -> llo <= Spark.life v /\ Spark.life v <= lhi))
    (fun r1 => unit_tape r -> unit_tape r1)
    (new_spark lo hi llo lhi s)) with (n := n) (refs := refs) (h := h) (r := r)
    as (vs & r' & Hrun & Hlen & HP & _).
  - intros r1 Hr1.
    destruct (new_spark_spec lo hi llo lhi s r1 Hl) as (Hx & Hy & Hlife).
    split; [split; [done|] |]; intros Hr; by apply Hlife, Hr1.
  - done.
  - exists vs, r'. repeat split; try done.
    + eapply Forall_impl; [exact HP|]. by intros v [Hv _].
    + intros Hr. eapply Forall_impl; [exact HP|]. intros v [_ Hv]. by apply Hv.
Qed.

(** A press inside the hit area whose vertical error is within the window. *)
Lemma update_press_perfect mouse_pos s h r :
  dist mouse_pos s < 80 ->
  vert_err s <= perfection_window s ->
  exists vs r',
    update_press mouse_pos true (s, h, r)
      = (set_sparks (sparks s ++ seq (length h) 12)
           (set_perfect_text_timer 0.9
              (set_combo_timer 1.2 (set_combo (combo s + 1)%Z s))),
         h ++ vs, r')
    /\ length vs = 12%nat
    /\ Forall (fun v => Spark.x v = fade_x s /\ Spark.y v = clip_y s) vs
    /\ (unit_tape r ->
        Forall (fun v => 0.4 <= Spark.life v /\ Spark.life v <= 0.9) vs).
Proof.
  intros Hd Hv. unfold update_press.
  apply Qltb_lt in Hd. rewrite Hd. apply Qle_bool_iff in Hv. rewrite Hv.
  set (s3 := set_perfect_text_timer 0.9 _).
  destruct (spark_burst 12 120 350 0.4 0.9 s3 (sparks s3) h r)
    as (vs & r' & Hrun & Hrest); [lra|].
  exists vs, r'. rewrite Hrun. split; [reflexivity | exact Hrest].
Qed.

(** A press inside the hit area whose vertical error exceeds the window. *)
Lemma update_press_imperfect mouse_pos s h r :
  dist mouse_pos s < 80 ->
  perfection_window s < vert_err s ->
  exists vs r',
    update_press mouse_pos true (s, h, r)
      = (set_sparks (sparks s ++ seq (length h) 4) (set_combo 0%Z s),
         h ++ vs, r')
    /\ length vs = 4%nat
    /\ Forall (fun v => Spark.x v = fade_x s /\ Spark.y v = clip_y s) vs
    /\ (unit_tape r ->
        Forall (fun v => 0.2 <= Spark.life v /\ Spark.life v <= 0.6) vs).
Proof.
  intros Hd Hv. unfold update_press.
  apply Qltb_lt in Hd. rewrite Hd. apply Qle_bool_gt in Hv. rewrite Hv.
  set (s1 := set_combo 0%Z s).
  destruct (spark_burst 4 40 140 0.2 0.6 s1 (sparks s1) h r)
    as (vs & r' & Hrun & Hrest); [lra|].
  exists vs, r'. rewrite Hrun. split; [reflexivity | exact Hrest].
Qed.

(** No press, or a press outside the hit area: nothing is classified. *)
Lemma update_press_miss mouse_pos mouse_down s h r :
  mouse_down = false \/ 80 <= dist mouse_pos s ->
  update_press mouse_pos mouse_down (s, h, r) = (s, h, r).
Proof.
  intros [-> | Hd]; [reflexivity|]. unfold update_press.
  apply Qltb_ge in Hd. rewrite Hd. by destruct mouse_down.
Qed.

(** The three ways a call can go through the press block. *)
Lemma update_press_cases mouse_pos mouse_down s :
  (mouse_down = true /\ dist mouse_pos s < 80
   /\ vert_err s <= perfection_window s)
  \/ (mouse_down = true /\ dist mouse_pos s < 80
      /\ perfection_window s < vert_err s)
  \/ (mouse_down = false \/ 80 <= dist mouse_pos s).
Proof.
  destruct mouse_down; [|by right; right; left].
  destruct (Qlt_le_dec (dist mouse_pos s) 80) as [Hd|Hd];
    [|by right; right; right].
  destruct (Qlt_le_dec (perfection_window s) (vert_err s)); [right; left|left];
    done.
Qed.

(** The press block only appends fresh sparks and touches the combo fields. *)
Lemma update_press_frame mouse_pos mouse_down s h r :
  exists s' vs r',
    update_press mouse_pos mouse_down (s, h, r) = (s', h ++ vs, r')
    /\ sparks s' = sparks s ++ seq (length h) (length vs)
    /\ time_limit s' = time_limit s /\ time_left s' = time_left s
    /\ head_center s' = head_center s /\ fade_x s' = fade_x s
    /\ clip_y s' = clip_y s /\ perfection_window s' = perfection_window s
    /\ head_radius s' = head_radius s.
Proof.
  destruct (update_press_cases mouse_pos mouse_down s)
    as [(-> & Hd & Hv) | [(-> & Hd & Hv) | Hmiss]].
  - destruct (update_press_perfect mouse_pos s h r Hd Hv)
      as (vs & r' & -> & Hlen & _).
    eexists _, vs, r'. rewrite Hlen. by repeat split.
  - destruct (update_press_imperfect mouse_pos s h r Hd Hv)
      as (vs & r' & -> & Hlen & _).
    eexists _, vs, r'. rewrite Hlen. by repeat split.
  - rewrite (update_press_miss _ _ _ _ _ Hmiss).
    exists s, [], r. rewrite !app_nil_r. by repeat split.
Qed.

Lemma update_press_wf mouse_pos mouse_down s h r s' h' r' :
  update_press mouse_pos mouse_down (s, h, r) = (s', h', r') ->
  Heap.wf h (sparks s) -> Heap.wf h' (sparks s').
Proof.
  intros Hrun Hwf.
  destruct (update_press_frame mouse_pos mouse_down s h r)
    as (s1 & vs & r1 & Hrun1 & Hsp & _).
  rewrite Hrun in Hrun1. injection Hrun1 as -> -> ->.
  rewrite Hsp. by apply wf_spawned.
Qed.

(** The spark loop never raises on a well-formed list; it ticks every listed
    spark in place and keeps exactly the references to live sparks. *)
Lemma update_sparks_spec dt s h :
  Heap.wf h (sparks s) ->
  exists h',
    update_sparks dt (s, h)
      = Some (set_sparks (List.filter (Heap.alive Spark.life h') (sparks s)) s, h')
    /\ length h' = length h
    /\ (forall l v, l ∈ sparks s -> h !! l = Some v -> h' !! l = Some (tick dt v))
    /\ (forall l, l ∉ sparks s -> h' !! l = h !! l).
Proof.
  intros Hwf.
  destruct (prune_loop_filter Spark.life tick Spark.eqb Spark_eqb_life
              dt h (sparks s) Hwf) as (h' & Hrun & Hrest).
  exists h'. unfold update_sparks. rewrite Hrun. by split.
Qed.

Lemma update_timers_frame dt s :
  let s' := update_timers dt s in
  sparks s' = sparks s /\ time_limit s' = time_limit s
  /\ time_left s' = time_left s /\ head_center s' = head_center s
  /\ fade_x s' = fade_x s /\ clip_y s' = clip_y s
  /\ perfection_window s' = perfection_window s
  /\ head_radius s' = head_radius s.
Proof.
  unfold update_timers.
  destruct (Qltb 0 (combo_timer s)); simpl;
    match goal with |- context [Qltb 0 ?a] => destruct (Qltb 0 a) end;
    by repeat split.
Qed.

(** [update] as a whole: it returns on every well-formed configuration, and
    its result is the composition of the phases. *)
Lemma precision_update_run dt mouse_pos mouse_down s h r :
  Heap.wf h (sparks s) ->
  exists s3 h3 r3 h4,
    classified dt mouse_pos mouse_down (s, h, r) = (s3, h3, r3)
    /\ Heap.wf h3 (sparks s3)
    /\ update_sparks dt (s3, h3)
       = Some (set_sparks (List.filter (Heap.alive Spark.life h4) (sparks s3)) s3, h4)
    /\ update dt mouse_pos mouse_down (s, h, r)
       = Some (update_timers dt
                 (set_sparks (List.filter (Heap.alive Spark.life h4) (sparks s3)) s3),
               h4, r3)
    /\ length h4 = length h3
    /\ (forall l v, l ∈ sparks s3 -> h3 !! l = Some v -> h4 !! l = Some (tick dt v)).
Proof.
  intros Hwf. unfold update.
  destruct (classified dt mouse_pos mouse_down (s, h, r)) as [[s3 h3] r3] eqn:Ec.
  assert (Hwf3 : Heap.wf h3 (sparks s3)).
  { unfold classified in Ec. eapply update_press_wf; [exact Ec|]. exact Hwf. }
  destruct (update_sparks_spec dt s3 h3 Hwf3) as (h4 & Hrun & Hlen & Htick & _).
  exists s3, h3, r3, h4. rewrite Hrun.
  split; [reflexivity|]. split; [exact Hwf3|]. split; [reflexivity|].
  split; [reflexivity|]. split; [exact Hlen | exact Htick].
Qed.

(** The same, starting from a known result of the press block. *)
Lemma precision_update_from_classified dt mouse_pos mouse_down s h r s3 h3 r3 :
  classified dt mouse_pos mouse_down (s, h, r) = (s3, h3, r3) ->
  Heap.wf h3 (sparks s3) ->
  exists h4,
    update dt mouse_pos mouse_down (s, h, r)
      = Some (update_timers dt
                (set_sparks (List.filter (Heap.alive Spark.life h4) (sparks s3)) s3),
              h4, r3)
    /\ length h4 = length h3
    /\ (forall l v, l ∈ sparks s3 -> h3 !! l = Some v -> h4 !! l = Some (tick dt v)).
Proof.
  intros Hc Hwf3. unfold update. rewrite Hc.
  destruct (update_sparks_spec dt s3 h3 Hwf3) as (h4 & Hrun & Hlen & Htick & _).
  exists h4. rewrite Hrun. by repeat split.
Qed.

End PrecisionFacts.

(** ** [PrecisionCutMode]: classification of a press *)

Section PrecisionPress.
Import PrecisionCutMode.
Context {M : Math}.

Lemma filter_keep_all (f : nat -> bool) (l : list nat) :
  (forall k, k ∈ l -> f k = true) -> List.filter f l = l.
Proof.
  induction l as [|k l IH]; intros Hall; simpl; [reflexivity|].
  rewrite (Hall k); [|by left]. f_equal. apply IH.
  intros k' Hk'. apply Hall. by right.
Qed.

(** C1 (as amended). For every call with the pointer pressed: a press inside
    the coarse hit area ([dist < 80]) whose vertical error exceeds
    [perfection_window] leaves [combo] at 0 immediately after the press is
    classified; a press outside the coarse hit area is not classified at all
    and leaves [combo] as it was. *)
Theorem imperfect_press_resets_combo dt mouse_pos s h r :
  let s2 := update_clip mouse_pos (update_time dt s) in
  let s3 := fst (fst (classified dt mouse_pos true (s, h, r))) in
  (dist mouse_pos s2 < 80 -> perfection_window s2 < vert_err s2 ->
   combo s3 = 0%Z)
  /\ (80 <= dist mouse_pos s2 -> combo s3 = combo s).
Proof.
  intros s2 s3. subst s3. unfold classified. fold s2. split.
  - intros Hd Hv.
    destruct (update_press_imperfect mouse_pos s2 h r Hd Hv)
      as (vs & r' & -> & _).
    reflexivity.
  - intros Hd. rewrite update_press_miss; [reflexivity | by right].
Qed.

End PrecisionPress.

Lemma imperfect_press_resets_combo_witness :
  let s := PrecisionCutMode.reset PrecisionCutMode.init in
  let near := PrecisionCutMode.update_clip below_target
                (PrecisionCutMode.update_time 0.1 s) in
  let far := PrecisionCutMode.update_clip far_corner
               (PrecisionCutMode.update_time 0.1 s) in
  PrecisionCutMode.dist below_target near < 80
  /\ PrecisionCutMode.perfection_window near < PrecisionCutMode.vert_err near
  /\ PrecisionCutMode.combo
       (fst (fst (PrecisionCutMode.classified (M := sample_math)
                    0.1 below_target true (s, [], zero_tape)))) = 0%Z
  /\ 80 <= PrecisionCutMode.dist far_corner far
  /\ PrecisionCutMode.combo
       (fst (fst (PrecisionCutMode.classified (M := sample_math)
                    0.1 far_corner true (s, [], zero_tape))))
     = PrecisionCutMode.combo s.
Proof.
  assert (Hd : PrecisionCutMode.dist below_target
                 (PrecisionCutMode.update_clip below_target
                    (PrecisionCutMode.update_time 0.1
                       (PrecisionCutMode.reset PrecisionCutMode.init)))
               < 80) by (vm_compute; reflexivity).
  assert (Hv : PrecisionCutMode.perfection_window
                 (PrecisionCutMode.update_clip below_target
                    (PrecisionCutMode.update_time 0.1
                       (PrecisionCutMode.reset PrecisionCutMode.init)))
               < PrecisionCutMode.vert_err
                   (PrecisionCutMode.update_clip below_target
                      (PrecisionCutMode.update_time 0.1
                         (PrecisionCutMode.reset PrecisionCutMode.init))))
    by (vm_compute; reflexivity).
  assert (Hfar : 80 <= PrecisionCutMode.dist far_corner
                         (PrecisionCutMode.update_clip far_corner
                            (PrecisionCutMode.update_time 0.1
                               (PrecisionCutMode.reset PrecisionCutMode.init))))
    by (vm_compute; discriminate).
  split; [exact Hd|]. split; [exact Hv|]. split.
  - exact (proj1 (imperfect_press_resets_combo (M := sample_math) 0.1
                    below_target (PrecisionCutMode.reset PrecisionCutMode.init)
                    [] zero_tape) Hd Hv).
  - split; [exact Hfar|].
    exact (proj2 (imperfect_press_resets_combo (M := sample_math) 0.1
                    far_corner (PrecisionCutMode.reset PrecisionCutMode.init)
                    [] zero_tape) Hfar).
Defined.

(** C1 (as stated) fails: after one precise hit ([combo = 1]), a press in the
    far corner has a vertical error above [perfection_window] and lies outside
    the coarse hit area, yet [combo] is still 1 right after the press is
    classified, and still 1 when [update] returns. *)
Lemma missed_press_keeps_combo :
  match PrecisionCutMode.update (M := sample_math) 0.1 target_point true
          precision_start with
  | None => False
  | Some (s, h, r) =>
      let s2 := PrecisionCutMode.update_clip far_corner
                  (PrecisionCutMode.update_time 0.1 s) in
      PrecisionCutMode.combo s = 1%Z
      /\ PrecisionCutMode.perfection_window s2 < PrecisionCutMode.vert_err s2
      /\ 80 <= PrecisionCutMode.dist far_corner s2
      /\ PrecisionCutMode.combo
           (fst (fst (PrecisionCutMode.classified (M := sample_math)
                        0.1 far_corner true (s, h, r)))) = 1%Z
      /\ PrecisionCutMode.combo
           (fst (fst (PrecisionCutMode.classified (M := sample_math)
                        0.1 far_corner true (s, h, r)))) <> 0%Z
      /\ match PrecisionCutMode.update (M := sample_math) 0.1 far_corner true
                 (s, h, r) with
         | None => False
         | Some (s', _, _) => PrecisionCutMode.combo s' = 1%Z
         end
  end.
Proof.
  vm_compute. repeat split; discriminate.
Qed.

(** ** [PrecisionCutMode]: what holds of every reachable mode object *)

Section PrecisionReach.
Import PrecisionCutMode.
Context {M : Math}.

Lemma precision_update_time_range dt s :
  0 <= dt -> 0 <= time_left s <= time_limit s ->
  0 <= time_left (update_time dt s) <= time_limit (update_time dt s).
Proof.
  intros Hdt [H0 H1]. simpl.
  destruct (py_max_cases 0.0 (time_left s - dt)) as [[H E]|[H E]];
    rewrite E; split; lra.
Qed.

(** The fields [update] leaves alone, the range of [time_left], and the
    spark list staying well formed. *)
Lemma precision_update_preserves dt mouse_pos mouse_down s h r s' h' r' :
  Heap.wf h (sparks s) ->
  update dt mouse_pos mouse_down (s, h, r) = Some (s', h', r') ->
  time_limit s' = time_limit s /\ head_center s' = head_center s
  /\ fade_x s' = fade_x s /\ perfection_window s' = perfection_window s
  /\ time_left s' = py_max 0.0 (time_left s - dt)
  /\ Heap.wf h' (sparks s').
Proof.
  intros Hwf Hrun.
  destruct (precision_update_run dt mouse_pos mouse_down s h r Hwf)
    as (s3 & h3 & r3 & h4 & Hc & Hwf3 & _ & Hup & Hlen & _).
  rewrite Hup in Hrun. injection Hrun as <- <- <-.
  unfold classified in Hc.
  destruct (update_press_frame mouse_pos mouse_down
              (update_clip mouse_pos (update_time dt s)) h r)
    as (s3' & vs & r3' & Hp & _ & Htl & Hleft & Hhc & Hfx & _ & Hpw & _).
  rewrite Hc in Hp. injection Hp as <- -> <-.
  destruct (update_timers_frame dt
              (set_sparks (List.filter (Heap.alive Spark.life h4) (sparks s3)) s3))
    as (Hsp & Htl' & Hleft' & Hhc' & Hfx' & _ & Hpw' & _).
  rewrite Htl', Hleft', Hhc', Hfx', Hpw', Hsp. simpl.
  rewrite Htl, Hleft, Hhc, Hfx, Hpw. simpl.
  repeat (split; [reflexivity|]).
  by apply (wf_filter _ (h ++ vs)).
Qed.

Lemma precision_reachable_inv c :
  reachable c ->
  let s := fst c in
  time_limit s = time_limit init /\ head_center s = head_center init
  /\ fade_x s = fade_x init /\ perfection_window s = perfection_window init
  /\ (0 <= time_left s /\ time_left s <= time_limit s)
  /\ Heap.wf (snd c) (sparks s).
Proof.
  induction 1 as [|s h _ IH|s h r dt mp md s' h' r' _ IH Hdt Hrun]; simpl in *.
  - repeat (split; [done || (split; vm_compute; discriminate)|]).
    apply wf_nil.
  - destruct IH as (Htl & Hhc & Hfx & Hpw & _ & _).
    rewrite Htl.
    repeat (split; [done || (split; vm_compute; discriminate)|]).
    apply wf_nil.
  - destruct IH as (Htl & Hhc & Hfx & Hpw & Hrange & Hwf).
    destruct (precision_update_preserves _ _ _ _ _ _ _ _ _ Hwf Hrun)
      as (Htl' & Hhc' & Hfx' & Hpw' & Hleft' & Hwf').
    rewrite Htl', Hhc', Hfx', Hpw'. repeat (split; [done|]). split; [|done].
    rewrite Hleft'. apply (precision_update_time_range dt s Hdt Hrange).
Qed.

(** [update] returns on every reachable configuration. *)
Lemma precision_reachable_update_total s h r dt mouse_pos mouse_down :
  reachable (s, h) ->
  exists c', update dt mouse_pos mouse_down (s, h, r) = Some c'.
Proof.
  intros Hr. apply precision_reachable_inv in Hr as (_ & _ & _ & _ & _ & Hwf).
  destruct (precision_update_run dt mouse_pos mouse_down s h r Hwf)
    as (s3 & h3 & r3 & h4 & _ & _ & _ & Hup & _).
  eexists. exact Hup.
Qed.

End PrecisionReach.

(** ** [PrecisionCutMode]: the combo counter *)

Section PrecisionCombo.
Import PrecisionCutMode.
Context {M : Math}.

Lemma update_timers_running dt s :
  0 < combo_timer s ->
  combo (update_timers dt s) = combo s
  /\ combo_timer (update_timers dt s) = combo_timer s - dt.
Proof.
  intros H. apply Qltb_lt in H. unfold update_timers. rewrite H. simpl.
  by destruct (Qltb 0 (perfect_text_timer s)).
Qed.

Lemma update_timers_expired dt s :
  combo_timer s <= 0 ->
  combo (update_timers dt s) = 0%Z
  /\ combo_timer (update_timers dt s) = combo_timer s.
Proof.
  intros H. apply Qltb_ge in H. unfold update_timers. rewrite H. simpl.
  by destruct (Qltb 0 (perfect_text_timer s)).
Qed.

(** Without a precise hit the press block leaves [combo_timer] alone. *)
Lemma classified_keeps_combo_timer dt mouse_pos mouse_down s h r :
  mouse_down && precise_hit dt mouse_pos s = false ->
  combo_timer (fst (fst (classified dt mouse_pos mouse_down (s, h, r))))
  = combo_timer s.
Proof.
  intros Hno. unfold classified.
  set (s2 := update_clip mouse_pos (update_time dt s)).
  destruct (update_press_cases mouse_pos mouse_down s2)
    as [(-> & Hd & Hv) | [(-> & Hd & Hv) | Hmiss]].
  - exfalso. simpl in Hno. unfold precise_hit in Hno. fold s2 in Hno.
    apply Qltb_lt in Hd. apply Qle_bool_iff in Hv.
    rewrite Hd, Hv in Hno. discriminate.
  - destruct (update_press_imperfect mouse_pos s2 h r Hd Hv)
      as (vs & r' & -> & _).
    reflexivity.
  - by rewrite update_press_miss.
Qed.

(** C5. A press inside the coarse hit area whose vertical error is at most
    [perfection_window] adds exactly 1 to [combo] and restarts [combo_timer]
    at its constant 1.2 s, both right after classification and (with the
    timer run down by [dt]) when [update] returns.  In particular, after
    [reset()] a call [update(0.1, target_point, True)] returns with
    [combo == 1] and 12 sparks, the size of the perfect burst. *)
Theorem precise_press_increments_combo :
  (forall dt mouse_pos s h r,
     let s2 := update_clip mouse_pos (update_time dt s) in
     dist mouse_pos s2 < 80 ->
     vert_err s2 <= perfection_window s2 ->
     (let s3 := fst (fst (classified dt mouse_pos true (s, h, r))) in
      combo s3 = (combo s + 1)%Z /\ combo_timer s3 = 1.2)
     /\ (Heap.wf h (sparks s) ->
         exists s' h' r',
           update dt mouse_pos true (s, h, r) = Some (s', h', r')
           /\ combo s' = (combo s + 1)%Z
           /\ combo_timer s' = 1.2 - dt))
  /\ (forall s h r,
        reachable (s, h) ->
        unit_tape r ->
        exists s' h' r',
          update 0.1 target_point true (reset s, h, r) = Some (s', h', r')
          /\ combo s' = 1%Z
          /\ length (sparks s') = 12%nat)
  /\ (inject_Z (fst target_point) == fade_x init
      /\ inject_Z (snd target_point) == snd (head_center init) + 10).
Proof.
  split; [|split]; [| |split; vm_compute; reflexivity].
  - intros dt mouse_pos s h r s2 Hd Hv.
    destruct (update_press_perfect mouse_pos s2 h r Hd Hv)
      as (vs & r' & Hp & _).
    split.
    + unfold classified. fold s2. rewrite Hp. by split.
    + intros Hwf.
      destruct (precision_update_run dt mouse_pos true s h r Hwf)
        as (s3 & h3 & r3 & h4 & Hc & _ & _ & Hup & _).
      unfold classified in Hc. fold s2 in Hc. rewrite Hp in Hc.
      injection Hc as <- <- <-.
      eexists _, _, _. split; [exact Hup|].
      apply update_timers_running. simpl. lra.
  - intros s h r Hreach Hr.
    apply precision_reachable_inv in Hreach as (Htl & Hhc & Hfx & Hpw & _ & _).
    simpl in Htl, Hhc, Hfx, Hpw.
    set (s0 := reset s).
    set (s2 := update_clip target_point (update_time 0.1 s0)).
    assert (Hd : dist target_point s2 < 80).
    { unfold dist, vert_err. simpl. rewrite Hhc, Hfx. vm_compute. reflexivity. }
    assert (Hv : vert_err s2 <= perfection_window s2).
    { unfold vert_err. simpl. rewrite Hhc, Hpw. vm_compute. discriminate. }
    destruct (update_press_perfect target_point s2 h r Hd Hv)
      as (vs & r' & Hp & Hlen & _ & Hlife).
    specialize (Hlife Hr).
    remember (set_sparks (sparks s2 ++ seq (length h) 12)
                (set_perfect_text_timer 0.9
                   (set_combo_timer 1.2 (set_combo (combo s2 + 1)%Z s2))))
      as s3 eqn:Es3.
    assert (Hsp : sparks s3 = seq (length h) 12) by (by rewrite Es3).
    assert (Hcombo : combo s3 = 1%Z /\ combo_timer s3 = 1.2) by (by rewrite Es3).
    assert (Hwf3 : Heap.wf (h ++ vs) (sparks s3)).
    { rewrite Hsp, <- Hlen. apply (wf_spawned h vs [] (wf_nil h)). }
    destruct (precision_update_from_classified 0.1 target_point true s0 h r
                s3 (h ++ vs) r' Hp Hwf3) as (h4 & Hup & _ & Htick).
    eexists _, _, _. split; [exact Hup|].
    destruct Hcombo as [Hcb Hct].
    split.
    { destruct (update_timers_running 0.1
        (set_sparks (List.filter (Heap.alive Spark.life h4) (sparks s3)) s3))
        as [Hrun _]; [simpl; rewrite Hct; lra|].
      rewrite Hrun. exact Hcb. }
    destruct (update_timers_frame 0.1
      (set_sparks (List.filter (Heap.alive Spark.life h4) (sparks s3)) s3))
      as (-> & _).
    simpl. rewrite Hsp.
    rewrite filter_keep_all; [by rewrite length_seq|].
    intros k Hk. apply elem_of_seq in Hk.
    assert (Hkv : (k - length h < length vs)%nat) by lia.
    destruct (lookup_lt_is_Some_2 vs _ Hkv) as [v Hv'].
    assert (Hh3 : (h ++ vs) !! k = Some v).
    { rewrite lookup_app_r; [exact Hv' | lia]. }
    unfold Heap.alive.
    rewrite (Htick k v); [| rewrite Hsp; apply elem_of_seq; lia | exact Hh3].
    apply Qltb_lt. simpl.
    rewrite Forall_forall in Hlife.
    destruct (Hlife v) as [Hlo _]; [by eapply list_elem_of_lookup_2|]. lra.
Qed.

(** C9. When [combo_timer <= 0] at the timer check, [combo] is 0 afterwards:
    for the timers block alone, and for a whole call whose state after the
    press block has [combo_timer <= 0] (which excludes a precise hit in that
    call).  Hence a call that starts with [combo_timer <= 0] and sees no
    precise hit returns with [combo == 0]. *)
Theorem expired_combo_timer_resets_combo :
  (forall dt s, combo_timer s <= 0 -> combo (update_timers dt s) = 0%Z)
  /\ (forall dt mouse_pos mouse_down s h r,
        Heap.wf h (sparks s) ->
        combo_timer (fst (fst (classified dt mouse_pos mouse_down (s, h, r))))
          <= 0 ->
        exists s' h' r',
          update dt mouse_pos mouse_down (s, h, r) = Some (s', h', r')
          /\ combo s' = 0%Z)
  /\ (forall dt mouse_pos mouse_down s h r,
        Heap.wf h (sparks s) ->
        combo_timer s <= 0 ->
        mouse_down && precise_hit dt mouse_pos s = false ->
        exists s' h' r',
          update dt mouse_pos mouse_down (s, h, r) = Some (s', h', r')
          /\ combo s' = 0%Z).
Proof.
  split; [|split].
  - intros dt s H. by apply update_timers_expired.
  - intros dt mouse_pos mouse_down s h r Hwf Hexp.
    destruct (precision_update_run dt mouse_pos mouse_down s h r Hwf)
      as (s3 & h3 & r3 & h4 & Hc & _ & _ & Hup & _).
    rewrite Hc in Hexp. simpl in Hexp.
    eexists _, _, _. split; [exact Hup|].
    by apply update_timers_expired.
  - intros dt mouse_pos mouse_down s h r Hwf Hexp Hno.
    destruct (precision_update_run dt mouse_pos mouse_down s h r Hwf)
      as (s3 & h3 & r3 & h4 & Hc & _ & _ & Hup & _).
    pose proof (classified_keeps_combo_timer dt mouse_pos mouse_down s h r Hno)
      as Hct.
    rewrite Hc in Hct. simpl in Hct.
    eexists _, _, _. split; [exact Hup|].
    apply update_timers_expired. simpl. by rewrite Hct.
Qed.

End PrecisionCombo.

Lemma unit_tape_zero : unit_tape zero_tape.
Proof. intros i. split; vm_compute; [discriminate | reflexivity]. Qed.

Lemma precise_press_increments_combo_witness :
  (let s := PrecisionCutMode.reset PrecisionCutMode.init in
   let s2 := PrecisionCutMode.update_clip target_point
               (PrecisionCutMode.update_time 0.1 s) in
   PrecisionCutMode.dist target_point s2 < 80
   /\ PrecisionCutMode.vert_err s2 <= PrecisionCutMode.perfection_window s2
   /\ Heap.wf (T := Spark.t) [] (PrecisionCutMode.sparks s)
   /\ exists s' h' r',
        PrecisionCutMode.update (M := sample_math) 0.1 target_point true
          (s, [], zero_tape) = Some (s', h', r')
        /\ PrecisionCutMode.combo s' = (PrecisionCutMode.combo s + 1)%Z
        /\ PrecisionCutMode.combo_timer s' = 1.2 - 0.1)
  /\ (PrecisionCutMode.reachable (M := sample_math)
        (PrecisionCutMode.reset PrecisionCutMode.init, [])
      /\ unit_tape zero_tape
      /\ exists s' h' r',
           PrecisionCutMode.update (M := sample_math) 0.1 target_point true
             (PrecisionCutMode.reset
                (PrecisionCutMode.reset PrecisionCutMode.init), [], zero_tape)
           = Some (s', h', r')
           /\ PrecisionCutMode.combo s' = 1%Z
           /\ length (PrecisionCutMode.sparks s') = 12%nat).
Proof.
  pose proof (@precise_press_increments_combo sample_math) as [Hgen [Hscn _]].
  split.
  - assert (Hd : PrecisionCutMode.dist target_point
                   (PrecisionCutMode.update_clip target_point
                      (PrecisionCutMode.update_time 0.1
                         (PrecisionCutMode.reset PrecisionCutMode.init))) < 80)
      by (vm_compute; reflexivity).
    assert (Hv : PrecisionCutMode.vert_err
                   (PrecisionCutMode.update_clip target_point
                      (PrecisionCutMode.update_time 0.1
                         (PrecisionCutMode.reset PrecisionCutMode.init)))
                 <= PrecisionCutMode.perfection_window
                      (PrecisionCutMode.update_clip target_point
                         (PrecisionCutMode.update_time 0.1
                            (PrecisionCutMode.reset PrecisionCutMode.init))))
      by (vm_compute; discriminate).
    split; [exact Hd|]. split; [exact Hv|]. split; [apply wf_nil|].
    exact (proj2 (Hgen 0.1 target_point
                    (PrecisionCutMode.reset PrecisionCutMode.init) []
                    zero_tape Hd Hv) (wf_nil [])).
  - split; [apply PrecisionCutMode.reach_reset|].
    split; [apply unit_tape_zero|].
    exact (Hscn (PrecisionCutMode.reset PrecisionCutMode.init) [] zero_tape
             PrecisionCutMode.reach_reset unit_tape_zero).
Defined.

Lemma expired_combo_timer_resets_combo_witness :
  let s := PrecisionCutMode.reset PrecisionCutMode.init in
  PrecisionCutMode.combo_timer s <= 0
  /\ true && PrecisionCutMode.precise_hit 0.1 far_corner s = false
  /\ PrecisionCutMode.combo_timer
       (fst (fst (PrecisionCutMode.classified (M := sample_math)
                    0.1 far_corner true (s, [], zero_tape)))) <= 0
  /\ PrecisionCutMode.combo
       (PrecisionCutMode.update_timers 0.1 s) = 0%Z
  /\ (exists s' h' r',
        PrecisionCutMode.update (M := sample_math) 0.1 far_corner true
          (s, [], zero_tape) = Some (s', h', r')
        /\ PrecisionCutMode.combo s' = 0%Z)
  /\ exists s' h' r',
       PrecisionCutMode.update (M := sample_math) 0.1 far_corner true
         (s, [], zero_tape) = Some (s', h', r')
       /\ PrecisionCutMode.combo s' = 0%Z.
Proof.
  pose proof (@expired_combo_timer_resets_combo sample_math)
    as (Hphase & Hmid & Hcall).
  assert (Hexp3 : PrecisionCutMode.combo_timer
                    (fst (fst (PrecisionCutMode.classified (M := sample_math)
                                 0.1 far_corner true
                                 (PrecisionCutMode.reset PrecisionCutMode.init,
                                  [], zero_tape)))) <= 0)
    by (vm_compute; discriminate).
  assert (Hexp : PrecisionCutMode.combo_timer
                   (PrecisionCutMode.reset PrecisionCutMode.init) <= 0)
    by (vm_compute; discriminate).
  assert (Hno : true && PrecisionCutMode.precise_hit 0.1 far_corner
                          (PrecisionCutMode.reset PrecisionCutMode.init) = false)
    by (vm_compute; reflexivity).
  split; [exact Hexp|]. split; [exact Hno|]. split; [exact Hexp3|].
  split; [exact (Hphase 0.1 _ Hexp)|].
  split; [exact (Hmid 0.1 far_corner true
                   (PrecisionCutMode.reset PrecisionCutMode.init) [] zero_tape
                   (wf_nil []) Hexp3)|].
  exact (Hcall 0.1 far_corner true
           (PrecisionCutMode.reset PrecisionCutMode.init) [] zero_tape
           (wf_nil []) Hexp Hno).
Defined.

(** ** [BrawlMode]: the phases of [update] *)

Section BrawlFacts.
Import BrawlMode.
Context {M : Math}.

Lemma new_particle_spec (a lo hi llo lhi px py : Q) (r : Rng) :
  llo <= lhi ->
  let p := fst (new_particle a lo hi llo lhi px py r) in
  Particle.p0 p = px /\ Particle.p1 p = py
  /\ (unit_tape r ->
      (llo <= Particle.p4 p /\ Particle.p4 p <= lhi)
      /\ unit_tape (snd (new_particle a lo hi llo lhi px py r))).
Proof.
  intros Hl. unfold new_particle, uniform, random. simpl.
  split; [reflexivity|]. split; [reflexivity|]. intros H. split.
  - destruct (H 2%nat) as [H0 H1]. split; nra.
  - intros i. apply H.
Qed.

(** What a burst of particles adds: fresh references to new particles placed
    at [(px, py)], with lifetimes in the range of the burst. *)
Lemma particle_burst (n : nat) (a lo hi llo lhi px py : Q)
  (refs : list nat) (h : list Particle.t) (r : Rng) :
  llo <= lhi ->
  exists vs r',
    Heap.spawn n (new_particle a lo hi llo lhi px py) refs h r
      = (refs ++ seq (length h) n, h ++ vs, r')
    /\ length vs = n
    /\ Forall (fun p => Particle.p0 p = px /\ Particle.p1 p = py) vs
    /\ (unit_tape r ->
        Forall (fun p => llo <= Particle.p4 p /\ Particle.p4 p <= lhi) vs).
Proof.
  intros Hl.
  destruct (spawn_spec
    (fun p => (Particle.p0 p = px /\ Particle.p1 p = py)
              /\ (unit_tape r -> llo <= Particle.p4 p /\ Particle.p4 p <= lhi))
    (fun r1 => unit_tape r -> unit_tape r1)
    (new_particle a lo hi llo lhi px py))
    with (n := n) (refs := refs) (h := h) (r := r)
    as (vs & r' & Hrun & Hlen & HP & _).
  - intros r1 Hr1.
    destruct (new_particle_spec a lo hi llo lhi px py r1 Hl) as (Hx & Hy & Hlife).
    split; [split; [done|] |]; intros Hr; by apply Hlife, Hr1.
  - done.
  - exists vs, r'. repeat split; try done.
    + eapply Forall_impl; [exact HP|]. by intros v [Hv _].
    + intros Hr. eapply Forall_impl; [exact HP|]. intros v [_ Hv]. by apply Hv.
Qed.

(** Moving and clamping touch [timer] and the two x coordinates only. *)
Lemma moved_frame dt inputs s :
  let s' := moved dt inputs s in
  timer s' = py_max 0 (timer s - dt)
  /\ left_hp s' = left_hp s /\ right_hp s' = right_hp s
  /\ super_full s' = super_full s /\ super_active s' = super_active s
  /\ super_timer s' = super_timer s /\ particles s' = particles s
  /\ snd (left_pos s') = snd (left_pos s)
  /\ snd (right_pos s') = snd (right_pos s)
  /\ fst (right_pos s')
     = py_max (WIDTH / 2 + 60) (py_min (WIDTH - 120) (fst (right_pos s))).
Proof.
  unfold moved, update_clamp, update_move, update_timer.
  destruct (get inputs "left_move"), (get inputs "right_move");
    simpl; by repeat split.
Qed.

(** After the clamp both fighters stand in their half of the arena. *)
Lemma moved_clamped dt inputs s :
  let s' := moved dt inputs s in
  (120 <= fst (left_pos s') /\ fst (left_pos s') <= WIDTH / 2 - 60)
  /\ (WIDTH / 2 + 60 <= fst (right_pos s')
      /\ fst (right_pos s') <= WIDTH - 120).
Proof.
  unfold moved, update_clamp, set_right_x, set_left_x.
  cbn [left_pos right_pos fst snd].
  split; apply clamp_range; vm_compute; discriminate.
Qed.

(** The trigger fires. *)
Lemma update_trigger_fires inputs s h r :
  triggers inputs s = true ->
  exists vs r',
    update_trigger inputs (s, h, r)
      = (set_particles (particles s ++ seq (length h) 30)
           (set_super_full false
              (set_super_timer 0.7 (set_super_active true s))),
         h ++ vs, r')
    /\ length vs = 30%nat
    /\ Forall (fun p => Particle.p0 p = fst (left_pos s) + 60
                        /\ Particle.p1 p = snd (left_pos s) - 60) vs
    /\ (unit_tape r ->
        Forall (fun p => 0.3 <= Particle.p4 p /\ Particle.p4 p <= 0.9) vs).
Proof.
  intros Ht. unfold update_trigger. rewrite Ht.
  set (s3 := set_super_full false _).
  destruct (particle_burst 30 0.3 400 700 0.3 0.9
              (fst (left_pos s3) + 60) (snd (left_pos s3) - 60)
              (particles s3) h r) as (vs & r' & Hrun & Hrest); [lra|].
  exists vs, r'. rewrite Hrun. split; [reflexivity | exact Hrest].
Qed.

(** The trigger does not fire: the block is skipped. *)
Lemma update_trigger_idle inputs s h r :
  triggers inputs s = false ->
  update_trigger inputs (s, h, r) = (s, h, r).
Proof. intros Ht. unfold update_trigger. by rewrite Ht. Qed.

(** The wind-up of an active super expires in this call. *)
Lemma update_super_resolves dt s h r :
  super_active s = true ->
  super_timer s - dt <= 0 ->
  exists vs r',
    update_super dt (s, h, r)
      = (set_particles (particles s ++ seq (length h) 40)
           (set_right_hp (py_maxZ 0 (right_hp s - 28))
              (set_super_active false
                 (set_super_timer (super_timer s - dt) s))),
         h ++ vs, r')
    /\ length vs = 40%nat
    /\ Forall (fun p => Particle.p0 p = fst (right_pos s) - 40
                        /\ Particle.p1 p = snd (right_pos s) - 40) vs
    /\ (unit_tape r ->
        Forall (fun p => 0.4 <= Particle.p4 p /\ Particle.p4 p <= 1.1) vs).
Proof.
  intros Ha Ht. unfold update_super. rewrite Ha. cbv zeta.
  apply Qle_bool_iff in Ht.
  change (super_timer (set_super_timer (super_timer s - dt) s))
    with (super_timer s - dt).
  rewrite Ht.
  set (s3 := set_right_hp _ _).
  destruct (particle_burst 40 0.7 100 320 0.4 1.1
              (fst (right_pos s3) - 40) (snd (right_pos s3) - 40)
              (particles s3) h r) as (vs & r' & Hrun & Hrest); [lra|].
  exists vs, r'. rewrite Hrun. split; [reflexivity | exact Hrest].
Qed.

(** The wind-up of an active super goes on. *)
Lemma update_super_winds dt s h r :
  super_active s = true ->
  0 < super_timer s - dt ->
  update_super dt (s, h, r) = (set_super_timer (super_timer s - dt) s, h, r).
Proof.
  intros Ha Ht. unfold update_super. rewrite Ha. cbv zeta.
  apply Qle_bool_gt in Ht.
  change (super_timer (set_super_timer (super_timer s - dt) s))
    with (super_timer s - dt).
  by rewrite Ht.
Qed.

Lemma update_super_idle dt s h r :
  super_active s = false -> update_super dt (s, h, r) = (s, h, r).
Proof. intros Ha. unfold update_super. by rewrite Ha. Qed.

(** What the trigger block can change. *)
Lemma update_trigger_frame inputs s h r :
  exists s' vs r',
    update_trigger inputs (s, h, r) = (s', h ++ vs, r')
    /\ particles s' = particles s ++ seq (length h) (length vs)
    /\ timer s' = timer s /\ left_hp s' = left_hp s
    /\ right_hp s' = right_hp s
    /\ left_pos s' = left_pos s /\ right_pos s' = right_pos s
    /\ (super_full s' = false
        \/ (super_full s' = super_full s /\ super_active s' = super_active s)).
Proof.
  destruct (triggers inputs s) eqn:Ht.
  - destruct (update_trigger_fires inputs s h r Ht) as (vs & r' & -> & Hlen & _).
    eexists _, vs, r'. rewrite Hlen. repeat (split; [reflexivity|]). by left.
  - rewrite (update_trigger_idle inputs s h r Ht).
    exists s, [], r. rewrite !app_nil_r. repeat (split; [reflexivity|]).
    by right.
Qed.

(** What the super block can change. *)
Lemma update_super_frame dt s h r :
  exists s' vs r',
    update_super dt (s, h, r) = (s', h ++ vs, r')
    /\ particles s' = particles s ++ seq (length h) (length vs)
    /\ timer s' = timer s /\ left_hp s' = left_hp s
    /\ (right_hp s' = right_hp s
        \/ right_hp s' = py_maxZ 0 (right_hp s - 28))
    /\ left_pos s' = left_pos s /\ right_pos s' = right_pos s
    /\ super_full s' = super_full s
    /\ (super_active s' = super_active s \/ super_active s' = false).
Proof.
  destruct (super_active s) eqn:Ha.
  - destruct (Qlt_le_dec 0 (super_timer s - dt)) as [Ht|Ht].
    + rewrite (update_super_winds dt s h r Ha Ht).
      eexists _, [], r. rewrite !app_nil_r. simpl.
      repeat (split; [reflexivity|]). split; [by left|].
      repeat (split; [reflexivity|]). by left.
    + destruct (update_super_resolves dt s h r Ha Ht)
        as (vs & r' & -> & Hlen & _).
      eexists _, vs, r'. rewrite Hlen. simpl.
      repeat (split; [reflexivity|]). split; [by right|].
      repeat (split; [reflexivity|]). by right.
  - rewrite (update_super_idle dt s h r Ha).
    exists s, [], r. rewrite !app_nil_r, Ha.
    repeat (split; [reflexivity|]). split; [by left|].
    repeat (split; [reflexivity|]). by left.
Qed.

(** The particle loop never raises on a well-formed list; it ticks every
    listed particle in place and keeps exactly the references to live ones. *)
Lemma update_particles_spec dt s h :
  Heap.wf h (particles s) ->
  exists h',
    update_particles dt (s, h)
      = Some (set_particles
                (List.filter (Heap.alive Particle.p4 h') (particles s)) s, h')
    /\ length h' = length h
    /\ (forall l v, l ∈ particles s -> h !! l = Some v ->
                    h' !! l = Some (tick dt v))
    /\ (forall l, l ∉ particles s -> h' !! l = h !! l).
Proof.
  intros Hwf.
  destruct (prune_loop_filter Particle.p4 tick Particle.eqb Particle_eqb_life
              dt h (particles s) Hwf) as (h' & Hrun & Hrest).
  exists h'. unfold update_particles. rewrite Hrun. by split.
Qed.

(** What the AI block can change: the x coordinate of the right fighter,
    and only while a super is active. *)
Lemma update_ai_frame dt s r :
  let s' := fst (update_ai dt (s, r)) in
  timer s' = timer s /\ left_hp s' = left_hp s /\ right_hp s' = right_hp s
  /\ super_full s' = super_full s /\ super_active s' = super_active s
  /\ super_timer s' = super_timer s /\ particles s' = particles s
  /\ left_pos s' = left_pos s
  /\ snd (right_pos s') = snd (right_pos s)
  /\ (fst (right_pos s') = fst (right_pos s)
      \/ (super_active s = true
          /\ fst (right_pos s') = fst (right_pos s) + 100 * dt)).
Proof.
  unfold update_ai. destruct (super_active s) eqn:Ha.
  - unfold random. destruct (Qltb (r 0%nat) 0.015); simpl;
      repeat (split; [done|]); [by right | by left].
  - simpl. repeat (split; [done|]). by left.
Qed.

End BrawlFacts.

(** ** [BrawlMode]: [update] as a whole *)

Section BrawlRun.
Import BrawlMode.
Context {M : Math}.

(** Everything up to the particle loop, in one statement. *)
Lemma resolved_frame dt inputs s h r :
  exists s5 vs r5,
    resolved dt inputs (s, h, r) = (s5, h ++ vs, r5)
    /\ particles s5 = particles s ++ seq (length h) (length vs)
    /\ timer s5 = py_max 0 (timer s - dt)
    /\ left_hp s5 = left_hp s
    /\ (right_hp s5 = right_hp s
        \/ right_hp s5 = py_maxZ 0 (right_hp s - 28))
    /\ left_pos s5 = left_pos (moved dt inputs s)
    /\ right_pos s5 = right_pos (moved dt inputs s)
    /\ (super_full s5 = false
        \/ (super_full s5 = super_full s
            /\ (super_active s5 = super_active s \/ super_active s5 = false))).
Proof.
  unfold resolved.
  destruct (moved_frame dt inputs s)
    as (Ht & Hl & Hr & Hf & Ha & _ & Hp & _).
  destruct (update_trigger_frame inputs (moved dt inputs s) h r)
    as (s4 & vs1 & r4 & -> & Hp4 & Ht4 & Hl4 & Hr4 & Hlp4 & Hrp4 & Hflag4).
  destruct (update_super_frame dt s4 (h ++ vs1) r4)
    as (s5 & vs2 & r5 & -> & Hp5 & Ht5 & Hl5 & Hr5 & Hlp5 & Hrp5 & Hf5 & Ha5).
  exists s5, (vs1 ++ vs2), r5.
  split; [by rewrite app_assoc|].
  split.
  { rewrite Hp5, Hp4, Hp, !length_app, seq_app, app_assoc. reflexivity. }
  split; [congruence|]. split; [congruence|].
  split; [rewrite Hr4, Hr in Hr5; exact Hr5|].
  split; [congruence|]. split; [congruence|].
  rewrite Hf5. destruct Hflag4 as [H4|[H4 H4']]; [by left|right].
  split; [congruence|]. rewrite H4', Ha in Ha5. exact Ha5.
Qed.

Lemma resolved_wf dt inputs s h r s5 h5 r5 :
  resolved dt inputs (s, h, r) = (s5, h5, r5) ->
  Heap.wf h (particles s) -> Heap.wf h5 (particles s5).
Proof.
  intros Hrun Hwf.
  destruct (resolved_frame dt inputs s h r) as (s' & vs & r' & Hrun' & Hp & _).
  rewrite Hrun in Hrun'. apply pair_equal_spec in Hrun' as [Hrun' _].
  apply pair_equal_spec in Hrun' as [-> ->].
  rewrite Hp. by apply wf_spawned.
Qed.

(** [update] from a known result of the super block: the particle loop
    returns, then the AI block runs. *)
Lemma brawl_update_from_resolved dt inputs s h r s5 h5 r5 :
  resolved dt inputs (s, h, r) = (s5, h5, r5) ->
  Heap.wf h5 (particles s5) ->
  exists h6,
    let s6 :=
      set_particles (List.filter (Heap.alive Particle.p4 h6) (particles s5)) s5 in
    update dt inputs (s, h, r)
      = Some (fst (update_ai dt (s6, r5)), h6, snd (update_ai dt (s6, r5)))
    /\ length h6 = length h5
    /\ (forall l v, l ∈ particles s5 -> h5 !! l = Some v ->
                    h6 !! l = Some (tick dt v)).
Proof.
  intros Hc Hwf5. unfold update. rewrite Hc.
  destruct (update_particles_spec dt s5 h5 Hwf5)
    as (h6 & Hrun & Hlen & Htick & _).
  exists h6. rewrite Hrun.
  destruct (update_ai dt _) as [s7 r7]. by repeat split.
Qed.

(** [update] returns on every well-formed configuration. *)
Lemma brawl_update_total dt inputs s h r :
  Heap.wf h (particles s) ->
  exists s' h' r', update dt inputs (s, h, r) = Some (s', h', r').
Proof.
  intros Hwf.
  destruct (resolved dt inputs (s, h, r)) as [[s5 h5] r5] eqn:Hc.
  destruct (brawl_update_from_resolved dt inputs s h r s5 h5 r5 Hc
              (resolved_wf _ _ _ _ _ _ _ _ Hc Hwf)) as (h6 & Hup & _).
  eexists _, _, _. exact Hup.
Qed.

(** How every field of the mode can move in one call. *)
Lemma brawl_update_preserves dt inputs s h r s' h' r' :
  Heap.wf h (particles s) ->
  update dt inputs (s, h, r) = Some (s', h', r') ->
  timer s' = py_max 0 (timer s - dt)
  /\ left_hp s' = left_hp s
  /\ (right_hp s' = right_hp s
      \/ right_hp s' = py_maxZ 0 (right_hp s - 28))
  /\ (super_full s' = false
      \/ (super_full s' = super_full s
          /\ (super_active s' = super_active s \/ super_active s' = false)))
  /\ left_pos s' = left_pos (moved dt inputs s)
  /\ (fst (right_pos s') = fst (right_pos (moved dt inputs s))
      \/ fst (right_pos s') = fst (right_pos (moved dt inputs s)) + 100 * dt)
  /\ Heap.wf h' (particles s').
Proof.
  intros Hwf Hrun.
  destruct (resolved_frame dt inputs s h r)
    as (s5 & vs & r5 & Hc & Hp5 & Ht5 & Hl5 & Hr5 & Hlp5 & Hrp5 & Hflag5).
  pose proof (resolved_wf _ _ _ _ _ _ _ _ Hc Hwf) as Hwf5.
  destruct (brawl_update_from_resolved dt inputs s h r s5 _ r5 Hc Hwf5)
    as (h6 & Hup & Hlen & _).
  cbv zeta in Hup. rewrite Hup in Hrun.
  apply Some_inj, pair_equal_spec in Hrun as [Hrun _].
  apply pair_equal_spec in Hrun as [<- <-].
  match goal with
  | |- context [update_ai dt (?s6, r5)] =>
      destruct (update_ai_frame dt s6 r5)
        as (Ht & Hl & Hr & Hf & Ha & _ & Hp & Hlp & _ & Hrp)
  end.
  cbv zeta in Ht, Hl, Hr, Hf, Ha, Hp, Hlp, Hrp.
  rewrite Ht, Hl, Hr, Hf, Ha, Hp, Hlp.
  split; [exact Ht5|]. split; [exact Hl5|]. split; [exact Hr5|].
  split; [exact Hflag5|]. split; [exact Hlp5|].
  split.
  { rewrite <- Hrp5. destruct Hrp as [Hrp|[_ Hrp]]; [by left | by right]. }
  by apply (wf_filter _ (h ++ vs)).
Qed.

Lemma brawl_reachable_inv c :
  reachable c ->
  let s := fst c in
  (0 <= timer s /\ timer s <= 99)
  /\ (0 <= left_hp s <= 100)%Z
  /\ (0 <= right_hp s <= 100)%Z
  /\ super_active s && super_full s = false
  /\ Heap.wf (snd c) (particles s).
Proof.
  induction 1 as [|s h _ IH|s h r dt inputs s' h' r' _ IH Hdt Hrun];
    simpl in *.
  - repeat (split; [done || lia|]). apply wf_nil.
  - repeat (split; [done || lia|]). apply wf_nil.
  - destruct IH as (Htimer & Hl & Hr & Hflag & Hwf).
    destruct (brawl_update_preserves _ _ _ _ _ _ _ _ Hwf Hrun)
      as (Ht' & Hl' & Hr' & Hflag' & _ & _ & Hwf').
    split.
    { rewrite Ht'. destruct (py_max_cases 0 (timer s - dt)) as [[H E]|[H E]];
        rewrite E; split; lra. }
    split; [by rewrite Hl'|].
    split.
    { destruct Hr' as [->| ->]; [done|].
      rewrite py_maxZ_spec. lia. }
    split; [|done].
    destruct Hflag' as [->|[-> [->| ->]]];
      [apply andb_false_r | exact Hflag | reflexivity].
Qed.

End BrawlRun.

(** ** Timers *)

Section Timers.
Context {M : Math}.

(** C6. For every [dt] (so for every [dt >= 0]) and whatever the other inputs,
    [update] returns with the mode timer equal to [max(0, timer_before - dt)],
    which is never negative: [time_left] in [PrecisionCutMode], [timer] in
    [BrawlMode].  The only assumption, a well-formed spark or particle list,
    holds of every reachable mode object. *)
Theorem timers_floor_at_zero :
  (forall dt mouse_pos mouse_down s h r,
     Heap.wf h (PrecisionCutMode.sparks s) ->
     exists s' h' r',
       PrecisionCutMode.update dt mouse_pos mouse_down (s, h, r)
         = Some (s', h', r')
       /\ PrecisionCutMode.time_left s'
          == Qmax 0 (PrecisionCutMode.time_left s - dt)
       /\ 0 <= PrecisionCutMode.time_left s')
  /\ (forall dt inputs s h r,
        Heap.wf h (BrawlMode.particles s) ->
        exists s' h' r',
          BrawlMode.update dt inputs (s, h, r) = Some (s', h', r')
          /\ BrawlMode.timer s' == Qmax 0 (BrawlMode.timer s - dt)
          /\ 0 <= BrawlMode.timer s')
  /\ (forall s h,
        PrecisionCutMode.reachable (s, h) ->
        Heap.wf h (PrecisionCutMode.sparks s))
  /\ (forall s h,
        BrawlMode.reachable (s, h) -> Heap.wf h (BrawlMode.particles s)).
Proof.
  split; [|split; [|split]].
  - intros dt mouse_pos mouse_down s h r Hwf.
    destruct (precision_update_run dt mouse_pos mouse_down s h r Hwf)
      as (s3 & h3 & r3 & h4 & _ & _ & _ & Hup & _).
    eexists _, _, _. split; [exact Hup|].
    destruct (precision_update_preserves _ _ _ _ _ _ _ _ _ Hwf Hup)
      as (_ & _ & _ & _ & -> & _).
    split.
    + rewrite py_max_spec. apply Q.max_compat; reflexivity.
    + pose proof (py_max_floor 0.0 (PrecisionCutMode.time_left s - dt)). lra.
  - intros dt inputs s h r Hwf.
    destruct (brawl_update_total dt inputs s h r Hwf) as (s' & h' & r' & Hup).
    exists s', h', r'. split; [exact Hup|].
    destruct (brawl_update_preserves _ _ _ _ _ _ _ _ Hwf Hup) as (-> & _).
    split; [apply py_max_spec | apply py_max_floor].
  - intros s h Hreach.
    by destruct (precision_reachable_inv _ Hreach) as (_ & _ & _ & _ & _ & Hwf).
  - intros s h Hreach.
    by destruct (brawl_reachable_inv _ Hreach) as (_ & _ & _ & _ & Hwf).
Qed.

End Timers.

Lemma timers_floor_at_zero_witness :
  Heap.wf (T := Spark.t) []
    (PrecisionCutMode.sparks (PrecisionCutMode.reset PrecisionCutMode.init))
  /\ Heap.wf (T := Particle.t) []
       (BrawlMode.particles (BrawlMode.reset BrawlMode.init))
  /\ (exists s' h' r',
        PrecisionCutMode.update (M := sample_math) 20 far_corner false
          precision_start = Some (s', h', r')
        /\ PrecisionCutMode.time_left s' == Qmax 0 (12 - 20)
        /\ 0 <= PrecisionCutMode.time_left s')
  /\ (exists s' h' r',
        BrawlMode.update (M := sample_math) 0.5 super_input brawl_start
          = Some (s', h', r')
        /\ BrawlMode.timer s' == Qmax 0 (99 - 0.5)
        /\ 0 <= BrawlMode.timer s').
Proof.
  pose proof (@timers_floor_at_zero sample_math) as (Hp & Hb & Hrp & Hrb).
  split; [exact (Hrp _ _ PrecisionCutMode.reach_reset)|].
  split; [exact (Hrb _ _ BrawlMode.reach_reset)|]. split.
  - exact (Hp 20 far_corner false
             (PrecisionCutMode.reset PrecisionCutMode.init) [] zero_tape
             (wf_nil [])).
  - exact (Hb 0.5 super_input (BrawlMode.reset BrawlMode.init) [] zero_tape
             (wf_nil [])).
Defined.

(** ** Pruning of sparks and particles *)

(** The list after one [update], for any kind of object: [h ++ vs] is the
    heap once this call has created its objects [vs], [h4] the heap after
    the loop, which ticked every listed object. *)
Section PruneFacts.
Context {T : Type}.
Variable life : T -> Q.
Variable tick : Q -> T -> T.
Hypothesis tick_life : forall dt v, life (tick dt v) = life v - dt.

Lemma pruned_listing dt (h vs h4 : list T) (refs : list nat) :
  Heap.wf h refs ->
  (forall l v, l ∈ refs ++ seq (length h) (length vs) ->
     (h ++ vs) !! l = Some v -> h4 !! l = Some (tick dt v)) ->
  let refs' :=
    List.filter (Heap.alive life h4) (refs ++ seq (length h) (length vs)) in
  (forall l v, l ∈ refs -> h !! l = Some v ->
     exists v', h4 !! l = Some v' /\ life v' = life v - dt
                /\ (l ∈ refs' <-> 0 < life v - dt))
  /\ (forall i v, vs !! i = Some v ->
        exists v', h4 !! (length h + i)%nat = Some v'
                   /\ life v' = life v - dt
                   /\ ((length h + i)%nat ∈ refs' <-> 0 < life v - dt))
  /\ (forall l, l ∈ refs' -> exists v, h4 !! l = Some v /\ 0 < life v)
  /\ NoDup refs'.
Proof.
  intros Hwf Htick refs'.
  assert (Hkey : forall l v,
            l ∈ refs ++ seq (length h) (length vs) ->
            (h ++ vs) !! l = Some v ->
            exists v', h4 !! l = Some v' /\ life v' = life v - dt
                       /\ (l ∈ refs' <-> 0 < life v - dt)).
  { intros l v Hl Hv. exists (tick dt v).
    pose proof (Htick l v Hl Hv) as H4.
    split; [exact H4|]. split; [apply tick_life|].
    unfold refs'. rewrite list_elem_of_In, List.filter_In.
    unfold Heap.alive. rewrite H4, tick_life, Qltb_lt.
    rewrite <- list_elem_of_In. tauto. }
  split; [|split; [|split]].
  - intros l v Hl Hv. apply Hkey.
    + apply elem_of_app. by left.
    + by apply lookup_app_l_Some.
  - intros i v Hv. apply Hkey.
    + apply elem_of_app. right. apply elem_of_seq.
      apply lookup_lt_Some in Hv. lia.
    + rewrite lookup_app_r by lia.
      by replace (length h + i - length h)%nat with i by lia.
  - intros l Hl. unfold refs' in Hl.
    apply list_elem_of_In, List.filter_In in Hl as [_ Hl].
    unfold Heap.alive in Hl. destruct (h4 !! l) as [v|]; [|discriminate].
    exists v. split; [reflexivity | by apply Qltb_lt].
  - unfold refs'. apply NoDup_ListNoDup, List.NoDup_filter, NoDup_ListNoDup.
    by destruct (wf_spawned h vs refs Hwf) as [Hnd _].
Qed.

End PruneFacts.

Section Pruning.
Context {M : Math}.

(** One [PrecisionCutMode.update], seen from the spark list. *)
Lemma precision_update_prunes dt mouse_pos mouse_down s h r :
  Heap.wf h (PrecisionCutMode.sparks s) ->
  exists s' h' r' vs,
    PrecisionCutMode.update dt mouse_pos mouse_down (s, h, r)
      = Some (s', h', r')
    /\ snd (fst (PrecisionCutMode.classified dt mouse_pos mouse_down
                   (s, h, r))) = h ++ vs
    /\ length h' = length (h ++ vs)
    /\ PrecisionCutMode.sparks s'
       = List.filter (Heap.alive Spark.life h')
           (PrecisionCutMode.sparks s ++ seq (length h) (length vs))
    /\ (forall l v, l ∈ PrecisionCutMode.sparks s -> h !! l = Some v ->
          exists v', h' !! l = Some v' /\ Spark.life v' = Spark.life v - dt
                     /\ (l ∈ PrecisionCutMode.sparks s'
                         <-> 0 < Spark.life v - dt))
    /\ (forall i v, vs !! i = Some v ->
          exists v', h' !! (length h + i)%nat = Some v'
                     /\ Spark.life v' = Spark.life v - dt
                     /\ ((length h + i)%nat ∈ PrecisionCutMode.sparks s'
                         <-> 0 < Spark.life v - dt))
    /\ (forall l, l ∈ PrecisionCutMode.sparks s' ->
          exists v, h' !! l = Some v /\ 0 < Spark.life v)
    /\ NoDup (PrecisionCutMode.sparks s').
Proof.
  intros Hwf.
  destruct (precision_update_run dt mouse_pos mouse_down s h r Hwf)
    as (s3 & h3 & r3 & h4 & Hc & _ & _ & Hup & Hlen & Htick).
  destruct (update_press_frame mouse_pos mouse_down
              (PrecisionCutMode.update_clip mouse_pos
                 (PrecisionCutMode.update_time dt s)) h r)
    as (s3' & vs & r3' & Hp & Hsp & _).
  assert (Hc' := Hc). unfold PrecisionCutMode.classified in Hc'.
  rewrite Hc' in Hp. apply pair_equal_spec in Hp as [Hp _].
  apply pair_equal_spec in Hp as [<- ->].
  cbn [PrecisionCutMode.sparks PrecisionCutMode.update_clip
       PrecisionCutMode.update_time PrecisionCutMode.set_clip_y
       PrecisionCutMode.set_time_left] in Hsp.
  rewrite Hsp in Htick.
  eexists _, h4, r3, vs. split; [exact Hup|].
  split; [by rewrite Hc|]. split; [exact Hlen|].
  match goal with
  | |- context [PrecisionCutMode.update_timers dt ?X] =>
      destruct (update_timers_frame dt X) as (-> & _)
  end.
  cbn [PrecisionCutMode.sparks PrecisionCutMode.set_sparks]. rewrite Hsp.
  split; [reflexivity|].
  apply (pruned_listing Spark.life PrecisionCutMode.tick); [done|done|done].
Qed.

(** One [BrawlMode.update], seen from the particle list. *)
Lemma brawl_update_prunes dt inputs s h r :
  Heap.wf h (BrawlMode.particles s) ->
  exists s' h' r' vs,
    BrawlMode.update dt inputs (s, h, r) = Some (s', h', r')
    /\ snd (fst (BrawlMode.resolved dt inputs (s, h, r))) = h ++ vs
    /\ length h' = length (h ++ vs)
    /\ BrawlMode.particles s'
       = List.filter (Heap.alive Particle.p4 h')
           (BrawlMode.particles s ++ seq (length h) (length vs))
    /\ (forall l v, l ∈ BrawlMode.particles s -> h !! l = Some v ->
          exists v', h' !! l = Some v' /\ Particle.p4 v' = Particle.p4 v - dt
                     /\ (l ∈ BrawlMode.particles s'
                         <-> 0 < Particle.p4 v - dt))
    /\ (forall i v, vs !! i = Some v ->
          exists v', h' !! (length h + i)%nat = Some v'
                     /\ Particle.p4 v' = Particle.p4 v - dt
                     /\ ((length h + i)%nat ∈ BrawlMode.particles s'
                         <-> 0 < Particle.p4 v - dt))
    /\ (forall l, l ∈ BrawlMode.particles s' ->
          exists v, h' !! l = Some v /\ 0 < Particle.p4 v)
    /\ NoDup (BrawlMode.particles s').
Proof.
  intros Hwf.
  destruct (resolved_frame dt inputs s h r)
    as (s5 & vs & r5 & Hc & Hp5 & _).
  pose proof (resolved_wf _ _ _ _ _ _ _ _ Hc Hwf) as Hwf5.
  destruct (brawl_update_from_resolved dt inputs s h r s5 _ r5 Hc Hwf5)
    as (h6 & Hup & Hlen & Htick).
  cbv zeta in Hup. rewrite Hp5 in Htick.
  eexists _, h6, _, vs. split; [exact Hup|].
  split; [by rewrite Hc|]. split; [exact Hlen|].
  match goal with
  | |- context [BrawlMode.update_ai dt (?X, r5)] =>
      destruct (update_ai_frame dt X r5) as (_ & _ & _ & _ & _ & _ & Hp & _)
  end.
  cbv zeta in Hp. rewrite Hp.
  cbn [BrawlMode.particles BrawlMode.set_particles]. rewrite Hp5.
  split; [reflexivity|].
  apply (pruned_listing Particle.p4 BrawlMode.tick); [done|done|done].
Qed.

(** What it means for a list to be a duplicate-free list filtered in place. *)
Lemma filter_refs_facts (f : nat -> bool) (refs : list nat) :
  NoDup refs ->
  (forall l, l ∈ List.filter f refs -> l ∈ refs /\ f l = true)
  /\ (forall l, l ∈ refs -> f l = true -> l ∈ List.filter f refs)
  /\ NoDup (List.filter f refs)
  /\ (length (List.filter f refs)
      + length (List.filter (fun l => negb (f l)) refs) = length refs)%nat.
Proof.
  intros Hnd. split; [|split; [|split]].
  - intros l Hl. apply list_elem_of_In, List.filter_In in Hl as [Hl Hf].
    split; [by apply list_elem_of_In | done].
  - intros l Hl Hf. apply list_elem_of_In, List.filter_In.
    split; [by apply list_elem_of_In | done].
  - apply NoDup_ListNoDup, List.NoDup_filter. by apply NoDup_ListNoDup.
  - apply List.filter_length.
Qed.

(** C7. In both modes the pruning loop of [update] subtracts [dt] from the
    remaining life of every listed spark (in place) and removes exactly the
    sparks whose life is then [<= 0]: the new list is the old one filtered by
    [life > 0], so no expired spark stays, no live spark is removed, the
    order is kept, and each expired entry disappears once (the list has no
    duplicates before or after, and survivors plus expired entries add up to
    the old length).  The same holds of [update] as a whole: the list it
    leaves is the list it found, followed by the sparks [vs] this call
    created, filtered by [life > 0]; every spark listed before the call has
    lost exactly [dt] and is still listed exactly when its life stayed
    positive; so has every spark created by the call; every listed spark is
    alive and listed once.  The only assumption, a list of distinct
    references into the heap, holds of every reachable mode object. *)
Theorem expired_sparks_are_pruned :
  (forall dt s h,
     Heap.wf h (PrecisionCutMode.sparks s) ->
     exists h',
       let keep := Heap.alive Spark.life h' in
       let old := PrecisionCutMode.sparks s in
       PrecisionCutMode.update_sparks dt (s, h)
         = Some (PrecisionCutMode.set_sparks (List.filter keep old) s, h')
       /\ (forall l v, l ∈ old -> h !! l = Some v ->
             exists v', h' !! l = Some v'
                        /\ Spark.life v' = Spark.life v - dt)
       /\ (forall l, l ∈ List.filter keep old -> l ∈ old /\ keep l = true)
       /\ (forall l, l ∈ old -> keep l = true -> l ∈ List.filter keep old)
       /\ NoDup (List.filter keep old)
       /\ (length (List.filter keep old)
           + length (List.filter (fun l => negb (keep l)) old)
           = length old)%nat)
  /\ (forall dt s h,
        Heap.wf h (BrawlMode.particles s) ->
        exists h',
          let keep := Heap.alive Particle.p4 h' in
          let old := BrawlMode.particles s in
          BrawlMode.update_particles dt (s, h)
            = Some (BrawlMode.set_particles (List.filter keep old) s, h')
          /\ (forall l v, l ∈ old -> h !! l = Some v ->
                exists v', h' !! l = Some v'
                           /\ Particle.p4 v' = Particle.p4 v - dt)
          /\ (forall l, l ∈ List.filter keep old -> l ∈ old /\ keep l = true)
          /\ (forall l, l ∈ old -> keep l = true -> l ∈ List.filter keep old)
          /\ NoDup (List.filter keep old)
          /\ (length (List.filter keep old)
              + length (List.filter (fun l => negb (keep l)) old)
              = length old)%nat)
  /\ (forall dt mouse_pos mouse_down s h r,
        Heap.wf h (PrecisionCutMode.sparks s) ->
        exists s' h' r' vs,
          PrecisionCutMode.update dt mouse_pos mouse_down (s, h, r)
            = Some (s', h', r')
          /\ snd (fst (PrecisionCutMode.classified dt mouse_pos mouse_down
                         (s, h, r))) = h ++ vs
          /\ length h' = length (h ++ vs)
          /\ PrecisionCutMode.sparks s'
             = List.filter (Heap.alive Spark.life h')
                 (PrecisionCutMode.sparks s ++ seq (length h) (length vs))
          /\ (forall l v, l ∈ PrecisionCutMode.sparks s -> h !! l = Some v ->
                exists v', h' !! l = Some v'
                           /\ Spark.life v' = Spark.life v - dt
                           /\ (l ∈ PrecisionCutMode.sparks s'
                               <-> 0 < Spark.life v - dt))
          /\ (forall i v, vs !! i = Some v ->
                exists v', h' !! (length h + i)%nat = Some v'
                           /\ Spark.life v' = Spark.life v - dt
                           /\ ((length h + i)%nat ∈ PrecisionCutMode.sparks s'
                               <-> 0 < Spark.life v - dt))
          /\ (forall l, l ∈ PrecisionCutMode.sparks s' ->
                exists v, h' !! l = Some v /\ 0 < Spark.life v)
          /\ NoDup (PrecisionCutMode.sparks s'))
  /\ (forall dt inputs s h r,
        Heap.wf h (BrawlMode.particles s) ->
        exists s' h' r' vs,
          BrawlMode.update dt inputs (s, h, r) = Some (s', h', r')
          /\ snd (fst (BrawlMode.resolved dt inputs (s, h, r))) = h ++ vs
          /\ length h' = length (h ++ vs)
          /\ BrawlMode.particles s'
             = List.filter (Heap.alive Particle.p4 h')
                 (BrawlMode.particles s ++ seq (length h) (length vs))
          /\ (forall l v, l ∈ BrawlMode.particles s -> h !! l = Some v ->
                exists v', h' !! l = Some v'
                           /\ Particle.p4 v' = Particle.p4 v - dt
                           /\ (l ∈ BrawlMode.particles s'
                               <-> 0 < Particle.p4 v - dt))
          /\ (forall i v, vs !! i = Some v ->
                exists v', h' !! (length h + i)%nat = Some v'
                           /\ Particle.p4 v' = Particle.p4 v - dt
                           /\ ((length h + i)%nat ∈ BrawlMode.particles s'
                               <-> 0 < Particle.p4 v - dt))
          /\ (forall l, l ∈ BrawlMode.particles s' ->
                exists v, h' !! l = Some v /\ 0 < Particle.p4 v)
          /\ NoDup (BrawlMode.particles s'))
  /\ (forall s h,
        PrecisionCutMode.reachable (s, h) ->
        Heap.wf h (PrecisionCutMode.sparks s))
  /\ (forall s h,
        BrawlMode.reachable (s, h) -> Heap.wf h (BrawlMode.particles s)).
Proof.
  split; [|split; [|split; [|split; [|split]]]].
  - intros dt s h Hwf.
    destruct (update_sparks_spec dt s h Hwf) as (h' & Hrun & _ & Htick & _).
    exists h'. cbv zeta. split; [exact Hrun|]. split.
    + intros l v Hl Hv. exists (PrecisionCutMode.tick dt v).
      split; [by apply Htick | reflexivity].
    + apply filter_refs_facts, Hwf.
  - intros dt s h Hwf.
    destruct (update_particles_spec dt s h Hwf) as (h' & Hrun & _ & Htick & _).
    exists h'. cbv zeta. split; [exact Hrun|]. split.
    + intros l v Hl Hv. exists (BrawlMode.tick dt v).
      split; [by apply Htick | reflexivity].
    + apply filter_refs_facts, Hwf.
  - apply precision_update_prunes.
  - apply brawl_update_prunes.
  - intros s h Hreach.
    by destruct (precision_reachable_inv _ Hreach) as (_ & _ & _ & _ & _ & Hwf).
  - intros s h Hreach.
    by destruct (brawl_reachable_inv _ Hreach) as (_ & _ & _ & _ & Hwf).
Qed.

End Pruning.

Lemma wf_two {T : Type} (a b : T) : Heap.wf [a; b] [0%nat; 1%nat].
Proof.
  split.
  - apply NoDup_cons. split; [|apply NoDup_singleton].
    intros H. apply list_elem_of_singleton in H. discriminate.
  - intros l Hl. simpl. apply elem_of_cons in Hl as [->|Hl]; [lia|].
    apply list_elem_of_singleton in Hl as ->. lia.
Qed.

Lemma expired_sparks_are_pruned_witness :
  Heap.wf two_sparks (PrecisionCutMode.sparks precision_two_sparks)
  /\ Heap.wf two_particles (BrawlMode.particles brawl_two_particles)
  /\ (PrecisionCutMode.reachable (M := sample_math)
        (PrecisionCutMode.reset PrecisionCutMode.init, [])
      /\ Heap.wf (T := Spark.t) []
           (PrecisionCutMode.sparks
              (PrecisionCutMode.reset PrecisionCutMode.init)))
  /\ (BrawlMode.reachable (M := sample_math)
        (BrawlMode.reset BrawlMode.init, [])
      /\ Heap.wf (T := Particle.t) []
           (BrawlMode.particles (BrawlMode.reset BrawlMode.init)))
  /\ (exists h',
        PrecisionCutMode.update_sparks 0.1
          (precision_two_sparks, two_sparks)
        = Some (PrecisionCutMode.set_sparks
                  (List.filter (Heap.alive Spark.life h') [0%nat; 1%nat])
                  precision_two_sparks, h'))
  /\ (exists h',
        BrawlMode.update_particles 0.1
          (brawl_two_particles, two_particles)
        = Some (BrawlMode.set_particles
                  (List.filter (Heap.alive Particle.p4 h') [0%nat; 1%nat])
                  brawl_two_particles, h'))
  /\ (exists s' h' r',
        PrecisionCutMode.update (M := sample_math) 0.1 far_corner false
          (precision_two_sparks, two_sparks, zero_tape) = Some (s', h', r')
        /\ (0%nat ∈ PrecisionCutMode.sparks s' <-> 0 < 0.05 - 0.1)
        /\ (1%nat ∈ PrecisionCutMode.sparks s' <-> 0 < 0.5 - 0.1)
        /\ forall l, l ∈ PrecisionCutMode.sparks s' ->
             exists v, h' !! l = Some v /\ 0 < Spark.life v)
  /\ (exists s' h' r',
        BrawlMode.update (M := sample_math) 0.1 super_input
          (brawl_two_particles, two_particles, zero_tape) = Some (s', h', r')
        /\ (0%nat ∈ BrawlMode.particles s' <-> 0 < 0.05 - 0.1)
        /\ (1%nat ∈ BrawlMode.particles s' <-> 0 < 0.5 - 0.1)
        /\ forall l, l ∈ BrawlMode.particles s' ->
             exists v, h' !! l = Some v /\ 0 < Particle.p4 v).
Proof.
  pose proof (@expired_sparks_are_pruned sample_math)
    as (Hs & Hp & Hsu & Hpu & Hrs & Hrp).
  split; [apply wf_two|]. split; [apply wf_two|].
  split.
  { split; [apply PrecisionCutMode.reach_reset|].
    exact (Hrs _ _ PrecisionCutMode.reach_reset). }
  split.
  { split; [apply BrawlMode.reach_reset|].
    exact (Hrp _ _ BrawlMode.reach_reset). }
  split; [|split; [|split]].
  - destruct (Hs 0.1 precision_two_sparks two_sparks (wf_two _ _))
      as (h' & Hrun & _).
    exists h'. exact Hrun.
  - destruct (Hp 0.1 brawl_two_particles two_particles (wf_two _ _))
      as (h' & Hrun & _).
    exists h'. exact Hrun.
  - destruct (Hsu 0.1 far_corner false precision_two_sparks two_sparks
                zero_tape (wf_two _ _))
      as (s' & h' & r' & vs & Hup & _ & _ & _ & Hold & _ & Hlive & _).
    exists s', h', r'. split; [exact Hup|].
    destruct (Hold 0%nat (Spark.mk 698 334 120 0 0.05))
      as (_ & _ & _ & H0); [by left|reflexivity|].
    destruct (Hold 1%nat (Spark.mk 698 334 120 0 0.5))
      as (_ & _ & _ & H1); [right; by left|reflexivity|].
    split; [exact H0|]. split; [exact H1|exact Hlive].
  - destruct (Hpu 0.1 super_input brawl_two_particles two_particles
                zero_tape (wf_two _ _))
      as (s' & h' & r' & vs & Hup & _ & _ & _ & Hold & _ & Hlive & _).
    exists s', h', r'. split; [exact Hup|].
    destruct (Hold 0%nat (Particle.mk 280 440 400 0 0.05))
      as (_ & _ & _ & H0); [by left|reflexivity|].
    destruct (Hold 1%nat (Particle.mk 280 440 400 0 0.5))
      as (_ & _ & _ & H1); [right; by left|reflexivity|].
    split; [exact H0|]. split; [exact H1|exact Hlive].
Defined.

(** The loops on the sample lists: the spark with 0.05 s left goes, the one
    with 0.5 s stays (reference 1), in both modes. *)
Example prune_two_sparks :
  match PrecisionCutMode.update_sparks 0.1
          (precision_two_sparks, two_sparks) with
  | Some (s', h') =>
      PrecisionCutMode.sparks s' = [1%nat]
      /\ Spark.life <$> h' = [0.05 - 0.1; 0.5 - 0.1]
  | None => False
  end.
Proof. vm_compute. by split. Qed.

Example prune_two_particles :
  match BrawlMode.update_particles 0.1
          (brawl_two_particles, two_particles) with
  | Some (s', h') =>
      BrawlMode.particles s' = [1%nat]
      /\ Particle.p4 <$> h' = [0.05 - 0.1; 0.5 - 0.1]
  | None => False
  end.
Proof. vm_compute. by split. Qed.

(** ** [BrawlMode]: the super move *)

Section Super.
Import BrawlMode.
Context {M : Math}.

(** While a super is active the trigger block is skipped. *)
Lemma triggers_active inputs s :
  super_full s = false \/ super_active s = true -> triggers inputs s = false.
Proof.
  unfold triggers. intros [-> | ->]; simpl.
  - by rewrite andb_false_r.
  - by rewrite andb_false_r.
Qed.

(** C3. When the wind-up of an active super expires ([super_timer - dt <= 0]),
    the super block deactivates the super, sets the opponent's health to
    [max(0, health_before - 28)] (so never below 0, and 0 from health 20) and
    appends a burst of 40 particles, each created at the opponent's anchor
    point [(right_pos[0] - 40, right_pos[1] - 40)]; [update] then returns with
    the super inactive and that health. *)
Theorem super_resolves_with_fixed_damage :
  (forall dt s h r,
     super_active s = true ->
     super_timer s - dt <= 0 ->
     exists s' vs r',
       update_super dt (s, h, r) = (s', h ++ vs, r')
       /\ super_active s' = false
       /\ right_hp s' = Z.max 0 (right_hp s - 28)
       /\ (0 <= right_hp s')%Z
       /\ particles s' = particles s ++ seq (length h) 40
       /\ length vs = 40%nat
       /\ Forall (fun p => Particle.p0 p = fst (right_pos s') - 40
                           /\ Particle.p1 p = snd (right_pos s') - 40) vs)
  /\ (forall dt inputs s h r,
        Heap.wf h (particles s) ->
        super_active s = true ->
        super_timer s - dt <= 0 ->
        exists s' h' r',
          update dt inputs (s, h, r) = Some (s', h', r')
          /\ super_active s' = false
          /\ right_hp s' = Z.max 0 (right_hp s - 28)
          /\ (0 <= right_hp s')%Z).
Proof.
  split.
  - intros dt s h r Ha Ht.
    destruct (update_super_resolves dt s h r Ha Ht)
      as (vs & r' & Hrun & Hlen & Hpos & _).
    eexists _, vs, r'. split; [exact Hrun|]. simpl.
    split; [reflexivity|]. rewrite py_maxZ_spec.
    split; [reflexivity|]. split; [lia|]. by repeat split.
  - intros dt inputs s h r Hwf Ha Ht.
    destruct (moved_frame dt inputs s)
      as (_ & _ & Hhp & _ & Hact & Htim & _).
    cbv zeta in Hhp, Hact, Htim.
    rewrite Ha in Hact. rewrite <- Htim in Ht.
    destruct (update_super_resolves dt (moved dt inputs s) h r Hact Ht)
      as (vs & r' & Hrun & _).
    remember (set_particles _ _) as s5 eqn:Es5 in Hrun.
    assert (Hs5 : super_active s5 = false
                  /\ right_hp s5 = Z.max 0 (right_hp s - 28)).
    { rewrite Es5. unfold set_particles, set_right_hp.
      cbn [super_active right_hp set_super_active].
      by rewrite Hhp, py_maxZ_spec. }
    assert (Hc : resolved dt inputs (s, h, r) = (s5, h ++ vs, r')).
    { unfold resolved. rewrite update_trigger_idle; [exact Hrun|].
      apply triggers_active. by right. }
    destruct (brawl_update_from_resolved dt inputs s h r s5 _ r' Hc
                (resolved_wf _ _ _ _ _ _ _ _ Hc Hwf)) as (h6 & Hup & _).
    cbv zeta in Hup. eexists _, _, _. split; [exact Hup|].
    match goal with
    | |- context [update_ai dt (?X, r')] =>
        destruct (update_ai_frame dt X r') as (_ & _ & Hr & _ & Hact' & _)
    end.
    cbv zeta in Hr, Hact'. rewrite Hr, Hact'. simpl.
    destruct Hs5 as [-> ->]. split; [reflexivity|]. split; [reflexivity|]. lia.
Qed.

End Super.

Lemma super_resolves_with_fixed_damage_witness :
  BrawlMode.super_active brawl_winding = true
  /\ BrawlMode.super_timer brawl_winding - 0.2 <= 0
  /\ Heap.wf (T := Particle.t) [] (BrawlMode.particles brawl_winding)
  /\ BrawlMode.right_hp brawl_winding = 20%Z
  /\ (exists s' vs r',
        BrawlMode.update_super (M := sample_math) 0.2
          (brawl_winding, [], zero_tape) = (s', [] ++ vs, r')
        /\ BrawlMode.super_active s' = false
        /\ BrawlMode.right_hp s' = 0%Z
        /\ (0 <= BrawlMode.right_hp s')%Z
        /\ BrawlMode.particles s'
           = BrawlMode.particles brawl_winding ++ seq 0 40
        /\ length vs = 40%nat
        /\ Forall (fun p =>
                     Particle.p0 p = fst (BrawlMode.right_pos s') - 40
                     /\ Particle.p1 p = snd (BrawlMode.right_pos s') - 40) vs)
  /\ (exists s' h' r',
        BrawlMode.update (M := sample_math) 0.2 super_input
          (brawl_winding, [], zero_tape) = Some (s', h', r')
        /\ BrawlMode.super_active s' = false
        /\ BrawlMode.right_hp s' = 0%Z
        /\ (0 <= BrawlMode.right_hp s')%Z).
Proof.
  pose proof (@super_resolves_with_fixed_damage sample_math) as [Hphase Hcall].
  assert (Ha : BrawlMode.super_active brawl_winding = true) by reflexivity.
  assert (Ht : BrawlMode.super_timer brawl_winding - 0.2 <= 0)
    by (vm_compute; discriminate).
  split; [exact Ha|]. split; [exact Ht|]. split; [apply wf_nil|].
  split; [reflexivity|]. split.
  - exact (Hphase 0.2 brawl_winding [] zero_tape Ha Ht).
  - exact (Hcall 0.2 super_input brawl_winding [] zero_tape (wf_nil []) Ha Ht).
Defined.

(** ** [BrawlMode]: the trigger *)

Section Trigger.
Import BrawlMode.
Context {M : Math}.

Lemma get_insert_ne (inputs : gmap string bool) (k k' : string) (v : bool) :
  k <> k' -> get (<[k := v]> inputs) k' = get inputs k'.
Proof. intros Hne. unfold get. by rewrite lookup_insert_ne. Qed.

Lemma get_delete_ne (inputs : gmap string bool) (k k' : string) :
  k <> k' -> get (delete k inputs) k' = get inputs k'.
Proof. intros Hne. unfold get. by rewrite lookup_delete_ne. Qed.

(** [update] reads [inputs] through the two move keys and the trigger test. *)
Lemma update_inputs_ext dt (inputs inputs' : gmap string bool) s h r :
  get inputs "left_move" = get inputs' "left_move" ->
  get inputs "right_move" = get inputs' "right_move" ->
  triggers inputs (moved dt inputs s) = triggers inputs' (moved dt inputs' s) ->
  update dt inputs (s, h, r) = update dt inputs' (s, h, r).
Proof.
  intros Hl Hr Ht.
  assert (Hm : moved dt inputs s = moved dt inputs' s).
  { unfold moved, update_move. by rewrite Hl, Hr. }
  unfold update, resolved, update_trigger. rewrite Ht, Hm. reflexivity.
Qed.

(** C4. When the super is not ready ([super_full] false) or one is already
    active, the trigger block leaves the mode, the particle heap and the
    random source exactly as they were, whatever the inputs: [super_active],
    [super_full] and [super_timer] keep their values and no particle is
    created.  Consequently a whole [update] with the trigger input set equals
    the [update] with the input cleared or absent, field for field. *)
Theorem super_trigger_needs_ready_super :
  (forall inputs s h r,
     super_full s = false \/ super_active s = true ->
     update_trigger inputs (s, h, r) = (s, h, r))
  /\ (forall dt inputs s h r,
        super_full s = false \/ super_active s = true ->
        update dt (<["super" := true]> inputs) (s, h, r)
          = update dt (<["super" := false]> inputs) (s, h, r)
        /\ update dt (<["super" := true]> inputs) (s, h, r)
           = update dt (delete "super" inputs) (s, h, r)).
Proof.
  split.
  - intros inputs s h r Hnot. apply update_trigger_idle.
    by apply triggers_active.
  - intros dt inputs s h r Hnot.
    assert (Hidle : forall i, triggers i (moved dt i s) = false).
    { intros i. apply triggers_active.
      destruct (moved_frame dt i s) as (_ & _ & _ & -> & -> & _). exact Hnot. }
    split; apply update_inputs_ext;
      rewrite ?get_insert_ne, ?get_delete_ne, ?Hidle; done.
Qed.

End Trigger.

Lemma super_trigger_needs_ready_super_witness :
  (BrawlMode.super_full brawl_winding = false
   \/ BrawlMode.super_active brawl_winding = true)
  /\ BrawlMode.update_trigger (M := sample_math) super_input
       (brawl_winding, two_particles, zero_tape)
     = (brawl_winding, two_particles, zero_tape)
  /\ BrawlMode.update (M := sample_math) 0.05 (<["super" := true]> ∅)
       (brawl_winding, [], zero_tape)
     = BrawlMode.update (M := sample_math) 0.05 (<["super" := false]> ∅)
         (brawl_winding, [], zero_tape).
Proof.
  pose proof (@super_trigger_needs_ready_super sample_math) as [Hphase Hcall].
  assert (Hnot : BrawlMode.super_full brawl_winding = false
                 \/ BrawlMode.super_active brawl_winding = true)
    by (left; reflexivity).
  split; [exact Hnot|]. split.
  - exact (Hphase super_input brawl_winding two_particles zero_tape Hnot).
  - exact (proj1 (Hcall 0.05 ∅ brawl_winding [] zero_tape Hnot)).
Defined.

(** ** [BrawlMode]: the arena bounds *)

Section Arena.
Import BrawlMode.
Context {M : Math}.

(** One more round from a reachable brawl returns, in a reachable brawl. *)
Lemma super_round_reachable s h :
  reachable (s, h) ->
  exists s' h' r',
    update 0.6 super_input (reset s, h, zero_tape) = Some (s', h', r')
    /\ reachable (s', h').
Proof.
  intros Hreach. apply reach_reenter in Hreach.
  pose proof (brawl_reachable_inv _ Hreach) as (_ & _ & _ & _ & Hwf).
  destruct (brawl_update_total 0.6 super_input (reset s) h zero_tape Hwf)
    as (s' & h' & r' & Hup).
  exists s', h', r'. split; [exact Hup|].
  eapply reach_update; [exact Hreach | | exact Hup]. vm_compute. discriminate.
Qed.

(** Three rounds in a row, evaluated. *)
Lemma three_super_rounds :
  match super_round (super_round (super_round
          (Some (init, [], zero_tape)))) with
  | Some (s', _, _) =>
      super_active s' = true
      /\ fst (right_pos s') == WIDTH - 120 + 100 * 0.6
  | None => False
  end.
Proof. vm_compute. split; reflexivity. Qed.

(** C10. The clamp of the right fighter runs before the AI nudge, so it does
    not bound [right_pos[0]] when [update] returns: the left fighter always
    ends inside [[120, WIDTH/2 - 60]], the right fighter ends inside
    [[WIDTH/2 + 60, WIDTH - 120 + 100 * dt]], and the excess of [100 * dt] over
    [WIDTH - 120] is reached, with a super active and [dt = 0.6 > 0], from a
    reachable brawl (two earlier rounds) when [random.random()] returns 0.0. *)
Theorem right_clamp_precedes_dodge :
  (forall dt inputs s h r,
     Heap.wf h (particles s) ->
     0 <= dt ->
     exists s' h' r',
       update dt inputs (s, h, r) = Some (s', h', r')
       /\ (120 <= fst (left_pos s') /\ fst (left_pos s') <= WIDTH / 2 - 60)
       /\ (WIDTH / 2 + 60 <= fst (right_pos s')
           /\ fst (right_pos s') <= WIDTH - 120 + 100 * dt))
  /\ (exists s h r,
        super_round (super_round (Some (init, [], zero_tape))) = Some (s, h, r)
        /\ reachable (reset s, h)
        /\ exists s' h' r',
             update 0.6 super_input (reset s, h, zero_tape) = Some (s', h', r')
             /\ super_active s' = true
             /\ fst (right_pos s') == WIDTH - 120 + 100 * 0.6
             /\ WIDTH - 120 < fst (right_pos s')).
Proof.
  split.
  - intros dt inputs s h r Hwf Hdt.
    destruct (brawl_update_total dt inputs s h r Hwf) as (s' & h' & r' & Hup).
    exists s', h', r'. split; [exact Hup|].
    destruct (brawl_update_preserves _ _ _ _ _ _ _ _ Hwf Hup)
      as (_ & _ & _ & _ & Hl & Hr & _).
    destruct (moved_clamped dt inputs s) as [Hlc [Hr1 Hr2]].
    cbv zeta in Hlc, Hr1, Hr2. rewrite <- Hl in Hlc. split; [exact Hlc|].
    destruct Hr as [-> | ->]; split; lra.
  - destruct (super_round_reachable init []) as (s1 & h1 & r1 & Hup1 & Hreach1).
    { apply reach_reset. }
    destruct (super_round_reachable s1 h1 Hreach1)
      as (s2 & h2 & r2 & Hup2 & Hreach2).
    destruct (super_round_reachable s2 h2 Hreach2)
      as (s3 & h3 & r3 & Hup3 & _).
    exists s2, h2, r2.
    assert (Htwo : super_round (super_round (Some (init, [], zero_tape)))
                   = Some (s2, h2, r2)).
    { unfold super_round. rewrite Hup1. exact Hup2. }
    split; [exact Htwo|]. split; [by apply reach_reenter|].
    exists s3, h3, r3. split; [exact Hup3|].
    pose proof three_super_rounds as H3. rewrite Htwo in H3.
    unfold super_round in H3. rewrite Hup3 in H3. destruct H3 as [Ha Hx].
    split; [exact Ha|]. split; [exact Hx|]. rewrite Hx. reflexivity.
Qed.

End Arena.

Lemma right_clamp_precedes_dodge_witness :
  Heap.wf (T := Particle.t) []
    (BrawlMode.particles (BrawlMode.reset BrawlMode.init))
  /\ 0 <= 0.5
  /\ exists s' h' r',
       BrawlMode.update (M := sample_math) 0.5 super_input brawl_start
         = Some (s', h', r')
       /\ (120 <= fst (BrawlMode.left_pos s')
           /\ fst (BrawlMode.left_pos s') <= WIDTH / 2 - 60)
       /\ (WIDTH / 2 + 60 <= fst (BrawlMode.right_pos s')
           /\ fst (BrawlMode.right_pos s') <= WIDTH - 120 + 100 * 0.5).
Proof.
  assert (Hdt : 0 <= 0.5) by (vm_compute; discriminate).
  split; [apply wf_nil|]. split; [exact Hdt|].
  exact (proj1 (@right_clamp_precedes_dodge sample_math) 0.5 super_input
           (BrawlMode.reset BrawlMode.init) [] zero_tape (wf_nil []) Hdt).
Defined.

(** ** The data-model invariant *)

Section Invariant.
Context {M : Math}.

(** C2. In every mode object reachable from [reset()] by [update] calls with
    [dt >= 0] (and further [reset()] calls): [time_left] lies in
    [[0, time_limit]] in the precision minigame; in the brawl both healths lie
    in [[0, 100]], [timer] lies in [[0, 99]], and [super_active] and
    [super_full] are never both true. *)
Theorem reachable_states_in_range :
  (forall s h,
     PrecisionCutMode.reachable (s, h) ->
     0 <= PrecisionCutMode.time_left s
     /\ PrecisionCutMode.time_left s <= PrecisionCutMode.time_limit s)
  /\ (forall s h,
        BrawlMode.reachable (s, h) ->
        (0 <= BrawlMode.left_hp s <= 100)%Z
        /\ (0 <= BrawlMode.right_hp s <= 100)%Z
        /\ (0 <= BrawlMode.timer s /\ BrawlMode.timer s <= 99)
        /\ ~ (BrawlMode.super_active s = true
              /\ BrawlMode.super_full s = true)).
Proof.
  split.
  - intros s h Hreach.
    by destruct (precision_reachable_inv _ Hreach) as (_ & _ & _ & _ & Hr & _).
  - intros s h Hreach.
    destruct (brawl_reachable_inv _ Hreach) as (Ht & Hl & Hr & Hflag & _).
    simpl in Ht, Hl, Hr, Hflag.
    repeat (split; [done|]). intros [Ha Hf]. rewrite Ha, Hf in Hflag.
    discriminate.
Qed.

End Invariant.

Lemma reachable_states_in_range_witness :
  (exists s h r,
     PrecisionCutMode.update (M := sample_math) 0.1 target_point true
       precision_start = Some (s, h, r)
     /\ PrecisionCutMode.reachable (M := sample_math) (s, h)
     /\ 0 <= PrecisionCutMode.time_left s
     /\ PrecisionCutMode.time_left s <= PrecisionCutMode.time_limit s)
  /\ (exists s h r,
        BrawlMode.update (M := sample_math) 0.6 super_input brawl_start
          = Some (s, h, r)
        /\ BrawlMode.reachable (M := sample_math) (s, h)
        /\ (0 <= BrawlMode.left_hp s <= 100)%Z
        /\ (0 <= BrawlMode.right_hp s <= 100)%Z
        /\ (0 <= BrawlMode.timer s /\ BrawlMode.timer s <= 99)
        /\ ~ (BrawlMode.super_active s = true
              /\ BrawlMode.super_full s = true)).
Proof.
  pose proof (@reachable_states_in_range sample_math) as [Hp Hb].
  split.
  - destruct (precision_reachable_update_total (M := sample_math)
                (PrecisionCutMode.reset PrecisionCutMode.init) [] zero_tape
                0.1 target_point true PrecisionCutMode.reach_reset)
      as [[[s h] r] Hup].
    assert (Hreach : PrecisionCutMode.reachable (M := sample_math) (s, h)).
    { eapply PrecisionCutMode.reach_update;
        [apply PrecisionCutMode.reach_reset | | exact Hup].
      vm_compute. discriminate. }
    exists s, h, r. split; [exact Hup|]. split; [exact Hreach|].
    exact (Hp s h Hreach).
  - destruct (brawl_update_total (M := sample_math) 0.6 super_input
                (BrawlMode.reset BrawlMode.init) [] zero_tape (wf_nil []))
      as (s & h & r & Hup).
    assert (Hreach : BrawlMode.reachable (M := sample_math) (s, h)).
    { eapply BrawlMode.reach_update;
        [apply BrawlMode.reach_reset | | exact Hup].
      vm_compute. discriminate. }
    exists s, h, r. split; [exact Hup|]. split; [exact Hreach|].
    exact (Hb s h Hreach).
Defined.

(** ** [Game]: the mode selector *)

Section Selector.
Import Game.
Context {M : Math}.

(** A key press in the menu never raises, and leaves the world alone. *)
Lemma on_keydown_menu key g w :
  state g = STATE_MENU ->
  exists g', on_keydown key (g, w) = Some (g', w)
    /\ ((key = K_RETURN /\ menu_selected g = 0%Z
         /\ state g' = STATE_PRECISION
         /\ precision g' = PrecisionCutMode.reset (precision g)
         /\ brawl g' = brawl g)
        \/ (key = K_RETURN /\ menu_selected g <> 0%Z
            /\ state g' = STATE_BRAWL
            /\ brawl g' = BrawlMode.reset (brawl g)
            /\ precision g' = precision g)
        \/ (key <> K_RETURN /\ state g' = STATE_MENU
            /\ precision g' = precision g /\ brawl g' = brawl g)).
Proof.
  intros Hst. destruct g as [st p b run sel mdn]. simpl in Hst. subst st.
  unfold on_keydown.
  destruct key; cbn -[PrecisionCutMode.reset BrawlMode.reset Z.eqb];
    try (eexists; split; [reflexivity|]; right; right; by repeat split).
  destruct (Z.eqb_spec sel 0) as [->|Hsel];
    eexists; (split; [reflexivity|]); [left | right; left]; by repeat split.
Qed.





(** Runs of the selector: without a confirm no minigame is entered, and
    without confirm and cancel the mode stays. *)
Lemma mode_path_no_confirm s events s' :
  mode_path s events s' ->
  KEYDOWN K_RETURN ∉ events ->
  (s' = s \/ s' = STATE_MENU)
  /\ (KEYDOWN K_ESCAPE ∉ events -> s' = s).
Proof.
  induction 1 as [s|s e s1 es s' Hstep _ IH]; intros Hret.
  - split; [by left|done].
  - apply not_elem_of_cons in Hret as [Hne Hret].
    destruct (IH Hret) as [IH1 IH2].
    inversion Hstep as [s0 Ha|s0 Ha|s0 e0]; subst.
    + done.
    + split; [right; by destruct IH1|].
      intros Hesc. apply not_elem_of_cons in Hesc as [Hesc _]. done.
    + split; [exact IH1|].
      intros Hesc. apply not_elem_of_cons in Hesc as [_ Hesc]. by apply IH2.
Qed.







End Selector.



(** The sample queue, evaluated: the brawl was entered, the super fired, and
    the game is back in the menu with the click recorded. *)
Example sample_events_run :
  match Game.handle_events (M := sample_math) sample_events false game_start with
  | Some (g, w) =>
      Game.state g = Game.STATE_MENU
      /\ Game.menu_selected g = 1%Z
      /\ Game._mouse_down g = true
      /\ BrawlMode.super_active (Game.brawl g) = true
      /\ length (Game.particle_heap w) = 30%nat
  | None => False
  end.
Proof. vm_compute. by repeat split. Qed.

(** * Part III: the rest of [main.py] *)

(** ** [Game]: events, dispatch and the frame loop *)

Section GameLoop.
Import Game.
Context {M : Math}.

Lemma tick_seconds_nonneg (ms : Z) : (0 <= ms)%Z -> 0 <= inject_Z ms / 1000.0.
Proof.
  intros Hms. apply Qle_shift_div_l; [reflexivity|].
  rewrite Qmult_0_l. change 0 with (inject_Z 0). by rewrite <- Zle_Qle.
Qed.

Lemma modes_reachable_init r : modes_reachable (init, init_world r).
Proof.
  split; [apply PrecisionCutMode.reach_reset | apply BrawlMode.reach_reset].
Qed.

(** A key press inside a minigame: either the modes are left alone, or it is
    SPACE in the brawl and the brawl is updated with [dt = 0]. *)
Lemma on_keydown_playing_cases key g w :
  state g <> STATE_MENU ->
  (exists g', on_keydown key (g, w) = Some (g', w)
     /\ precision g' = precision g /\ brawl g' = brawl g
     /\ running g' = running g /\ menu_selected g' = menu_selected g
     /\ _mouse_down g' = _mouse_down g
     /\ (state g' = state g \/ state g' = STATE_MENU))
  \/ (state g = STATE_BRAWL /\ key = K_SPACE
      /\ on_keydown key (g, w)
         = match BrawlMode.update 0 {[ "super" := true ]}
                   (brawl g, particle_heap w, rng w) with
           | None => None
           | Some (b, h, r) => Some (set_brawl b g, mkWorld (spark_heap w) h r)
           end).
Proof.
  intros Hst. destruct g as [st p b run sel mdn]. simpl in Hst.
  destruct st; [done| |]; destruct key;
    try (left; eexists; split; [reflexivity|];
         repeat (split; [reflexivity|]); (by left) || (by right)).
  right. by repeat split.
Qed.

(** A key press in the menu moves the cursor by one entry, saturating at
    both ends, and touches neither [running] nor [_mouse_down]. *)
Lemma on_keydown_menu_cursor key g w g' w' :
  state g = STATE_MENU ->
  on_keydown key (g, w) = Some (g', w') ->
  running g' = running g /\ _mouse_down g' = _mouse_down g
  /\ menu_selected g'
     = (if key_in key [K_RIGHT; K_d] then py_minZ 1 (menu_selected g + 1)
        else if key_in key [K_LEFT; K_a] then py_maxZ 0 (menu_selected g - 1)
        else menu_selected g).
Proof.
  intros Hst Hrun. destruct g as [st p b run sel mdn]. simpl in Hst. subst st.
  unfold on_keydown in Hrun.
  destruct key;
    cbn -[PrecisionCutMode.reset BrawlMode.reset Z.eqb py_minZ py_maxZ] in Hrun;
    try (injection Hrun as <- <-; by repeat split).
  destruct (sel =? 0)%Z; injection Hrun as <- <-; by repeat split.
Qed.

(** Handling one event never raises on reachable modes and keeps them
    reachable. *)
Lemma handle_event_reachable e md g w :
  modes_reachable (g, w) ->
  exists md' g' w',
    handle_event e md (g, w) = Some (md', (g', w'))
    /\ modes_reachable (g', w').
Proof.
  intros [Hp Hb]. simpl in Hp, Hb.
  destruct e as [|key| |]; unfold handle_event;
    try (eexists _, _, _; split; [reflexivity|]; by split).
  assert (Hdec : state g = STATE_MENU \/ state g <> STATE_MENU)
    by (destruct (state g); (by left) || (by right)).
  destruct Hdec as [Hst|Hst].
  - destruct (on_keydown_menu key g w Hst) as (g' & -> & Hcases).
    exists md, g', w. split; [reflexivity|]. unfold modes_reachable.
    cbn [fst snd].
    destruct Hcases as [(_ & _ & _ & Ep & Eb)
                       |[(_ & _ & _ & Eb & Ep)|(_ & _ & Ep & Eb)]];
      rewrite Ep, Eb.
    + split; [by apply PrecisionCutMode.reach_reenter | done].
    + split; [done | by apply BrawlMode.reach_reenter].
    + by split.
  - destruct (on_keydown_playing_cases key g w Hst)
      as [(g' & -> & Ep & Eb & _)|(_ & _ & ->)].
    + exists md, g', w. split; [reflexivity|]. unfold modes_reachable.
      cbn [fst snd]. rewrite Ep, Eb. by split.
    + pose proof (brawl_reachable_inv _ Hb) as (_ & _ & _ & _ & Hwf).
      destruct (brawl_update_total 0 {[ "super" := true ]} (brawl g)
                  (particle_heap w) (rng w) Hwf) as (b & h & r & Hup).
      rewrite Hup. eexists md, _, _. split; [reflexivity|].
      split; simpl; [done|].
      eapply BrawlMode.reach_update; [exact Hb| |exact Hup]. done.
Qed.

(** Handling one event never switches [running] back on, [QUIT] switches it
    off, and the menu cursor stays on one of its two entries. *)
Lemma handle_event_flags e md g w md' g' w' :
  handle_event e md (g, w) = Some (md', (g', w')) ->
  (running g' = true -> running g = true)
  /\ (e = QUIT -> running g' = false)
  /\ ((0 <= menu_selected g <= 1)%Z -> (0 <= menu_selected g' <= 1)%Z)
  /\ _mouse_down g' = _mouse_down g
  /\ md' = (md || match e with MOUSEBUTTONDOWN => true | _ => false end).
Proof.
  intros Hrun.
  destruct e as [|key| |]; unfold handle_event in Hrun.
  - injection Hrun as <- <- <-. simpl. rewrite orb_false_r.
    split; [discriminate|]. split; [reflexivity|]. split; [auto|].
    split; reflexivity.
  - destruct (on_keydown key (g, w)) as [[g1 w1]|] eqn:Hkey; [|discriminate].
    injection Hrun as <- <- <-. rewrite orb_false_r.
    assert (Hdec : state g = STATE_MENU \/ state g <> STATE_MENU)
      by (destruct (state g); (by left) || (by right)).
    destruct Hdec as [Hst|Hst].
    + destruct (on_keydown_menu_cursor key g w g1 w1 Hst Hkey)
        as (-> & -> & ->).
      repeat (split; [done|]). split; [|done]. intros Hsel.
      rewrite py_minZ_spec, py_maxZ_spec.
      destruct (key_in key [K_RIGHT; K_d]); [lia|].
      destruct (key_in key [K_LEFT; K_a]); lia.
    + destruct (on_keydown_playing_cases key g w Hst)
        as [(g' & Hkey' & _ & _ & Hr & Hs & Hm & _)|(_ & _ & Hkey')];
        rewrite Hkey in Hkey'.
      * injection Hkey' as <- _. rewrite Hr, Hs, Hm.
        split; [auto|]. split; [discriminate|]. split; [auto|].
        split; reflexivity.
      * destruct (BrawlMode.update _ _ _) as [[[b h] r]|]; [|discriminate].
        injection Hkey' as -> _. simpl.
        split; [auto|]. split; [discriminate|]. split; [auto|].
        split; reflexivity.
  - injection Hrun as <- <- <-. simpl. rewrite orb_true_r.
    split; [auto|]. split; [discriminate|]. split; [auto|].
    split; reflexivity.
  - injection Hrun as <- <- <-. simpl. rewrite orb_false_r.
    split; [auto|]. split; [discriminate|]. split; [auto|].
    split; reflexivity.
Qed.

Lemma events_loop_reachable events :
  forall md c,
    modes_reachable c ->
    exists md' c', events_loop events md c = Some (md', c')
                   /\ modes_reachable c'.
Proof.
  induction events as [|e rest IH]; intros md [g w] Hinv; simpl.
  - by exists md, (g, w).
  - destruct (handle_event_reachable e md g w Hinv)
      as (md1 & g1 & w1 & -> & Hinv1).
    apply IH, Hinv1.
Qed.

Lemma events_loop_flags events :
  forall md g w md' g' w',
    events_loop events md (g, w) = Some (md', (g', w')) ->
    (running g' = true -> running g = true)
    /\ (QUIT ∈ events -> running g' = false)
    /\ ((0 <= menu_selected g <= 1)%Z -> (0 <= menu_selected g' <= 1)%Z)
    /\ _mouse_down g' = _mouse_down g
    /\ (md' = true <-> md = true \/ MOUSEBUTTONDOWN ∈ events).
Proof.
  induction events as [|e rest IH]; intros md g w md' g' w' Hrun;
    simpl in Hrun.
  - injection Hrun as <- <- <-.
    split; [auto|]. split; [by intros H%elem_of_nil|]. split; [auto|].
    split; [reflexivity|]. split; [by left|].
    intros [H|H%elem_of_nil]; done.
  - destruct (handle_event e md (g, w)) as [[md1 [g1 w1]]|] eqn:He;
      [|discriminate].
    destruct (handle_event_flags _ _ _ _ _ _ _ He)
      as (Hr1 & Hq1 & Hs1 & Hm1 & Hmd1).
    destruct (IH _ _ _ _ _ _ Hrun) as (Hr & Hq & Hs & Hm & Hmd).
    split; [auto|]. split.
    { intros [<-|Hin]%elem_of_cons.
      - destruct (running g') eqn:E; [|done].
        specialize (Hr eq_refl). rewrite (Hq1 eq_refl) in Hr. discriminate.
      - by apply Hq. }
    split; [auto|]. split; [congruence|].
    rewrite Hmd, Hmd1, orb_true_iff, elem_of_cons.
    destruct e; split; intros H; try tauto; try (destruct H as [[H|H]|H]);
      try (destruct H as [H|[H|H]]); try discriminate; tauto.
Qed.

Lemma handle_events_flags events pressed g w g' w' :
  handle_events events pressed (g, w) = Some (g', w') ->
  (running g' = true -> running g = true)
  /\ (QUIT ∈ events -> running g' = false)
  /\ ((0 <= menu_selected g <= 1)%Z -> (0 <= menu_selected g' <= 1)%Z)
  /\ (_mouse_down g' = true <-> pressed = true \/ MOUSEBUTTONDOWN ∈ events).
Proof.
  intros Hrun. unfold handle_events in Hrun.
  destruct (events_loop events false (g, w)) as [[md1 [g1 w1]]|] eqn:Hloop;
    [|discriminate].
  injection Hrun as <- <-.
  destruct (events_loop_flags _ _ _ _ _ _ _ Hloop) as (Hr & Hq & Hs & _ & Hmd).
  repeat (split; [done|]).
  simpl. rewrite orb_true_iff, Hmd.
  split; [intros [H|[H|H]]|intros [H|H]]; try discriminate; tauto.
Qed.

Lemma game_update_running dt mouse_pos keys g w g' w' :
  update dt mouse_pos keys (g, w) = Some (g', w') -> running g' = running g.
Proof.
  intros Hrun. unfold update in Hrun. destruct (state g).
  - by injection Hrun as <- <-.
  - destruct (PrecisionCutMode.update _ _ _ _) as [[[p h] r]|];
      [|discriminate].
    by injection Hrun as <- <-.
  - destruct (BrawlMode.update _ _ _) as [[[b h] r]|]; [|discriminate].
    by injection Hrun as <- <-.
Qed.

(** X1. [handle_events] keeps the menu cursor on one of the two entries:
    RIGHT/[d] and LEFT/[a] move it by one and saturate at 1 and 0, and no
    other event touches it. *)
Theorem menu_cursor_stays_on_entries events pressed g w g' w' :
  handle_events events pressed (g, w) = Some (g', w') ->
  (0 <= menu_selected g <= 1)%Z ->
  (0 <= menu_selected g' <= 1)%Z.
Proof.
  intros Hrun. by destruct (handle_events_flags _ _ _ _ _ _ Hrun) as (_ & _ & Hs & _).
Qed.

(** X2. After [handle_events], [_mouse_down] is true exactly when the button
    is held at the end of the queue or a MOUSEBUTTONDOWN event was in the
    queue; its previous value plays no role. *)
Theorem mouse_down_is_held_or_clicked events pressed g w g' w' :
  handle_events events pressed (g, w) = Some (g', w') ->
  (_mouse_down g' = true <-> pressed = true \/ MOUSEBUTTONDOWN ∈ events).
Proof.
  intros Hrun. by destruct (handle_events_flags _ _ _ _ _ _ Hrun) as (_ & _ & _ & Hm).
Qed.

(** X3. A QUIT event anywhere in the queue leaves [running] false after
    [handle_events], whatever follows it in the queue, and no event ever
    switches [running] back on. *)
Theorem quit_switches_running_off events pressed g w g' w' :
  handle_events events pressed (g, w) = Some (g', w') ->
  (QUIT ∈ events -> running g' = false)
  /\ (running g' = true -> running g = true).
Proof.
  intros Hrun. by destruct (handle_events_flags _ _ _ _ _ _ Hrun) as (Hr & Hq & _).
Qed.

(** X4. [Game.update] works on the active mode only: in the menu it changes
    nothing; in the precision minigame the brawl and its particle heap stay
    as they are; in the brawl the precision mode and its spark heap stay as
    they are.  It never changes [state], [running], the menu cursor or
    [_mouse_down]. *)
Theorem update_touches_only_active_mode dt mouse_pos keys g w g' w' :
  update dt mouse_pos keys (g, w) = Some (g', w') ->
  (state g = STATE_MENU -> g' = g /\ w' = w)
  /\ (state g = STATE_PRECISION ->
      brawl g' = brawl g /\ particle_heap w' = particle_heap w)
  /\ (state g = STATE_BRAWL ->
      precision g' = precision g /\ spark_heap w' = spark_heap w)
  /\ state g' = state g /\ running g' = running g
  /\ menu_selected g' = menu_selected g /\ _mouse_down g' = _mouse_down g.
Proof.
  intros Hrun. unfold update in Hrun. destruct (state g) eqn:Hst.
  - injection Hrun as <- <-. rewrite Hst.
    split; [done|]. split; [discriminate|]. split; [discriminate|]. done.
  - destruct (PrecisionCutMode.update _ _ _ _) as [[[p h] r]|];
      [|discriminate].
    injection Hrun as <- <-. simpl.
    split; [discriminate|]. split; [done|]. split; [discriminate|]. done.
  - destruct (BrawlMode.update _ _ _) as [[[b h] r]|]; [|discriminate].
    injection Hrun as <- <-. simpl.
    split; [discriminate|]. split; [discriminate|]. split; done.
Qed.

(** [Game.update] never raises on reachable modes when [dt >= 0]. *)
Lemma game_update_reachable dt mouse_pos keys c :
  0 <= dt ->
  modes_reachable c ->
  exists c', update dt mouse_pos keys c = Some c' /\ modes_reachable c'.
Proof.
  intros Hdt Hinv. destruct c as [g w]. destruct Hinv as [Hp Hb].
  simpl in Hp, Hb. unfold update. destruct (state g).
  - exists (g, w). by split.
  - destruct (precision_reachable_update_total (precision g) (spark_heap w)
                (rng w) dt mouse_pos (_mouse_down g) Hp)
      as [[[p h] r] Hup].
    rewrite Hup. eexists. split; [reflexivity|]. split; simpl; [|done].
    eapply PrecisionCutMode.reach_update; [exact Hp|exact Hdt|exact Hup].
  - pose proof (brawl_reachable_inv _ Hb) as (_ & _ & _ & _ & Hwf).
    match goal with
    | |- context [BrawlMode.update dt ?i (brawl g, particle_heap w, rng w)] =>
        destruct (brawl_update_total dt i (brawl g) (particle_heap w) (rng w)
                    Hwf) as (b & h & r & Hup)
    end.
    cbv zeta. rewrite Hup. eexists. split; [reflexivity|].
    split; simpl; [done|].
    eapply BrawlMode.reach_update; [exact Hb|exact Hdt|exact Hup].
Qed.

Lemma frame_reachable f c :
  (0 <= tick f)%Z ->
  modes_reachable c ->
  exists c', frame f c = Some c' /\ modes_reachable c'.
Proof.
  intros Hms Hinv. unfold frame, handle_events.
  destruct (events_loop_reachable (events f) false c Hinv)
    as (md & [g1 w1] & -> & Hinv1).
  apply game_update_reachable; [by apply tick_seconds_nonneg|].
  destruct Hinv1 as [Hp Hb]. by split.
Qed.

(** X5. The state changes of the game loop never raise: started from
    [Game()] and fed any frames whose clock ticks are non-negative, every
    [handle_events] and [update] call of the [while] loop of [run] returns
    (in particular no [list.remove] ever fails), and both minigames are then
    still in a state that [reset()] and [update] calls with [dt >= 0]
    produce. *)
Theorem run_never_raises r frames :
  Forall (fun f => (0 <= tick f)%Z) frames ->
  exists c', run frames (init, init_world r) = Some c'
             /\ modes_reachable c'.
Proof.
  intros Hticks.
  assert (Hgen : forall c, modes_reachable c ->
            exists c', run frames c = Some c' /\ modes_reachable c').
  { induction Hticks as [|f rest Hf _ IH]; intros c Hinv; simpl.
    - by exists c.
    - destruct (running (fst c)); [|by exists c].
      destruct (frame_reachable f c Hf Hinv) as (c1 & -> & Hinv1).
      by apply IH. }
  apply Hgen, modes_reachable_init.
Qed.

(** X6. The loop ends at the top of the iteration after a QUIT: the frame
    that carries the QUIT is still handled and updated in full, every later
    frame is ignored, and a game whose [running] is false is returned as is. *)
Theorem quit_ends_the_loop f rest c :
  (running (fst c) = false -> run (f :: rest) c = Some c)
  /\ (forall c',
        running (fst c) = true ->
        QUIT ∈ events f ->
        frame f c = Some c' ->
        run (f :: rest) c = Some c' /\ running (fst c') = false).
Proof.
  split.
  - intros Hoff. simpl. by rewrite Hoff.
  - intros [g' w'] Hon Hquit Hframe.
    assert (Hoff : running g' = false).
    { unfold frame in Hframe. destruct c as [g w].
      destruct (handle_events (events f) (pressed f) (g, w))
        as [[g1 w1]|] eqn:Hev; [|discriminate].
      destruct (handle_events_flags _ _ _ _ _ _ Hev) as (_ & Hq & _).
      rewrite (game_update_running _ _ _ _ _ _ _ Hframe). by apply Hq. }
    split; [|exact Hoff].
    simpl. rewrite Hon, Hframe. destruct rest; simpl; [done|].
    by rewrite Hoff.
Qed.

End GameLoop.

Lemma handle_events_sample_runs :
  exists g' w',
    Game.handle_events (M := sample_math) sample_events false game_start
    = Some (g', w').
Proof. eexists _, _. vm_compute. reflexivity. Defined.

Lemma handle_events_quit_runs :
  exists g' w',
    Game.handle_events (M := sample_math) (Game.events quit_frame) false
      game_start = Some (g', w').
Proof. eexists _, _. vm_compute. reflexivity. Defined.

Lemma menu_cursor_stays_on_entries_witness :
  exists g' w',
    Game.handle_events (M := sample_math) sample_events false game_start
    = Some (g', w')
    /\ (0 <= Game.menu_selected (fst game_start) <= 1)%Z
    /\ (0 <= Game.menu_selected g' <= 1)%Z.
Proof.
  destruct handle_events_sample_runs as (g' & w' & Hrun).
  assert (Hsel : (0 <= Game.menu_selected (fst game_start) <= 1)%Z)
    by (simpl; lia).
  exists g', w'. split; [exact Hrun|]. split; [exact Hsel|].
  exact (menu_cursor_stays_on_entries (M := sample_math) sample_events false
           Game.init (Game.init_world zero_tape) g' w' Hrun Hsel).
Defined.

Lemma mouse_down_is_held_or_clicked_witness :
  exists g' w',
    Game.handle_events (M := sample_math) sample_events false game_start
    = Some (g', w')
    /\ (Game._mouse_down g' = true
        <-> false = true \/ Game.MOUSEBUTTONDOWN ∈ sample_events).
Proof.
  destruct handle_events_sample_runs as (g' & w' & Hrun).
  exists g', w'. split; [exact Hrun|].
  exact (mouse_down_is_held_or_clicked (M := sample_math) sample_events false
           Game.init (Game.init_world zero_tape) g' w' Hrun).
Defined.

Lemma quit_switches_running_off_witness :
  exists g' w',
    Game.handle_events (M := sample_math) (Game.events quit_frame) false
      game_start = Some (g', w')
    /\ Game.QUIT ∈ Game.events quit_frame
    /\ Game.running g' = false.
Proof.
  destruct handle_events_quit_runs as (g' & w' & Hrun).
  assert (Hq : Game.QUIT ∈ Game.events quit_frame)
    by (right; left).
  exists g', w'. split; [exact Hrun|]. split; [exact Hq|].
  exact (proj1 (quit_switches_running_off (M := sample_math)
                  (Game.events quit_frame) false
                  Game.init (Game.init_world zero_tape) g' w' Hrun) Hq).
Defined.

Lemma update_touches_only_active_mode_witness :
  let g := Game.set_state Game.STATE_BRAWL Game.init in
  exists g' w',
    Game.update (M := sample_math) 0.016 far_corner no_keys
      (g, Game.init_world zero_tape) = Some (g', w')
    /\ Game.state g = Game.STATE_BRAWL
    /\ Game.precision g' = Game.precision g
    /\ Game.spark_heap w' = [].
Proof.
  assert (Hrun : exists g' w',
            Game.update (M := sample_math) 0.016 far_corner no_keys
              (Game.set_state Game.STATE_BRAWL Game.init,
               Game.init_world zero_tape) = Some (g', w'))
    by (eexists _, _; vm_compute; reflexivity).
  destruct Hrun as (g' & w' & Hrun).
  exists g', w'. split; [exact Hrun|]. split; [reflexivity|].
  exact (proj1 (proj2 (proj2 (update_touches_only_active_mode
                  (M := sample_math) _ _ _ _ _ _ _ Hrun))) eq_refl).
Defined.

Lemma run_never_raises_witness :
  Forall (fun f => (0 <= Game.tick f)%Z) [sample_frame; quit_frame; sample_frame]
  /\ exists c',
       Game.run (M := sample_math) [sample_frame; quit_frame; sample_frame]
         (Game.init, Game.init_world zero_tape) = Some c'
       /\ Game.modes_reachable (M := sample_math) c'.
Proof.
  assert (Hticks : Forall (fun f => (0 <= Game.tick f)%Z)
                     [sample_frame; quit_frame; sample_frame])
    by (repeat constructor; discriminate).
  split; [exact Hticks|].
  exact (run_never_raises (M := sample_math) zero_tape _ Hticks).
Defined.

Lemma quit_ends_the_loop_witness :
  Game.running (fst game_start) = true
  /\ Game.QUIT ∈ Game.events quit_frame
  /\ exists c',
       Game.frame (M := sample_math) quit_frame game_start = Some c'
       /\ Game.run (M := sample_math) [quit_frame; sample_frame] game_start
          = Some c'
       /\ Game.running (fst c') = false
       /\ Game.run (M := sample_math) [sample_frame] c' = Some c'.
Proof.
  assert (Hq : Game.QUIT ∈ Game.events quit_frame) by (right; left).
  assert (Hframe : exists c',
            Game.frame (M := sample_math) quit_frame game_start = Some c')
    by (eexists; vm_compute; reflexivity).
  destruct Hframe as (c' & Hframe).
  split; [reflexivity|]. split; [exact Hq|].
  exists c'. split; [exact Hframe|].
  destruct (proj2 (quit_ends_the_loop (M := sample_math) quit_frame
                     [sample_frame] game_start) c' eq_refl Hq Hframe)
    as [Hrun Hoff].
  split; [exact Hrun|]. split; [exact Hoff|].
  exact (proj1 (quit_ends_the_loop (M := sample_math) sample_frame [] c') Hoff).
Defined.

(** ** [BrawlMode]: the life cycle of a super *)

Section SuperCycle.
Import BrawlMode.
Context {M : Math}.

Lemma triggers_moved dt inputs s :
  triggers inputs (moved dt inputs s) = triggers inputs s.
Proof.
  unfold triggers.
  by destruct (moved_frame dt inputs s) as (_ & _ & _ & -> & -> & _).
Qed.

(** The five ways a call can go through the trigger and super blocks, with
    what each does to the flags, the wind-up, the opponent's health and the
    number of particles created. *)
Lemma resolved_cases dt inputs s h r :
  exists s5 vs r5,
    resolved dt inputs (s, h, r) = (s5, h ++ vs, r5)
    /\ left_hp s5 = left_hp s
    /\ ((triggers inputs s = false /\ super_active s = false
         /\ super_full s5 = super_full s /\ super_active s5 = false
         /\ super_timer s5 = super_timer s /\ right_hp s5 = right_hp s
         /\ length vs = 0%nat)
        \/ (triggers inputs s = false /\ super_active s = true
            /\ 0 < super_timer s - dt
            /\ super_full s5 = super_full s /\ super_active s5 = true
            /\ super_timer s5 = super_timer s - dt
            /\ right_hp s5 = right_hp s /\ length vs = 0%nat)
        \/ (triggers inputs s = false /\ super_active s = true
            /\ super_timer s - dt <= 0
            /\ super_full s5 = super_full s /\ super_active s5 = false
            /\ super_timer s5 = super_timer s - dt
            /\ right_hp s5 = py_maxZ 0 (right_hp s - 28)
            /\ length vs = 40%nat)
        \/ (triggers inputs s = true /\ 0 < 0.7 - dt
            /\ super_full s5 = false /\ super_active s5 = true
            /\ super_timer s5 = 0.7 - dt
            /\ right_hp s5 = right_hp s /\ length vs = 30%nat)
        \/ (triggers inputs s = true /\ 0.7 - dt <= 0
            /\ super_full s5 = false /\ super_active s5 = false
            /\ super_timer s5 = 0.7 - dt
            /\ right_hp s5 = py_maxZ 0 (right_hp s - 28)
            /\ length vs = 70%nat)).
Proof.
  unfold resolved. set (m := moved dt inputs s).
  destruct (moved_frame dt inputs s)
    as (_ & Hl & Hhp & Hf & Ha & Ht & _). fold m in Hl, Hhp, Hf, Ha, Ht.
  pose proof (triggers_moved dt inputs s) as Htr. fold m in Htr.
  destruct (triggers inputs m) eqn:Hfire.
  - destruct (update_trigger_fires inputs m h r Hfire)
      as (vs1 & r1 & -> & Hlen1 & _).
    set (s4 := set_particles _ _).
    assert (Ha4 : super_active s4 = true) by reflexivity.
    assert (Ht4 : super_timer s4 = 0.7) by reflexivity.
    destruct (Qlt_le_dec 0 (0.7 - dt)) as [Hw|Hw].
    + rewrite (update_super_winds dt s4 (h ++ vs1) r1 Ha4);
        [|by rewrite Ht4].
      eexists _, vs1, r1. split; [reflexivity|]. split; [exact Hl|].
      right; right; right; left. rewrite Ht4.
      by repeat (split; [done|]).
    + destruct (update_super_resolves dt s4 (h ++ vs1) r1 Ha4)
        as (vs2 & r2 & -> & Hlen2 & _); [by rewrite Ht4|].
      eexists _, (vs1 ++ vs2), r2. split; [by rewrite app_assoc|].
      split; [exact Hl|].
      right; right; right; right. rewrite Ht4.
      repeat (split; [done|]). split; [by rewrite <- Hhp|].
      rewrite length_app, Hlen1, Hlen2. reflexivity.
  - rewrite (update_trigger_idle inputs m h r Hfire).
    destruct (super_active m) eqn:Ham.
    + destruct (Qlt_le_dec 0 (super_timer m - dt)) as [Hw|Hw].
      * rewrite (update_super_winds dt m h r Ham Hw).
        eexists _, [], r. rewrite app_nil_r. split; [reflexivity|].
        split; [exact Hl|]. right; left. rewrite <- Ha, <- Ht.
        by repeat (split; [done|]).
      * destruct (update_super_resolves dt m h r Ham Hw)
          as (vs2 & r2 & -> & Hlen2 & _).
        eexists _, vs2, r2. split; [reflexivity|]. split; [exact Hl|].
        right; right; left. rewrite <- Ha, <- Ht.
        repeat (split; [done|]). split; [by rewrite <- Hhp|done].
    + rewrite (update_super_idle dt m h r Ham).
      exists m, [], r. rewrite app_nil_r. split; [reflexivity|].
      split; [exact Hl|]. left. rewrite <- Ha.
      by repeat (split; [done|]).
Qed.

(** The same for a whole call: the particle loop and the AI block leave the
    flags, the wind-up, the healths and the heap size alone. *)
Lemma brawl_update_cases dt inputs s h r :
  Heap.wf h (particles s) ->
  exists s' h' r',
    update dt inputs (s, h, r) = Some (s', h', r')
    /\ left_hp s' = left_hp s
    /\ ((triggers inputs s = false /\ super_active s = false
         /\ super_full s' = super_full s /\ super_active s' = false
         /\ super_timer s' = super_timer s /\ right_hp s' = right_hp s
         /\ length h' = length h)
        \/ (triggers inputs s = false /\ super_active s = true
            /\ 0 < super_timer s - dt
            /\ super_full s' = super_full s /\ super_active s' = true
            /\ super_timer s' = super_timer s - dt
            /\ right_hp s' = right_hp s /\ length h' = length h)
        \/ (triggers inputs s = false /\ super_active s = true
            /\ super_timer s - dt <= 0
            /\ super_full s' = super_full s /\ super_active s' = false
            /\ super_timer s' = super_timer s - dt
            /\ right_hp s' = py_maxZ 0 (right_hp s - 28)
            /\ length h' = (length h + 40)%nat)
        \/ (triggers inputs s = true /\ 0 < 0.7 - dt
            /\ super_full s' = false /\ super_active s' = true
            /\ super_timer s' = 0.7 - dt
            /\ right_hp s' = right_hp s /\ length h' = (length h + 30)%nat)
        \/ (triggers inputs s = true /\ 0.7 - dt <= 0
            /\ super_full s' = false /\ super_active s' = false
            /\ super_timer s' = 0.7 - dt
            /\ right_hp s' = py_maxZ 0 (right_hp s - 28)
            /\ length h' = (length h + 70)%nat)).
Proof.
  intros Hwf.
  destruct (resolved_cases dt inputs s h r)
    as (s5 & vs & r5 & Hc & Hl & Hcases).
  pose proof (resolved_wf _ _ _ _ _ _ _ _ Hc Hwf) as Hwf5.
  destruct (brawl_update_from_resolved dt inputs s h r s5 _ r5 Hc Hwf5)
    as (h6 & Hup & Hlen & _).
  cbv zeta in Hup. eexists _, h6, _. split; [exact Hup|].
  match goal with
  | |- context [update_ai dt (?X, r5)] =>
      destruct (update_ai_frame dt X r5)
        as (_ & Hl' & Hr' & Hf' & Ha' & Ht' & _)
  end.
  cbv zeta in Hl', Hr', Hf', Ha', Ht'. rewrite Hl', Hr', Hf', Ha', Ht'.
  cbn [left_hp right_hp super_full super_active super_timer set_particles].
  split; [exact Hl|]. rewrite Hlen, length_app.
  destruct Hcases as [H|[H|[H|[H|H]]]];
    [left|right; left|right; right; left|right; right; right; left
    |right; right; right; right];
    repeat match type of H with
           | _ /\ _ => let H1 := fresh in destruct H as [H1 H]; split; [exact H1|]
           end;
    rewrite H; lia.
Qed.

End SuperCycle.

Section SuperRound.
Import BrawlMode.
Context {M : Math}.

(** The three stages of a round: super ready, super winding up, super spent. *)
Lemma brawl_reachable_stage c :
  reachable c ->
  let s := fst c in
  left_hp s = 100%Z
  /\ ((super_full s = true /\ super_active s = false /\ right_hp s = 100%Z)
      \/ (super_full s = false /\ super_active s = true
          /\ right_hp s = 100%Z
          /\ 0 < super_timer s /\ super_timer s <= 0.7)
      \/ (super_full s = false /\ super_active s = false
          /\ right_hp s = 72%Z)).
Proof.
  induction 1 as [|s h _ IH|s h r dt inputs s' h' r' Hreach IH Hdt Hrun];
    cbn [fst] in *.
  - split; [reflexivity|]. by left.
  - split; [reflexivity|]. by left.
  - pose proof (brawl_reachable_inv _ Hreach) as (_ & _ & _ & _ & Hwf).
    destruct (brawl_update_cases dt inputs s h r Hwf)
      as (s2 & h2 & r2 & Hrun2 & Hl & Hcases).
    rewrite Hrun in Hrun2. injection Hrun2 as <- <- <-.
    destruct IH as [IHl IH]. split; [congruence|].
    assert (Hfire : triggers inputs s = true ->
              super_full s = true /\ super_active s = false
              /\ right_hp s = 100%Z).
    { unfold triggers. rewrite !andb_true_iff, negb_true_iff.
      intros [[_ Hf] Ha].
      destruct IH as [IH|[(Hf' & _)|(Hf' & _)]]; [done| |]; congruence. }
    destruct Hcases
      as [(Htr & Ha & Ef & Ea & Et & Eh & _)
         |[(Htr & Ha & Hw & Ef & Ea & Et & Eh & _)
          |[(Htr & Ha & Hw & Ef & Ea & Et & Eh & _)
           |[(Htr & Hw & Ef & Ea & Et & Eh & _)
            |(Htr & Hw & Ef & Ea & Et & Eh & _)]]]];
      rewrite Ef, Ea, Et, Eh.
    + destruct IH as [(Hf & _ & Hhp)|[(_ & Ha' & _)|(Hf & _ & Hhp)]];
        [left|congruence|right; right]; by repeat split.
    + destruct IH as [(_ & Ha' & _)|[(Hf & _ & Hhp & Ht0 & Ht1)|(_ & Ha' & _)]];
        [congruence| |congruence].
      right; left. repeat (split; [done|]). lra.
    + destruct IH as [(_ & Ha' & _)|[(Hf & _ & Hhp & _)|(_ & Ha' & _)]];
        [congruence| |congruence].
      right; right. rewrite Hhp. by repeat split.
    + destruct (Hfire Htr) as (_ & _ & Hhp).
      right; left. repeat (split; [done|]). lra.
    + destruct (Hfire Htr) as (_ & _ & Hhp).
      right; right. rewrite Hhp. by repeat split.
Qed.

(** X7. A super lands at most once per round: in every reachable brawl the
    player's health is 100 and the opponent's health is 100 until the super
    has landed and 72 afterwards (once [super_full] is false and no super is
    active).  No health ever reaches 0, so the floor of [max(0, ...)] is
    never the value taken. *)
Theorem brawl_health_is_100_or_72 s h :
  reachable (s, h) ->
  left_hp s = 100%Z
  /\ (right_hp s = 100%Z \/ right_hp s = 72%Z)
  /\ (right_hp s = 72%Z <-> super_full s = false /\ super_active s = false).
Proof.
  intros Hreach.
  destruct (brawl_reachable_stage _ Hreach) as [Hl Hstage]. cbn [fst] in *.
  split; [exact Hl|].
  destruct Hstage as [(Hf & Ha & Hhp)|[(Hf & Ha & Hhp & _)|(Hf & Ha & Hhp)]];
    rewrite Hf, Ha, Hhp.
  - split; [by left|]. split; [discriminate | intros [? _]; discriminate].
  - split; [by left|]. split; [discriminate | intros [_ ?]; discriminate].
  - split; [by right|]. by split.
Qed.

(** X8. While a super is active in a reachable brawl, its wind-up countdown
    lies in [(0, 0.7]] and the super meter is empty ([super_full] false); so
    an active super always resolves within 0.7 s of game time. *)
Theorem active_super_is_winding_up s h :
  reachable (s, h) ->
  super_active s = true ->
  super_full s = false /\ 0 < super_timer s /\ super_timer s <= 0.7.
Proof.
  intros Hreach Ha.
  destruct (brawl_reachable_stage _ Hreach) as [_ Hstage]. cbn [fst] in *.
  destruct Hstage as [(_ & Ha' & _)|[(Hf & _ & _ & H0 & H1)|(_ & Ha' & _)]];
    [congruence|done|congruence].
Qed.

(** X9. Firing a ready super: with ["super"] set, [super_full] true and no
    super active, [update] empties the meter.  If [dt < 0.7] the super is
    left winding up with [0.7 - dt] to go, the opponent's health untouched
    and 30 particles created; if [dt >= 0.7] it lands in the same call: the
    super is inactive again, the opponent loses 28 (floored at 0) and 70
    particles are created. *)
Theorem ready_super_fires dt inputs s h r :
  Heap.wf h (particles s) ->
  get inputs "super" = true ->
  super_full s = true ->
  super_active s = false ->
  exists s' h' r',
    update dt inputs (s, h, r) = Some (s', h', r')
    /\ super_full s' = false
    /\ super_timer s' = 0.7 - dt
    /\ (0 < 0.7 - dt ->
        super_active s' = true /\ right_hp s' = right_hp s
        /\ length h' = (length h + 30)%nat)
    /\ (0.7 - dt <= 0 ->
        super_active s' = false
        /\ right_hp s' = Z.max 0 (right_hp s - 28)
        /\ length h' = (length h + 70)%nat).
Proof.
  intros Hwf Hin Hf Ha.
  assert (Htr : triggers inputs s = true)
    by (unfold triggers; by rewrite Hin, Hf, Ha).
  destruct (brawl_update_cases dt inputs s h r Hwf)
    as (s' & h' & r' & Hrun & _ & Hcases).
  exists s', h', r'. split; [exact Hrun|].
  destruct Hcases
    as [(Htr' & _)|[(Htr' & _)|[(Htr' & _)
       |[(_ & Hw & Ef & Ea & Et & Eh & El)
        |(_ & Hw & Ef & Ea & Et & Eh & El)]]]];
    try congruence.
  - split; [exact Ef|]. split; [exact Et|]. split.
    + intros _. by repeat split.
    + intros Hle. lra.
  - split; [exact Ef|]. split; [exact Et|]. split.
    + intros Hlt. lra.
    + intros _. rewrite <- py_maxZ_spec. by repeat split.
Qed.

(** X10. A spent super stays spent: once [super_full] is false and no super
    is active, no [update] changes the flags or the opponent's health or
    creates a particle, whatever the inputs; only [reset()] refills the
    meter. *)
Theorem spent_super_stays_spent dt inputs s h r :
  Heap.wf h (particles s) ->
  super_full s = false ->
  super_active s = false ->
  exists s' h' r',
    update dt inputs (s, h, r) = Some (s', h', r')
    /\ super_full s' = false /\ super_active s' = false
    /\ right_hp s' = right_hp s /\ left_hp s' = left_hp s
    /\ length h' = length h.
Proof.
  intros Hwf Hf Ha.
  assert (Htr : triggers inputs s = false)
    by (apply triggers_active; by left).
  destruct (brawl_update_cases dt inputs s h r Hwf)
    as (s' & h' & r' & Hrun & Hl & Hcases).
  exists s', h', r'. split; [exact Hrun|].
  destruct Hcases
    as [(_ & _ & Ef & Ea & _ & Eh & El)
       |[(_ & Ha' & _)|[(_ & Ha' & _)|[(Htr' & _)|(Htr' & _)]]]];
    try congruence.
  rewrite Ef, Ea, Eh, El. by repeat split.
Qed.

End SuperRound.

Lemma brawl_after_long_frame :
  exists s h r,
    BrawlMode.update (M := sample_math) 0.8 super_input brawl_start
    = Some (s, h, r)
    /\ BrawlMode.reachable (M := sample_math) (s, h).
Proof.
  destruct (brawl_update_total (M := sample_math) 0.8 super_input
              (BrawlMode.reset BrawlMode.init) [] zero_tape (wf_nil []))
    as (s & h & r & Hup).
  exists s, h, r. split; [exact Hup|].
  eapply BrawlMode.reach_update; [apply BrawlMode.reach_reset| |exact Hup].
  vm_compute. discriminate.
Defined.

Lemma brawl_after_short_frame :
  exists s h r,
    BrawlMode.update (M := sample_math) 0.6 super_input brawl_start
    = Some (s, h, r)
    /\ BrawlMode.super_active s = true
    /\ BrawlMode.reachable (M := sample_math) (s, h).
Proof.
  assert (Hrun : exists s h r,
            BrawlMode.update (M := sample_math) 0.6 super_input brawl_start
            = Some (s, h, r) /\ BrawlMode.super_active s = true)
    by (eexists _, _, _; split; vm_compute; reflexivity).
  destruct Hrun as (s & h & r & Hup & Ha).
  exists s, h, r. split; [exact Hup|]. split; [exact Ha|].
  eapply BrawlMode.reach_update; [apply BrawlMode.reach_reset| |exact Hup].
  vm_compute. discriminate.
Defined.

Lemma brawl_health_is_100_or_72_witness :
  exists s h r,
    BrawlMode.update (M := sample_math) 0.8 super_input brawl_start
    = Some (s, h, r)
    /\ BrawlMode.reachable (M := sample_math) (s, h)
    /\ BrawlMode.left_hp s = 100%Z
    /\ (BrawlMode.right_hp s = 100%Z \/ BrawlMode.right_hp s = 72%Z)
    /\ (BrawlMode.right_hp s = 72%Z
        <-> BrawlMode.super_full s = false /\ BrawlMode.super_active s = false).
Proof.
  destruct brawl_after_long_frame as (s & h & r & Hup & Hreach).
  exists s, h, r. split; [exact Hup|]. split; [exact Hreach|].
  exact (brawl_health_is_100_or_72 (M := sample_math) s h Hreach).
Defined.

Lemma active_super_is_winding_up_witness :
  exists s h r,
    BrawlMode.update (M := sample_math) 0.6 super_input brawl_start
    = Some (s, h, r)
    /\ BrawlMode.reachable (M := sample_math) (s, h)
    /\ BrawlMode.super_active s = true
    /\ BrawlMode.super_full s = false
    /\ 0 < BrawlMode.super_timer s /\ BrawlMode.super_timer s <= 0.7.
Proof.
  destruct brawl_after_short_frame as (s & h & r & Hup & Ha & Hreach).
  exists s, h, r. split; [exact Hup|]. split; [exact Hreach|].
  split; [exact Ha|].
  exact (active_super_is_winding_up (M := sample_math) s h Hreach Ha).
Defined.

Lemma ready_super_fires_witness :
  let s := BrawlMode.reset BrawlMode.init in
  Heap.wf (T := Particle.t) [] (BrawlMode.particles s)
  /\ BrawlMode.get super_input "super" = true
  /\ BrawlMode.super_full s = true
  /\ BrawlMode.super_active s = false
  /\ exists s' h' r',
       BrawlMode.update (M := sample_math) 0.6 super_input (s, [], zero_tape)
       = Some (s', h', r')
       /\ BrawlMode.super_full s' = false
       /\ BrawlMode.super_timer s' = 0.7 - 0.6
       /\ (0 < 0.7 - 0.6 ->
           BrawlMode.super_active s' = true
           /\ BrawlMode.right_hp s' = BrawlMode.right_hp s
           /\ length h' = (0 + 30)%nat)
       /\ (0.7 - 0.6 <= 0 ->
           BrawlMode.super_active s' = false
           /\ BrawlMode.right_hp s' = Z.max 0 (BrawlMode.right_hp s - 28)
           /\ length h' = (0 + 70)%nat).
Proof.
  split; [apply wf_nil|]. split; [reflexivity|]. split; [reflexivity|].
  split; [reflexivity|].
  exact (ready_super_fires (M := sample_math) 0.6 super_input
           (BrawlMode.reset BrawlMode.init) [] zero_tape (wf_nil [])
           eq_refl eq_refl eq_refl).
Defined.

Lemma spent_super_stays_spent_witness :
  Heap.wf two_particles (BrawlMode.particles brawl_spent)
  /\ BrawlMode.super_full brawl_spent = false
  /\ BrawlMode.super_active brawl_spent = false
  /\ exists s' h' r',
       BrawlMode.update (M := sample_math) 0.3 super_input
         (brawl_spent, two_particles, zero_tape) = Some (s', h', r')
       /\ BrawlMode.super_full s' = false /\ BrawlMode.super_active s' = false
       /\ BrawlMode.right_hp s' = BrawlMode.right_hp brawl_spent
       /\ BrawlMode.left_hp s' = BrawlMode.left_hp brawl_spent
       /\ length h' = length two_particles.
Proof.
  assert (Hwf : Heap.wf two_particles (BrawlMode.particles brawl_spent))
    by apply wf_nil.
  split; [exact Hwf|]. split; [reflexivity|]. split; [reflexivity|].
  exact (spent_super_stays_spent (M := sample_math) 0.3 super_input
           brawl_spent two_particles zero_tape Hwf eq_refl eq_refl).
Defined.

(** ** [BrawlMode]: where the fighters stand, and what [draw] shows of a round *)

Section BrawlStage.
Import BrawlMode.
Context {M : Math}.

(** X11. [update] never changes the height of either fighter and always
    leaves the left fighter inside its half [[120, WIDTH/2 - 60]].  With
    neither move key held (also when the keys are missing from [inputs]) the
    left fighter ends at its clamped old position.  Whenever no super is
    active when [update] returns, the right fighter ends inside its half
    [[WIDTH/2 + 60, WIDTH - 120]]. *)
Theorem fighters_keep_height_and_side dt inputs s h r s' h' r' :
  Heap.wf h (particles s) ->
  update dt inputs (s, h, r) = Some (s', h', r') ->
  snd (left_pos s') = snd (left_pos s)
  /\ snd (right_pos s') = snd (right_pos s)
  /\ (120 <= fst (left_pos s') /\ fst (left_pos s') <= WIDTH / 2 - 60)
  /\ (get inputs "left_move" = false -> get inputs "right_move" = false ->
      fst (left_pos s')
      = py_max 120 (py_min (WIDTH / 2 - 60) (fst (left_pos s))))
  /\ (super_active s' = false ->
      WIDTH / 2 + 60 <= fst (right_pos s')
      /\ fst (right_pos s') <= WIDTH - 120).
Proof.
  intros Hwf Hrun.
  destruct (resolved_frame dt inputs s h r)
    as (s5 & vs & r5 & Hc & _ & _ & _ & _ & Hlp5 & Hrp5 & _).
  pose proof (resolved_wf _ _ _ _ _ _ _ _ Hc Hwf) as Hwf5.
  destruct (brawl_update_from_resolved dt inputs s h r s5 _ r5 Hc Hwf5)
    as (h6 & Hup & _).
  cbv zeta in Hup. rewrite Hup in Hrun.
  apply Some_inj, pair_equal_spec in Hrun as [Hrun _].
  apply pair_equal_spec in Hrun as [<- _].
  match goal with
  | |- context [update_ai dt (?X, r5)] =>
      destruct (update_ai_frame dt X r5)
        as (_ & _ & _ & _ & Ha & _ & _ & Hlp & Hry & Hrx)
  end.
  cbv zeta in Ha, Hlp, Hry, Hrx. rewrite Hlp, Hry, Ha.
  cbn [left_pos right_pos super_active set_particles] in *.
  rewrite Hlp5, Hrp5 in *.
  destruct (moved_frame dt inputs s) as (_ & _ & _ & _ & _ & _ & _ & Hly & Hry' & _).
  destruct (moved_clamped dt inputs s) as [Hleft Hclamp].
  cbv zeta in Hly, Hry', Hleft, Hclamp.
  split; [exact Hly|]. split; [exact Hry'|]. split; [exact Hleft|]. split.
  - intros Hl Hr. unfold moved, update_clamp, update_move, update_timer.
    rewrite Hl, Hr. reflexivity.
  - intros Hoff. destruct Hrx as [-> | [Hon _]]; [exact Hclamp|congruence].
Qed.

(** X12. While a super is active in a reachable brawl, [draw] puts the
    glowing fist at the height of the left fighter's fist and at least 60
    and at most 540 pixels to the right of the fighter; it draws no fist
    otherwise. *)
Theorem fist_travels_from_the_left_fighter s h :
  reachable (s, h) ->
  (super_active s = false -> draw_fist s = None)
  /\ (super_active s = true ->
      exists fx,
        draw_fist s = Some (fx, snd (left_pos s) - 60)
        /\ fst (left_pos s) + 60 <= fx /\ fx <= fst (left_pos s) + 540).
Proof.
  intros Hreach. unfold draw_fist. split; intros Ha; rewrite Ha; [done|].
  destruct (brawl_reachable_stage _ Hreach) as [_ Hstage]. cbn [fst] in *.
  destruct Hstage as [(_ & Ha' & _)|[(_ & _ & _ & H0 & H1)|(_ & Ha' & _)]];
    [congruence| |congruence].
  eexists. split; [reflexivity|].
  change ((0.7 - super_timer s) / 0.7) with ((0.7 - super_timer s) * (10 # 7)).
  split; lra.
Qed.


End BrawlStage.

Lemma fighters_keep_height_and_side_witness :
  exists s' h' r',
    BrawlMode.update (M := sample_math) 0.8 super_input brawl_start
    = Some (s', h', r')
    /\ Heap.wf (T := Particle.t) []
         (BrawlMode.particles (BrawlMode.reset BrawlMode.init))
    /\ BrawlMode.get super_input "left_move" = false
    /\ BrawlMode.get super_input "right_move" = false
    /\ BrawlMode.super_active s' = false
    /\ snd (BrawlMode.left_pos s') = 500
    /\ snd (BrawlMode.right_pos s') = 500
    /\ (120 <= fst (BrawlMode.left_pos s')
        /\ fst (BrawlMode.left_pos s') <= WIDTH / 2 - 60)
    /\ fst (BrawlMode.left_pos s')
       = py_max 120 (py_min (WIDTH / 2 - 60) 220)
    /\ (WIDTH / 2 + 60 <= fst (BrawlMode.right_pos s')
        /\ fst (BrawlMode.right_pos s') <= WIDTH - 120).
Proof.
  assert (Hrun : exists s' h' r',
            BrawlMode.update (M := sample_math) 0.8 super_input brawl_start
            = Some (s', h', r') /\ BrawlMode.super_active s' = false)
    by (eexists _, _, _; split; vm_compute; reflexivity).
  destruct Hrun as (s' & h' & r' & Hrun & Hoff).
  exists s', h', r'. split; [exact Hrun|]. split; [apply wf_nil|].
  split; [reflexivity|]. split; [reflexivity|]. split; [exact Hoff|].
  destruct (fighters_keep_height_and_side (M := sample_math) 0.8 super_input
              (BrawlMode.reset BrawlMode.init) [] zero_tape s' h' r'
              (wf_nil []) Hrun) as (Hly & Hry & Hrange & Hlx & Hrx).
  split; [exact Hly|]. split; [exact Hry|]. split; [exact Hrange|].
  split; [exact (Hlx eq_refl eq_refl)|]. exact (Hrx Hoff).
Defined.

Lemma fist_travels_from_the_left_fighter_witness :
  exists s h r,
    BrawlMode.update (M := sample_math) 0.6 super_input brawl_start
    = Some (s, h, r)
    /\ BrawlMode.reachable (M := sample_math) (s, h)
    /\ BrawlMode.super_active s = true
    /\ exists fx,
         BrawlMode.draw_fist s = Some (fx, snd (BrawlMode.left_pos s) - 60)
         /\ fst (BrawlMode.left_pos s) + 60 <= fx
         /\ fx <= fst (BrawlMode.left_pos s) + 540.
Proof.
  destruct brawl_after_short_frame as (s & h & r & Hup & Ha & Hreach).
  exists s, h, r. split; [exact Hup|]. split; [exact Hreach|].
  split; [exact Ha|].
  exact (proj2 (fist_travels_from_the_left_fighter (M := sample_math) s h
                  Hreach) Ha).
Defined.


(** ** Lifetimes of sparks and particles *)

Section LifeFacts.
Context {T : Type}.
Variable life : T -> Q.
Variable tick : Q -> T -> T.
Hypothesis tick_life : forall dt v, life (tick dt v) == life v - dt.

Lemma lives_in_nil (hi : Q) (h : list T) : Heap.lives_in life hi h [].
Proof. intros l Hl. by apply elem_of_nil in Hl. Qed.

(** Appending a burst whose lifetimes are in range keeps the list in range. *)
Lemma lives_in_spawned (hi : Q) (h vs : list T) (refs : list nat) :
  Heap.wf h refs ->
  Heap.lives_in life hi h refs ->
  Forall (fun v => 0 < life v /\ life v <= hi) vs ->
  Heap.lives_in life hi (h ++ vs) (refs ++ seq (length h) (length vs)).
Proof.
  intros [_ Hval] Hold Hnew l Hl. apply elem_of_app in Hl as [Hl|Hl].
  - destruct (Hold l Hl) as (v & Hv & Hrange). exists v.
    split; [|exact Hrange]. rewrite lookup_app_l; [exact Hv|by apply Hval].
  - apply elem_of_seq in Hl.
    assert (Hlt : (l - length h < length vs)%nat) by lia.
    destruct (lookup_lt_is_Some_2 vs _ Hlt) as [v Hv].
    exists v. split; [rewrite lookup_app_r; [exact Hv|lia]|].
    rewrite Forall_forall in Hnew. apply Hnew.
    by eapply list_elem_of_lookup_2.
Qed.

(** Ticking by [dt >= 0] and keeping the live objects keeps the list in
    range. *)
Lemma lives_in_pruned (hi dt : Q) (h h' : list T) (refs : list nat) :
  0 <= dt ->
  Heap.lives_in life hi h refs ->
  (forall l v, l ∈ refs -> h !! l = Some v -> h' !! l = Some (tick dt v)) ->
  Heap.lives_in life hi h' (List.filter (Heap.alive life h') refs).
Proof.
  intros Hdt Hold Htick l Hl.
  apply list_elem_of_In, List.filter_In in Hl as [Hl Halive].
  apply list_elem_of_In in Hl.
  destruct (Hold l Hl) as (v & Hv & _ & Hhi).
  exists (tick dt v). split; [by apply Htick|].
  unfold Heap.alive in Halive. rewrite (Htick l v Hl Hv) in Halive.
  apply Qltb_lt in Halive. split; [exact Halive|].
  rewrite tick_life. lra.
Qed.

(** A burst passes on a random source that still returns unit values. *)
Lemma spawn_tape (mk : Rng -> T * Rng) (n : nat) (refs : list nat)
  (h : list T) (r : Rng) :
  (forall r1, unit_tape r1 -> unit_tape (snd (mk r1))) ->
  unit_tape r ->
  unit_tape (snd (Heap.spawn n mk refs h r)).
Proof.
  intros Hmk Hr.
  destruct (spawn_spec (fun _ => True) unit_tape mk) with (n := n)
    (refs := refs) (h := h) (r := r) as (vs & r' & -> & _ & _ & Hr');
    [intros r1 Hr1; split; [done|by apply Hmk] | done | done].
Qed.

End LifeFacts.

Section BrawlLives.
Import BrawlMode.
Context {M : Math}.

Lemma brawl_tick_life dt p : Particle.p4 (tick dt p) == Particle.p4 p - dt.
Proof. reflexivity. Qed.

Lemma new_particle_tape a lo hi llo lhi px py r :
  unit_tape r -> unit_tape (snd (new_particle a lo hi llo lhi px py r)).
Proof. intros Hr i. apply Hr. Qed.

Lemma update_trigger_lives inputs s h r s' h' r' :
  Heap.wf h (particles s) ->
  Heap.lives_in Particle.p4 1.1 h (particles s) ->
  unit_tape r ->
  update_trigger inputs (s, h, r) = (s', h', r') ->
  Heap.wf h' (particles s')
  /\ Heap.lives_in Particle.p4 1.1 h' (particles s')
  /\ unit_tape r'.
Proof.
  intros Hwf Hlives Hr Hrun.
  assert (Hr' : unit_tape r').
  { replace r' with (snd (update_trigger inputs (s, h, r)))
      by (by rewrite Hrun).
    unfold update_trigger. destruct (triggers inputs s); [|exact Hr].
    match goal with
    | |- context [Heap.spawn ?n ?mk ?refs h r] =>
        pose proof (spawn_tape mk n refs h r
                      (fun r1 => new_particle_tape _ _ _ _ _ _ _ r1) Hr) as Ht;
        destruct (Heap.spawn n mk refs h r) as [[refs1 h1] r1]
    end.
    exact Ht. }
  split; [|split; [|exact Hr']].
  - destruct (update_trigger_frame inputs s h r)
      as (s1 & vs & r1 & Hrun1 & Hp & _).
    rewrite Hrun in Hrun1. apply pair_equal_spec in Hrun1 as [Hrun1 _].
    apply pair_equal_spec in Hrun1 as [-> ->].
    rewrite Hp. by apply wf_spawned.
  - destruct (triggers inputs s) eqn:Hfire.
    + destruct (update_trigger_fires inputs s h r Hfire)
        as (vs & r1 & Hrun1 & Hlen & _ & Hnew).
      rewrite Hrun in Hrun1. apply pair_equal_spec in Hrun1 as [Hrun1 _].
      apply pair_equal_spec in Hrun1 as [-> ->].
      cbn [particles set_particles]. rewrite <- Hlen.
      apply lives_in_spawned; [exact Hwf|exact Hlives|].
      eapply Forall_impl; [exact (Hnew Hr)|]. intros p [H1 H2]. split; lra.
    + rewrite (update_trigger_idle inputs s h r Hfire) in Hrun.
      apply pair_equal_spec in Hrun as [Hrun _].
      apply pair_equal_spec in Hrun as [<- <-]. exact Hlives.
Qed.

Lemma update_super_lives dt s h r s' h' r' :
  Heap.wf h (particles s) ->
  Heap.lives_in Particle.p4 1.1 h (particles s) ->
  unit_tape r ->
  update_super dt (s, h, r) = (s', h', r') ->
  Heap.wf h' (particles s')
  /\ Heap.lives_in Particle.p4 1.1 h' (particles s')
  /\ unit_tape r'.
Proof.
  intros Hwf Hlives Hr Hrun.
  assert (Hr' : unit_tape r').
  { replace r' with (snd (update_super dt (s, h, r))) by (by rewrite Hrun).
    unfold update_super. destruct (super_active s); [|exact Hr].
    cbv zeta.
    destruct (Qle_bool (super_timer (set_super_timer (super_timer s - dt) s)) 0);
      [|exact Hr].
    match goal with
    | |- context [Heap.spawn ?n ?mk ?refs h r] =>
        pose proof (spawn_tape mk n refs h r
                      (fun r1 => new_particle_tape _ _ _ _ _ _ _ r1) Hr) as Ht;
        destruct (Heap.spawn n mk refs h r) as [[refs1 h1] r1]
    end.
    exact Ht. }
  split; [|split; [|exact Hr']].
  - destruct (update_super_frame dt s h r) as (s1 & vs & r1 & Hrun1 & Hp & _).
    rewrite Hrun in Hrun1. apply pair_equal_spec in Hrun1 as [Hrun1 _].
    apply pair_equal_spec in Hrun1 as [-> ->].
    rewrite Hp. by apply wf_spawned.
  - destruct (super_active s) eqn:Ha.
    + destruct (Qlt_le_dec 0 (super_timer s - dt)) as [Hw|Hw].
      * rewrite (update_super_winds dt s h r Ha Hw) in Hrun.
        apply pair_equal_spec in Hrun as [Hrun _].
        apply pair_equal_spec in Hrun as [<- <-]. exact Hlives.
      * destruct (update_super_resolves dt s h r Ha Hw)
          as (vs & r1 & Hrun1 & Hlen & _ & Hnew).
        rewrite Hrun in Hrun1. apply pair_equal_spec in Hrun1 as [Hrun1 _].
        apply pair_equal_spec in Hrun1 as [-> ->].
        cbn [particles set_particles]. rewrite <- Hlen.
        apply lives_in_spawned; [exact Hwf|exact Hlives|].
        eapply Forall_impl; [exact (Hnew Hr)|]. intros p [H1 H2]. split; lra.
    + rewrite (update_super_idle dt s h r Ha) in Hrun.
      apply pair_equal_spec in Hrun as [Hrun _].
      apply pair_equal_spec in Hrun as [<- <-]. exact Hlives.
Qed.

(** One call keeps the particle lifetimes in [(0, 1.1]], when the random
    source returns unit values and [dt >= 0]. *)
Lemma brawl_update_lives dt inputs s h r :
  0 <= dt ->
  Heap.wf h (particles s) ->
  Heap.lives_in Particle.p4 1.1 h (particles s) ->
  unit_tape r ->
  exists s' h' r',
    update dt inputs (s, h, r) = Some (s', h', r')
    /\ Heap.wf h' (particles s')
    /\ Heap.lives_in Particle.p4 1.1 h' (particles s')
    /\ unit_tape r'.
Proof.
  intros Hdt Hwf Hlives Hr.
  destruct (resolved dt inputs (s, h, r)) as [[s5 h5] r5] eqn:Hc.
  assert (H5 : Heap.wf h5 (particles s5)
               /\ Heap.lives_in Particle.p4 1.1 h5 (particles s5)
               /\ unit_tape r5).
  { unfold resolved in Hc.
    destruct (update_trigger inputs (moved dt inputs s, h, r))
      as [[s4 h4] r4] eqn:Ht.
    destruct (moved_frame dt inputs s) as (_ & _ & _ & _ & _ & _ & Hp & _).
    cbv zeta in Hp.
    destruct (update_trigger_lives inputs (moved dt inputs s) h r s4 h4 r4)
      as (Hwf4 & Hl4 & Hr4); [by rewrite Hp|by rewrite Hp|exact Hr|exact Ht|].
    exact (update_super_lives dt s4 h4 r4 s5 h5 r5 Hwf4 Hl4 Hr4 Hc). }
  destruct H5 as (Hwf5 & Hl5 & Hr5).
  destruct (brawl_update_from_resolved dt inputs s h r s5 h5 r5 Hc Hwf5)
    as (h6 & Hup & Hlen & Htick).
  cbv zeta in Hup. eexists _, h6, _. split; [exact Hup|].
  match goal with
  | |- context [update_ai dt (?X, r5)] =>
      destruct (update_ai_frame dt X r5)
        as (_ & _ & _ & _ & _ & _ & Hp & _)
  end.
  cbv zeta in Hp. rewrite Hp. cbn [particles set_particles].
  split; [by apply (wf_filter _ h5)|]. split.
  - apply (lives_in_pruned Particle.p4 tick brawl_tick_life 1.1 dt h5);
      [exact Hdt|exact Hl5|exact Htick].
  - unfold update_ai. destruct (super_active _); [|exact Hr5].
    unfold random. destruct (Qltb _ _); intros i; apply Hr5.
Qed.

End BrawlLives.

Section PrecisionLives.
Import PrecisionCutMode.
Context {M : Math}.

Lemma precision_tick_life dt sp : Spark.life (tick dt sp) == Spark.life sp - dt.
Proof. reflexivity. Qed.

Lemma new_spark_tape lo hi llo lhi s r :
  unit_tape r -> unit_tape (snd (new_spark lo hi llo lhi s r)).
Proof. intros Hr i. apply Hr. Qed.

Lemma update_press_lives mouse_pos mouse_down s h r s' h' r' :
  Heap.wf h (sparks s) ->
  Heap.lives_in Spark.life 0.9 h (sparks s) ->
  unit_tape r ->
  update_press mouse_pos mouse_down (s, h, r) = (s', h', r') ->
  Heap.lives_in Spark.life 0.9 h' (sparks s') /\ unit_tape r'.
Proof.
  intros Hwf Hlives Hr Hrun. split.
  - destruct (update_press_cases mouse_pos mouse_down s)
      as [(-> & Hd & Hv) | [(-> & Hd & Hv) | Hmiss]].
    + destruct (update_press_perfect mouse_pos s h r Hd Hv)
        as (vs & r1 & Hrun1 & Hlen & _ & Hnew).
      rewrite Hrun in Hrun1. apply pair_equal_spec in Hrun1 as [Hrun1 _].
      apply pair_equal_spec in Hrun1 as [-> ->].
      cbn [sparks set_sparks]. rewrite <- Hlen.
      apply lives_in_spawned; [exact Hwf|exact Hlives|].
      eapply Forall_impl; [exact (Hnew Hr)|]. intros p [H1 H2]. split; lra.
    + destruct (update_press_imperfect mouse_pos s h r Hd Hv)
        as (vs & r1 & Hrun1 & Hlen & _ & Hnew).
      rewrite Hrun in Hrun1. apply pair_equal_spec in Hrun1 as [Hrun1 _].
      apply pair_equal_spec in Hrun1 as [-> ->].
      cbn [sparks set_sparks]. rewrite <- Hlen.
      apply lives_in_spawned; [exact Hwf|exact Hlives|].
      eapply Forall_impl; [exact (Hnew Hr)|]. intros p [H1 H2]. split; lra.
    + rewrite (update_press_miss _ _ _ _ _ Hmiss) in Hrun.
      apply pair_equal_spec in Hrun as [Hrun _].
      apply pair_equal_spec in Hrun as [<- <-]. exact Hlives.
  - replace r' with (snd (update_press mouse_pos mouse_down (s, h, r)))
      by (by rewrite Hrun).
    unfold update_press. destruct mouse_down; [|exact Hr].
    destruct (Qltb _ _); [|exact Hr].
    destruct (Qle_bool _ _);
      match goal with
      | |- context [Heap.spawn ?n ?mk ?refs h r] =>
          pose proof (spawn_tape mk n refs h r
                        (fun r1 => new_spark_tape _ _ _ _ _ r1) Hr) as Ht;
          destruct (Heap.spawn n mk refs h r) as [[refs1 h1] r1]
      end; exact Ht.
Qed.

(** One call keeps the spark lifetimes in [(0, 0.9]], when the random source
    returns unit values and [dt >= 0]. *)
Lemma precision_update_lives dt mouse_pos mouse_down s h r :
  0 <= dt ->
  Heap.wf h (sparks s) ->
  Heap.lives_in Spark.life 0.9 h (sparks s) ->
  unit_tape r ->
  exists s' h' r',
    update dt mouse_pos mouse_down (s, h, r) = Some (s', h', r')
    /\ Heap.wf h' (sparks s')
    /\ Heap.lives_in Spark.life 0.9 h' (sparks s')
    /\ unit_tape r'.
Proof.
  intros Hdt Hwf Hlives Hr.
  destruct (precision_update_run dt mouse_pos mouse_down s h r Hwf)
    as (s3 & h3 & r3 & h4 & Hc & Hwf3 & _ & Hup & Hlen & Htick).
  unfold classified in Hc.
  destruct (update_press_lives mouse_pos mouse_down
              (update_clip mouse_pos (update_time dt s)) h r s3 h3 r3)
    as [Hl3 Hr3]; [exact Hwf|exact Hlives|exact Hr|exact Hc|].
  eexists _, h4, r3. split; [exact Hup|].
  match goal with
  | |- context [update_timers dt ?X] =>
      destruct (update_timers_frame dt X) as (Hsp & _)
  end.
  rewrite Hsp. cbn [sparks set_sparks].
  split; [by apply (wf_filter _ h3)|]. split; [|exact Hr3].
  apply (lives_in_pruned Spark.life tick precision_tick_life 0.9 dt h3);
    [exact Hdt|exact Hl3|exact Htick].
Qed.

End PrecisionLives.

Section Lifetimes.
Context {M : Math}.

(** X14. Lifetimes stay in range.  If every listed spark has a remaining
    life in [(0, 0.9]] (every listed particle in [(0, 1.1]]), as is the case
    after [reset()], and [random.random()] returns values of [[0, 1)], then
    [update] with [dt >= 0] returns with every listed spark (particle) again
    in that range: nothing listed is ever expired or longer-lived than the
    longest burst lifetime. *)
Theorem lifetimes_stay_in_range :
  (forall s h, Heap.lives_in Spark.life 0.9 h
                 (PrecisionCutMode.sparks (PrecisionCutMode.reset s)))
  /\ (forall s h, Heap.lives_in Particle.p4 1.1 h
                    (BrawlMode.particles (BrawlMode.reset s)))
  /\ (forall dt mouse_pos mouse_down s h r,
        0 <= dt ->
        Heap.wf h (PrecisionCutMode.sparks s) ->
        Heap.lives_in Spark.life 0.9 h (PrecisionCutMode.sparks s) ->
        unit_tape r ->
        exists s' h' r',
          PrecisionCutMode.update dt mouse_pos mouse_down (s, h, r)
          = Some (s', h', r')
          /\ Heap.wf h' (PrecisionCutMode.sparks s')
          /\ Heap.lives_in Spark.life 0.9 h' (PrecisionCutMode.sparks s')
          /\ unit_tape r')
  /\ (forall dt inputs s h r,
        0 <= dt ->
        Heap.wf h (BrawlMode.particles s) ->
        Heap.lives_in Particle.p4 1.1 h (BrawlMode.particles s) ->
        unit_tape r ->
        exists s' h' r',
          BrawlMode.update dt inputs (s, h, r) = Some (s', h', r')
          /\ Heap.wf h' (BrawlMode.particles s')
          /\ Heap.lives_in Particle.p4 1.1 h' (BrawlMode.particles s')
          /\ unit_tape r').
Proof.
  split; [|split; [|split]].
  - intros s h. apply lives_in_nil.
  - intros s h. apply lives_in_nil.
  - apply precision_update_lives.
  - apply brawl_update_lives.
Qed.

End Lifetimes.

Lemma two_sparks_live : Heap.lives_in Spark.life 0.9 two_sparks [0%nat; 1%nat].
Proof.
  intros l [->|Hl%list_elem_of_singleton]%elem_of_cons; [|subst l];
    (eexists; split; [reflexivity|]; split; vm_compute;
     [reflexivity|discriminate]).
Qed.

Lemma two_particles_live :
  Heap.lives_in Particle.p4 1.1 two_particles [0%nat; 1%nat].
Proof.
  intros l [->|Hl%list_elem_of_singleton]%elem_of_cons; [|subst l];
    (eexists; split; [reflexivity|]; split; vm_compute;
     [reflexivity|discriminate]).
Qed.

Lemma lifetimes_stay_in_range_witness :
  (exists s' h' r',
     PrecisionCutMode.update (M := sample_math) 0.1 target_point true
       (precision_two_sparks, two_sparks, zero_tape) = Some (s', h', r')
     /\ Heap.lives_in Spark.life 0.9 h' (PrecisionCutMode.sparks s'))
  /\ (exists s' h' r',
        BrawlMode.update (M := sample_math) 0.1 super_input
          (brawl_two_particles, two_particles, zero_tape) = Some (s', h', r')
        /\ Heap.lives_in Particle.p4 1.1 h' (BrawlMode.particles s')).
Proof.
  assert (Hdt : 0 <= 0.1) by (vm_compute; discriminate).
  destruct (lifetimes_stay_in_range (M := sample_math)) as (_ & _ & Hp & Hb).
  split.
  - destruct (Hp 0.1 target_point true precision_two_sparks two_sparks
                zero_tape Hdt (wf_two _ _) two_sparks_live unit_tape_zero)
      as (s' & h' & r' & Hup & _ & Hl & _).
    exists s', h', r'. by split.
  - destruct (Hb 0.1 super_input brawl_two_particles two_particles
                zero_tape Hdt (wf_two _ _) two_particles_live unit_tape_zero)
      as (s' & h' & r' & Hup & _ & Hl & _).
    exists s', h', r'. by split.
Defined.

(** ** [PrecisionCutMode]: bounds on the combo fields and the clipper *)

Section PrecisionBounds.
Import PrecisionCutMode.
Context {M : Math}.

(** The timers block does not look at the spark list. *)
Lemma update_timers_set_sparks dt refs s :
  let a := update_timers dt (set_sparks refs s) in
  let b := update_timers dt s in
  combo a = combo b /\ combo_timer a = combo_timer b
  /\ perfect_text_timer a = perfect_text_timer b /\ clip_y a = clip_y b.
Proof.
  unfold update_timers. cbn [combo_timer set_sparks].
  destruct (Qltb 0 (combo_timer s));
    cbn [perfect_text_timer set_combo_timer set_combo set_sparks];
    destruct (Qltb 0 (perfect_text_timer s)); by repeat split.
Qed.

(** The combo fields after the press block, case by case. *)
Lemma update_press_combo mouse_pos mouse_down s h r :
  let s3 := fst (fst (update_press mouse_pos mouse_down (s, h, r))) in
  clip_y s3 = clip_y s
  /\ ((combo s3 = (combo s + 1)%Z /\ combo_timer s3 = 1.2
       /\ perfect_text_timer s3 = 0.9)
      \/ (combo s3 = 0%Z /\ combo_timer s3 = combo_timer s
          /\ perfect_text_timer s3 = perfect_text_timer s)
      \/ (combo s3 = combo s /\ combo_timer s3 = combo_timer s
          /\ perfect_text_timer s3 = perfect_text_timer s)).
Proof.
  destruct (update_press_cases mouse_pos mouse_down s)
    as [(-> & Hd & Hv) | [(-> & Hd & Hv) | Hmiss]].
  - destruct (update_press_perfect mouse_pos s h r Hd Hv) as (vs & r1 & -> & _).
    split; [reflexivity|]. by left.
  - destruct (update_press_imperfect mouse_pos s h r Hd Hv)
      as (vs & r1 & -> & _).
    split; [reflexivity|]. right; by left.
  - rewrite (update_press_miss _ _ _ _ _ Hmiss).
    split; [reflexivity|]. right; by right.
Qed.

(** One call keeps [combo >= 0], [combo_timer <= 1.2] and
    [perfect_text_timer <= 0.9], and leaves the clipper inside its band. *)
Lemma precision_update_bounds dt mouse_pos mouse_down s h r s' h' r' :
  0 <= dt ->
  Heap.wf h (sparks s) ->
  update dt mouse_pos mouse_down (s, h, r) = Some (s', h', r') ->
  ((0 <= combo s)%Z -> (0 <= combo s')%Z)
  /\ (combo_timer s <= 1.2 -> combo_timer s' <= 1.2)
  /\ (perfect_text_timer s <= 0.9 -> perfect_text_timer s' <= 0.9)
  /\ (100 <= clip_y s' /\ clip_y s' <= HEIGHT - 80).
Proof.
  intros Hdt Hwf Hrun.
  destruct (precision_update_run dt mouse_pos mouse_down s h r Hwf)
    as (s3 & h3 & r3 & h4 & Hc & _ & _ & Hup & _).
  rewrite Hup in Hrun. apply Some_inj, pair_equal_spec in Hrun as [Hrun _].
  apply pair_equal_spec in Hrun as [<- _].
  match goal with
  | |- context [update_timers dt (set_sparks ?F s3)] =>
      destruct (update_timers_set_sparks dt F s3) as (-> & -> & -> & ->)
  end.
  unfold classified in Hc.
  pose proof (update_press_combo mouse_pos mouse_down
                (update_clip mouse_pos (update_time dt s)) h r) as Hpress.
  rewrite Hc in Hpress. cbn [fst] in Hpress.
  destruct Hpress as [Hclip Hpress].
  assert (Hband : 100 <= clip_y s3 /\ clip_y s3 <= HEIGHT - 80).
  { rewrite Hclip. unfold update_clip. cbn [clip_y set_clip_y].
    apply clamp_range. vm_compute. discriminate. }
  assert (Hs3 : ((0 <= combo s)%Z -> (0 <= combo s3)%Z)
                /\ (combo_timer s <= 1.2 -> combo_timer s3 <= 1.2)
                /\ (perfect_text_timer s <= 0.9 ->
                    perfect_text_timer s3 <= 0.9)).
  { cbn [combo combo_timer perfect_text_timer update_clip update_time
           set_clip_y set_time_left] in Hpress.
    destruct Hpress as [(-> & -> & ->)|[(-> & -> & ->)|(-> & -> & ->)]];
      repeat split; intros; try lia; try lra; done. }
  destruct Hs3 as (Hcb & Hct & Hpt).
  unfold update_timers.
  destruct (Qltb 0 (combo_timer s3)) eqn:E1;
    cbn [perfect_text_timer set_combo_timer set_combo];
    destruct (Qltb 0 (perfect_text_timer s3)) eqn:E2;
    cbn [combo combo_timer perfect_text_timer clip_y set_combo_timer
           set_combo set_perfect_text_timer];
    (split; [intros; auto; lia|]);
    (split; [intros H; specialize (Hct H); lra|]);
    (split; [intros H; specialize (Hpt H); lra|]); exact Hband.
Qed.

Lemma precision_reachable_bounds c :
  reachable c ->
  let s := fst c in
  (0 <= combo s)%Z /\ combo_timer s <= 1.2 /\ perfect_text_timer s <= 0.9
  /\ (100 <= clip_y s /\ clip_y s <= HEIGHT - 80).
Proof.
  induction 1 as [|s h _ IH|s h r dt mp md s' h' r' Hreach IH Hdt Hrun];
    cbn [fst] in *.
  - repeat split; vm_compute; discriminate.
  - destruct IH as (_ & _ & _ & Hclip).
    split; [done|]. split; [vm_compute; discriminate|].
    split; [vm_compute; discriminate|]. exact Hclip.
  - pose proof (precision_reachable_inv _ Hreach) as (_ & _ & _ & _ & _ & Hwf).
    destruct IH as (Hcb & Hct & Hpt & _).
    destruct (precision_update_bounds _ _ _ _ _ _ _ _ _ Hdt Hwf Hrun)
      as (Hcb' & Hct' & Hpt' & Hclip').
    auto.
Qed.

(** X15. In every reachable precision minigame the combo counter is never
    negative, [combo_timer] never exceeds its restart value 1.2,
    [perfect_text_timer] never exceeds 0.9, and the clipper stays inside the
    band [[100, HEIGHT - 80]]. *)
Theorem combo_fields_stay_bounded s h :
  reachable (s, h) ->
  (0 <= combo s)%Z /\ combo_timer s <= 1.2 /\ perfect_text_timer s <= 0.9
  /\ (100 <= clip_y s /\ clip_y s <= HEIGHT - 80).
Proof. intros Hreach. exact (precision_reachable_bounds _ Hreach). Qed.

End PrecisionBounds.

Lemma precision_after_hit :
  exists s h r,
    PrecisionCutMode.update (M := sample_math) 0.1 target_point true
      precision_start = Some (s, h, r)
    /\ PrecisionCutMode.reachable (M := sample_math) (s, h).
Proof.
  destruct (precision_reachable_update_total (M := sample_math)
              (PrecisionCutMode.reset PrecisionCutMode.init) [] zero_tape
              0.1 target_point true PrecisionCutMode.reach_reset)
    as [[[s h] r] Hup].
  exists s, h, r. split; [exact Hup|].
  eapply PrecisionCutMode.reach_update;
    [apply PrecisionCutMode.reach_reset| |exact Hup].
  vm_compute. discriminate.
Defined.

Lemma combo_fields_stay_bounded_witness :
  exists s h r,
    PrecisionCutMode.update (M := sample_math) 0.1 target_point true
      precision_start = Some (s, h, r)
    /\ (0 <= PrecisionCutMode.combo s)%Z
    /\ PrecisionCutMode.combo_timer s <= 1.2
    /\ PrecisionCutMode.perfect_text_timer s <= 0.9
    /\ (100 <= PrecisionCutMode.clip_y s
        /\ PrecisionCutMode.clip_y s <= HEIGHT - 80).
Proof.
  destruct precision_after_hit as (s & h & r & Hup & Hreach).
  exists s, h, r. split; [exact Hup|].
  exact (combo_fields_stay_bounded (M := sample_math) s h Hreach).
Defined.

(** ** [draw]: what reaches pygame *)

Section Drawing.
Context {M : Math}.

(** [int] of a non-negative number is its floor. *)
Lemma py_int_bounds (lo hi : Z) (q : Q) :
  (0 <= lo)%Z -> inject_Z lo <= q -> q <= inject_Z hi ->
  (lo <= py_int q <= hi)%Z.
Proof.
  destruct q as [n d]. unfold Qle, py_int. simpl. intros Hlo H1 H2.
  rewrite Z.mul_1_r in H1, H2.
  assert (Hn : (0 <= n)%Z) by nia.
  rewrite Z.quot_div_nonneg by lia. split.
  - apply Z.div_le_lower_bound; lia.
  - apply Z.div_le_upper_bound; lia.
Qed.

Lemma flat_map_singletons {A B : Type} (f : A -> list B) (P : B -> Prop)
  (Q' : A -> Prop) (l : list A) :
  (forall a, a ∈ l -> Q' a -> exists b, f a = [b] /\ P b) ->
  (forall a, a ∈ l -> Q' a) ->
  Forall P (flat_map f l) /\ length (flat_map f l) = length l.
Proof.
  induction l as [|a l IH]; intros Hf HQ; simpl; [by split|].
  destruct (Hf a) as (b & -> & Hb); [by left|apply HQ; by left|].
  destruct IH as [IH1 IH2].
  - intros a' Ha'. apply Hf. by right.
  - intros a' Ha'. apply HQ. by right.
  - simpl. split; [by constructor|by rewrite IH2].
Qed.

(** X16. The colours [draw] hands to pygame are valid.  For every spark the
    alpha of its dot lies in [[0, 255]], whatever its remaining life.  For
    particles, whose alpha is not clamped, lifetimes in [(0, 1.1]] (which
    [update] maintains) give a radius of at least 2 and an alpha in
    [[40, 220]], and one dot is drawn per listed particle. *)
Theorem draw_colours_are_valid :
  (forall s h,
     Forall (fun d => let '(_, _, _, alpha) := fst d in (0 <= alpha <= 255)%Z)
       (PrecisionCutMode.draw_sparks s h))
  /\ (forall s h,
        Heap.lives_in Particle.p4 1.1 h (BrawlMode.particles s) ->
        Forall (fun d => let '(size, (_, _, _, alpha), _) := d in
                         (2 <= size)%Z /\ (40 <= alpha <= 220)%Z)
          (BrawlMode.draw_particles s h)
        /\ length (BrawlMode.draw_particles s h)
           = length (BrawlMode.particles s)).
Proof.
  split.
  - intros s h. unfold PrecisionCutMode.draw_sparks.
    apply Forall_flat_map, Forall_forall. intros l _.
    destruct (h !! l) as [sp|]; [|constructor].
    constructor; [|constructor]. cbn [fst].
    rewrite py_maxZ_spec, py_minZ_spec. lia.
  - intros s h Hlives. unfold BrawlMode.draw_particles.
    apply (flat_map_singletons _ _ (fun _ => True)); [|done].
    intros l Hl _. destruct (Hlives l Hl) as (p & -> & H0 & H1).
    eexists. split; [reflexivity|].
    assert (Ha : (40 <= py_int (200 * py_max 0.2 (Particle.p4 p / 1.0))
                  <= 220)%Z).
    { change (Particle.p4 p / 1.0) with (Particle.p4 p * (10 # 10)).
      destruct (py_max_cases 0.2 (Particle.p4 p * (10 # 10))) as [[H E]|[H E]];
        rewrite E; (apply py_int_bounds; [lia| |]);
        change (inject_Z 40) with 40; change (inject_Z 220) with 220; lra. }
    destruct (BrawlMode.super_active s); cbn [fst snd];
      (split; [rewrite py_maxZ_spec; lia | exact Ha]).
Qed.

(** X17. The time bar of a reachable precision minigame: [draw] never
    divides by zero, the fill and the remainder rectangle tile the bar (the
    remainder starts where the fill ends and the two widths add up to
    [bar_w = WIDTH * 0.8]), the fill width lies in [[0, bar_w]], the number
    shown lies in [[0, 12]], and the fill turns red only below 4 seconds. *)
Theorem time_bar_is_tiled s h ticks :
  PrecisionCutMode.reachable (s, h) ->
  let bar_w := WIDTH * 0.8 in
  let bx := (WIDTH - bar_w) / 2 in
  exists fill_col w secs,
    PrecisionCutMode.time_bar ticks s
    = Some ([((60, 10, 10)%Z, (bx - 4, 18 - 4, bar_w + 8, 20 + 8));
             (fill_col, (bx, 18, inject_Z w, 20));
             ((120, 120, 120)%Z, (bx + inject_Z w, 18, bar_w - inject_Z w, 20))],
            secs)
    /\ (0 <= w)%Z /\ inject_Z w <= bar_w
    /\ (0 <= secs <= 12)%Z
    /\ (fill_col = (255, 80, 80)%Z
        \/ (fill_col = (220, 30, 30)%Z
            /\ PrecisionCutMode.time_left s < 4.0)).
Proof.
  intros Hreach bar_w bx.
  destruct (precision_reachable_inv _ Hreach) as (Htl & _ & _ & _ & [H0 H1] & _).
  cbn [fst] in *. rewrite Htl in H1.
  change (PrecisionCutMode.time_limit PrecisionCutMode.init) with 12.0 in *.
  unfold PrecisionCutMode.time_bar. rewrite Htl.
  change (Qeq_bool 12.0 0) with false. cbv zeta iota.
  eexists _, _, _. split; [reflexivity|].
  assert (Hw : (0 <= py_int (WIDTH * 0.8 * (PrecisionCutMode.time_left s / 12.0))
                <= 1024)%Z).
  { apply py_int_bounds; [lia| |];
      change (PrecisionCutMode.time_left s / 12.0)
        with (PrecisionCutMode.time_left s * (10 # 120));
      change (inject_Z 0) with 0; change (inject_Z 1024) with 1024;
      unfold WIDTH; lra. }
  split; [lia|]. split.
  { destruct Hw as [_ Hw]. rewrite Zle_Qle in Hw.
    change (inject_Z 1024) with 1024 in Hw.
    assert (Hbar : 1024 <= bar_w) by (vm_compute; discriminate).
    lra. }
  split.
  { apply py_int_bounds; [lia| |].
    - change (inject_Z 0) with 0. exact H0.
    - change (inject_Z 12) with 12. lra. }
  destruct (Qltb (PrecisionCutMode.time_left s) 4.0) eqn:Elow;
    [|by left].
  destruct (ticks mod 600 <? 300)%Z; [right|by left].
  split; [reflexivity|]. by apply Qltb_lt.
Qed.

(** X18. In a reachable precision minigame the indicator of the precision
    meter is drawn inside the track, vertically. *)
Theorem meter_indicator_stays_in_track s h :
  PrecisionCutMode.reachable (s, h) ->
  match PrecisionCutMode.precision_meter s with
  | ((_, track_y, _, track_h), (_, ind_y, _, ind_h)) =>
      track_y <= ind_y /\ ind_y + ind_h <= track_y + track_h
  end.
Proof.
  intros Hreach.
  destruct (precision_reachable_bounds _ Hreach) as (_ & _ & _ & Hlo & Hhi).
  cbn [fst] in *. unfold PrecisionCutMode.precision_meter. cbv zeta.
  change ((PrecisionCutMode.clip_y s - 100) / (HEIGHT - 180))
    with ((PrecisionCutMode.clip_y s - 100) * (1 # 540)).
  change ((HEIGHT - 300) / 2) with ((HEIGHT - 300) * (1 # 2)).
  unfold HEIGHT in *. split; lra.
Qed.

End Drawing.

Lemma draw_colours_are_valid_witness :
  Forall (fun d => let '(_, _, _, alpha) := fst d in (0 <= alpha <= 255)%Z)
    (PrecisionCutMode.draw_sparks precision_two_sparks two_sparks)
  /\ Forall (fun d => let '(size, (_, _, _, alpha), _) := d in
                      (2 <= size)%Z /\ (40 <= alpha <= 220)%Z)
       (BrawlMode.draw_particles brawl_two_particles two_particles)
  /\ length (BrawlMode.draw_particles brawl_two_particles two_particles)
     = 2%nat.
Proof.
  destruct draw_colours_are_valid as [Hs Hp].
  split; [apply Hs|].
  exact (Hp brawl_two_particles two_particles two_particles_live).
Defined.

Lemma time_bar_is_tiled_witness :
  exists s h r,
    PrecisionCutMode.update (M := sample_math) 0.1 target_point true
      precision_start = Some (s, h, r)
    /\ exists fill_col w secs,
         PrecisionCutMode.time_bar 0 s
         = Some ([((60, 10, 10)%Z,
                   ((WIDTH - WIDTH * 0.8) / 2 - 4, 18 - 4,
                    WIDTH * 0.8 + 8, 20 + 8));
                  (fill_col, ((WIDTH - WIDTH * 0.8) / 2, 18, inject_Z w, 20));
                  ((120, 120, 120)%Z,
                   ((WIDTH - WIDTH * 0.8) / 2 + inject_Z w, 18,
                    WIDTH * 0.8 - inject_Z w, 20))],
                 secs)
         /\ (0 <= w)%Z /\ inject_Z w <= WIDTH * 0.8
         /\ (0 <= secs <= 12)%Z
         /\ (fill_col = (255, 80, 80)%Z
             \/ (fill_col = (220, 30, 30)%Z
                 /\ PrecisionCutMode.time_left s < 4.0)).
Proof.
  destruct precision_after_hit as (s & h & r & Hup & Hreach).
  exists s, h, r. split; [exact Hup|].
  exact (time_bar_is_tiled (M := sample_math) s h 0 Hreach).
Defined.

Lemma meter_indicator_stays_in_track_witness :
  exists s h r,
    PrecisionCutMode.update (M := sample_math) 0.1 target_point true
      precision_start = Some (s, h, r)
    /\ match PrecisionCutMode.precision_meter s with
       | ((_, track_y, _, track_h), (_, ind_y, _, ind_h)) =>
           track_y <= ind_y /\ ind_y + ind_h <= track_y + track_h
       end.
Proof.
  destruct precision_after_hit as (s & h & r & Hup & Hreach).
  exists s, h, r. split; [exact Hup|].
  exact (meter_indicator_stays_in_track (M := sample_math) s h Hreach).
Defined.

(** ** [PrecisionCutMode]: sparks created, combos held, time counted down *)

Section PrecisionRuns.
Import PrecisionCutMode.
Context {M : Math}.

(** The press block creates 12, 4 or no sparks, and none without a press. *)
Lemma update_press_count mouse_pos mouse_down s h r :
  exists s3 vs r3,
    update_press mouse_pos mouse_down (s, h, r) = (s3, h ++ vs, r3)
    /\ sparks s3 = sparks s ++ seq (length h) (length vs)
    /\ (length vs <= 12)%nat
    /\ (mouse_down = false -> vs = []).
Proof.
  destruct (update_press_cases mouse_pos mouse_down s)
    as [(-> & Hd & Hv) | [(-> & Hd & Hv) | Hmiss]].
  - destruct (update_press_perfect mouse_pos s h r Hd Hv)
      as (vs & r1 & -> & Hlen & _).
    eexists _, vs, r1. rewrite Hlen. by repeat split.
  - destruct (update_press_imperfect mouse_pos s h r Hd Hv)
      as (vs & r1 & -> & Hlen & _).
    eexists _, vs, r1. rewrite Hlen. repeat split; [lia|done].
  - rewrite (update_press_miss _ _ _ _ _ Hmiss).
    exists s, [], r. rewrite !app_nil_r. repeat split. simpl. lia.
Qed.

(** X19. One [update] lengthens the spark list by at most the 12 sparks of
    a perfect burst and creates at most 12 spark objects; without a press it
    creates none and only removes sparks from the list. *)
Theorem sparks_grow_by_at_most_a_burst dt mouse_pos mouse_down s h r s' h' r' :
  Heap.wf h (sparks s) ->
  update dt mouse_pos mouse_down (s, h, r) = Some (s', h', r') ->
  (length (sparks s') <= length (sparks s) + 12)%nat
  /\ (length h' <= length h + 12)%nat
  /\ (mouse_down = false ->
      length h' = length h
      /\ (length (sparks s') <= length (sparks s))%nat
      /\ forall l, l ∈ sparks s' -> l ∈ sparks s).
Proof.
  intros Hwf Hrun.
  destruct (precision_update_run dt mouse_pos mouse_down s h r Hwf)
    as (s3 & h3 & r3 & h4 & Hc & _ & _ & Hup & Hlen & _).
  rewrite Hup in Hrun. apply Some_inj, pair_equal_spec in Hrun as [Hrun _].
  apply pair_equal_spec in Hrun as [<- <-].
  match goal with
  | |- context [update_timers dt ?X] =>
      destruct (update_timers_frame dt X) as (-> & _)
  end.
  cbn [sparks set_sparks]. unfold classified in Hc.
  destruct (update_press_count mouse_pos mouse_down
              (update_clip mouse_pos (update_time dt s)) h r)
    as (s3' & vs & r3' & Hp & Hsp & Hvs & Hnone).
  rewrite Hc in Hp. apply pair_equal_spec in Hp as [Hp _].
  apply pair_equal_spec in Hp as [<- ->].
  cbn [sparks update_clip update_time set_clip_y set_time_left] in Hsp.
  pose proof (List.filter_length_le (Heap.alive Spark.life h4) (sparks s3))
    as Hfl.
  rewrite Hsp, length_app, length_seq in Hfl.
  rewrite Hlen, length_app, Hsp.
  split; [lia|]. split; [lia|].
  intros Hmd. specialize (Hnone Hmd). subst vs.
  cbn [length seq] in Hfl |- *. rewrite app_nil_r in Hfl |- *.
  split; [lia|]. split; [lia|].
  intros l Hl. apply list_elem_of_In, List.filter_In in Hl as [Hl _].
  by apply list_elem_of_In.
Qed.

(** In a reachable minigame the hit test depends on the pointer alone: the
    geometry is the one of [__init__], and [clip_y] is set from the pointer
    before the test. *)
Lemma precision_hit_geometry dt mouse_pos s h :
  reachable (s, h) ->
  precise_hit dt mouse_pos s = precise_hit 0 mouse_pos init.
Proof.
  intros Hreach.
  pose proof (precision_reachable_inv _ Hreach) as (_ & Hhc & Hfx & Hpw & _).
  cbn [fst snd] in Hhc, Hfx, Hpw.
  unfold precise_hit, dist, vert_err, update_clip, update_time.
  cbn [clip_y fade_x head_center perfection_window set_clip_y set_time_left].
  by rewrite Hhc, Hfx, Hpw.
Qed.

(** A pressed pointer that passes the hit test raises the combo by one. *)
Lemma precision_hit_counts dt mouse_pos s h r :
  reachable (s, h) ->
  precise_hit 0 mouse_pos init = true ->
  exists s' h' r',
    update dt mouse_pos true (s, h, r) = Some (s', h', r')
    /\ combo s' = (combo s + 1)%Z.
Proof.
  intros Hreach Hhit.
  rewrite <- (precision_hit_geometry dt mouse_pos s h Hreach) in Hhit.
  pose proof (precision_reachable_inv _ Hreach) as (_ & _ & _ & _ & _ & Hwf).
  cbn [fst snd] in Hwf.
  unfold precise_hit in Hhit. cbv zeta in Hhit.
  set (s2 := update_clip mouse_pos (update_time dt s)) in Hhit.
  apply andb_true_iff in Hhit as [Hd Hv].
  apply Qltb_lt in Hd. apply Qle_bool_iff in Hv.
  destruct (update_press_perfect mouse_pos s2 h r Hd Hv)
    as (vs & r1 & Hp & Hlen & _).
  remember (set_sparks (sparks s2 ++ seq (length h) 12)
              (set_perfect_text_timer 0.9
                 (set_combo_timer 1.2 (set_combo (combo s2 + 1)%Z s2))))
    as s3 eqn:Es3.
  assert (Hcombo : combo s3 = (combo s + 1)%Z /\ combo_timer s3 = 1.2)
    by (by rewrite Es3).
  assert (Hwf3 : Heap.wf (h ++ vs) (sparks s3)).
  { rewrite Es3. cbn [sparks set_sparks]. rewrite <- Hlen.
    by apply wf_spawned. }
  destruct (precision_update_from_classified dt mouse_pos true s h r
              s3 (h ++ vs) r1 Hp Hwf3) as (h4 & Hup & _).
  eexists _, _, _. split; [exact Hup|].
  destruct Hcombo as [Hcb Hct].
  match goal with
  | |- context [update_timers dt ?X] =>
      destruct (update_timers_running dt X) as [Hrun _];
        [cbn [combo_timer set_sparks]; rewrite Hct; lra|]
  end.
  rewrite Hrun. exact Hcb.
Qed.

Lemma py_max_twice z t a b :
  z == 0 -> 0 <= b ->
  py_max z (py_max z (t - a) - b) == py_max 0 (t - a - b).
Proof.
  intros Hz Hb.
  destruct (py_max_cases z (t - a)) as [[H1 E1]|[H1 E1]]; rewrite E1;
    [destruct (py_max_cases z (t - a - b)) as [[H2 E2]|[H2 E2]]
    |destruct (py_max_cases z (z - b)) as [[H2 E2]|[H2 E2]]];
    rewrite E2;
    destruct (py_max_cases 0 (t - a - b)) as [[H4 E4]|[H4 E4]];
    rewrite E4; lra.
Qed.

End PrecisionRuns.

Lemma sparks_grow_by_at_most_a_burst_witness :
  exists s' h' r',
    PrecisionCutMode.update (M := sample_math) 0.1 target_point true
      (precision_two_sparks, two_sparks, zero_tape) = Some (s', h', r')
    /\ (length (PrecisionCutMode.sparks s') <= 2 + 12)%nat
    /\ (length h' <= 2 + 12)%nat.
Proof.
  destruct (precision_update_run (M := sample_math) 0.1 target_point true
              precision_two_sparks two_sparks zero_tape (wf_two _ _))
    as (s3 & h3 & r3 & h4 & _ & _ & _ & Hup & _).
  eexists _, _, _. split; [exact Hup|].
  destruct (sparks_grow_by_at_most_a_burst (M := sample_math) 0.1 target_point
              true precision_two_sparks two_sparks zero_tape _ _ _
              (wf_two _ _) Hup) as (Hs & Hh & _).
  split; [exact Hs|exact Hh].
Defined.

Section HeldPress.
Import Game.
Context {M : Math}.

(** What a frame of a held, precise press supplies: no events, the button
    reported down, a pointer that passes the hit test, a clock that does not
    run backwards. *)
Lemma held_frame_counts f g w :
  (0 <= tick f)%Z -> events f = [] -> pressed f = true ->
  PrecisionCutMode.precise_hit 0 (mouse_pos f) PrecisionCutMode.init = true ->
  state g = STATE_PRECISION ->
  modes_reachable (g, w) ->
  exists g' w',
    frame f (g, w) = Some (g', w')
    /\ state g' = STATE_PRECISION /\ running g' = running g
    /\ modes_reachable (g', w')
    /\ PrecisionCutMode.combo (precision g')
       = (PrecisionCutMode.combo (precision g) + 1)%Z.
Proof.
  intros Htick Hev Hpr Hhit Hst [Hp Hb]. cbn [fst snd] in Hp, Hb.
  unfold frame, handle_events. rewrite Hev, Hpr.
  cbn [events_loop orb]. unfold update.
  cbn [state precision _mouse_down set_mouse_down]. rewrite Hst.
  destruct (precision_hit_counts (inject_Z (tick f) / 1000.0) (mouse_pos f)
              (precision g) (spark_heap w) (rng w) Hp Hhit)
    as (p & h & r & Hup & Hcombo).
  rewrite Hup. eexists _, _. split; [reflexivity|].
  split; [exact Hst|]. split; [reflexivity|].
  split; [|exact Hcombo].
  split; cbn [fst snd precision brawl set_precision set_mouse_down
              spark_heap particle_heap]; [|exact Hb].
  eapply PrecisionCutMode.reach_update;
    [exact Hp|by apply tick_seconds_nonneg|exact Hup].
Qed.

(** X20. Holding the button on the target: [run] over [n] frames that bring
    no events, report the button down and a pointer that passes the hit
    test, raises the combo of the precision minigame by [n]: every frame of
    a held press counts as a new precise press. *)
Theorem held_press_counts_every_frame frames g w :
  Forall (fun f =>
            (0 <= tick f)%Z /\ events f = [] /\ pressed f = true
            /\ PrecisionCutMode.precise_hit 0 (mouse_pos f)
                 PrecisionCutMode.init = true) frames ->
  state g = STATE_PRECISION ->
  running g = true ->
  modes_reachable (g, w) ->
  exists g' w',
    run frames (g, w) = Some (g', w')
    /\ state g' = STATE_PRECISION
    /\ PrecisionCutMode.combo (precision g')
       = (PrecisionCutMode.combo (precision g) + Z.of_nat (length frames))%Z.
Proof.
  intros Hfs. revert g w.
  induction Hfs as [|f frames (Htick & Hev & Hpr & Hhit) _ IH];
    intros g w Hst Hrun Hinv.
  - exists g, w. cbn [run length]. split; [done|]. split; [done|]. lia.
  - destruct (held_frame_counts f g w Htick Hev Hpr Hhit Hst Hinv)
      as (g1 & w1 & Hf & Hst1 & Hrun1 & Hinv1 & Hc1).
    rewrite Hrun in Hrun1.
    destruct (IH g1 w1 Hst1 Hrun1 Hinv1) as (g' & w' & Hr & Hst' & Hc').
    exists g', w'. cbn [run fst]. rewrite Hrun, Hf.
    split; [exact Hr|]. split; [exact Hst'|].
    rewrite Hc', Hc1, length_cons. lia.
Qed.

End HeldPress.

Lemma held_press_counts_every_frame_witness :
  exists g' w',
    Game.run (M := sample_math) [held_frame; held_frame; held_frame]
      game_in_precision = Some (g', w')
    /\ Game.state g' = Game.STATE_PRECISION
    /\ PrecisionCutMode.combo (Game.precision g') = 3%Z.
Proof.
  assert (Hf : (0 <= Game.tick held_frame)%Z /\ Game.events held_frame = []
               /\ Game.pressed held_frame = true
               /\ PrecisionCutMode.precise_hit 0 (Game.mouse_pos held_frame)
                    PrecisionCutMode.init = true)
    by (split; [simpl; lia|by repeat split]).
  assert (Hfs : Forall (fun f =>
                  (0 <= Game.tick f)%Z /\ Game.events f = []
                  /\ Game.pressed f = true
                  /\ PrecisionCutMode.precise_hit 0 (Game.mouse_pos f)
                       PrecisionCutMode.init = true)
                  [held_frame; held_frame; held_frame])
    by (repeat (constructor; [exact Hf|]); constructor).
  exact (held_press_counts_every_frame (M := sample_math)
           [held_frame; held_frame; held_frame]
           (fst game_in_precision) (snd game_in_precision)
           Hfs eq_refl eq_refl
           (conj PrecisionCutMode.reach_reset BrawlMode.reach_reset)).
Defined.

(** ** Both modes: the countdown over two updates *)

Section Countdown.
Context {M : Math}.

(** X21. Two [PrecisionCutMode.update] calls in a row, the second with
    [dt2 >= 0], leave in [time_left] what one subtraction after the other
    gives, floored at zero once: the floor of the first call never holds
    time back.  Nothing else of the calls (pointer, button, random draws)
    matters. *)
Theorem precision_countdown_composes dt1 dt2 mp1 md1 mp2 md2
    s h r s1 h1 r1 r1' s2 h2 r2 :
  Heap.wf h (PrecisionCutMode.sparks s) ->
  0 <= dt2 ->
  PrecisionCutMode.update dt1 mp1 md1 (s, h, r) = Some (s1, h1, r1) ->
  PrecisionCutMode.update dt2 mp2 md2 (s1, h1, r1') = Some (s2, h2, r2) ->
  PrecisionCutMode.time_left s2
  == py_max 0 (PrecisionCutMode.time_left s - dt1 - dt2).
Proof.
  intros Hwf Hdt2 H1 H2.
  destruct (precision_update_preserves _ _ _ _ _ _ _ _ _ Hwf H1)
    as (_ & _ & _ & _ & E1 & Hwf1).
  destruct (precision_update_preserves _ _ _ _ _ _ _ _ _ Hwf1 H2)
    as (_ & _ & _ & _ & E2 & _).
  rewrite E2, E1. apply py_max_twice; [reflexivity|exact Hdt2].
Qed.

(** X22. The same for the round timer of the brawl. *)
Theorem brawl_countdown_composes dt1 dt2 in1 in2
    s h r s1 h1 r1 r1' s2 h2 r2 :
  Heap.wf h (BrawlMode.particles s) ->
  0 <= dt2 ->
  BrawlMode.update dt1 in1 (s, h, r) = Some (s1, h1, r1) ->
  BrawlMode.update dt2 in2 (s1, h1, r1') = Some (s2, h2, r2) ->
  BrawlMode.timer s2 == py_max 0 (BrawlMode.timer s - dt1 - dt2).
Proof.
  intros Hwf Hdt2 H1 H2.
  destruct (brawl_update_preserves dt1 in1 s h r s1 h1 r1 Hwf H1)
    as (E1 & _ & _ & _ & _ & _ & Hwf1).
  destruct (brawl_update_preserves dt2 in2 s1 h1 r1' s2 h2 r2 Hwf1 H2)
    as (E2 & _).
  rewrite E2, E1. apply py_max_twice; [reflexivity|exact Hdt2].
Qed.

End Countdown.

Lemma precision_countdown_composes_witness :
  exists s1 h1 r1 s2 h2 r2,
    PrecisionCutMode.update (M := sample_math) 11.5 far_corner false
      precision_start = Some (s1, h1, r1)
    /\ PrecisionCutMode.update (M := sample_math) 0.75 target_point true
         (s1, h1, zero_tape) = Some (s2, h2, r2)
    /\ PrecisionCutMode.time_left s2
       == py_max 0
            (PrecisionCutMode.time_left
               (PrecisionCutMode.reset PrecisionCutMode.init) - 11.5 - 0.75).
Proof.
  assert (Hdt : 0 <= 0.75) by (vm_compute; discriminate).
  assert (Hdt1 : 0 <= 11.5) by (vm_compute; discriminate).
  assert (Hwf : Heap.wf (T := Spark.t) []
                  (PrecisionCutMode.sparks
                     (PrecisionCutMode.reset PrecisionCutMode.init)))
    by apply wf_nil.
  destruct (precision_reachable_update_total (M := sample_math)
              (PrecisionCutMode.reset PrecisionCutMode.init) [] zero_tape
              11.5 far_corner false PrecisionCutMode.reach_reset)
    as [[[s1 h1] r1] H1].
  assert (Hr1 : PrecisionCutMode.reachable (M := sample_math) (s1, h1))
    by (eapply PrecisionCutMode.reach_update;
        [apply PrecisionCutMode.reach_reset|exact Hdt1|exact H1]).
  destruct (precision_reachable_update_total (M := sample_math)
              s1 h1 zero_tape 0.75 target_point true Hr1)
    as [[[s2 h2] r2] H2].
  exists s1, h1, r1, s2, h2, r2. split; [exact H1|]. split; [exact H2|].
  exact (precision_countdown_composes (M := sample_math) 11.5 0.75 far_corner
           false target_point true _ _ _ _ _ _ _ _ _ _ Hwf Hdt H1 H2).
Defined.

Lemma brawl_countdown_composes_witness :
  exists s1 h1 r1 s2 h2 r2,
    BrawlMode.update (M := sample_math) 98.5 super_input brawl_start
    = Some (s1, h1, r1)
    /\ BrawlMode.update (M := sample_math) 0.75 super_input
         (s1, h1, zero_tape) = Some (s2, h2, r2)
    /\ BrawlMode.timer s2
       == py_max 0
            (BrawlMode.timer (BrawlMode.reset BrawlMode.init) - 98.5 - 0.75).
Proof.
  assert (Hdt : 0 <= 0.75) by (vm_compute; discriminate).
  assert (Hwf : Heap.wf (T := Particle.t) []
                  (BrawlMode.particles (BrawlMode.reset BrawlMode.init)))
    by apply wf_nil.
  destruct (brawl_update_total (M := sample_math) 98.5 super_input
              (BrawlMode.reset BrawlMode.init) [] zero_tape Hwf)
    as (s1 & h1 & r1 & H1).
  destruct (brawl_update_preserves (M := sample_math) 98.5 super_input
              _ _ _ s1 h1 r1 Hwf H1) as (_ & _ & _ & _ & _ & _ & Hwf1).
  destruct (brawl_update_total (M := sample_math) 0.75 super_input
              s1 h1 zero_tape Hwf1) as (s2 & h2 & r2 & H2).
  exists s1, h1, r1, s2, h2, r2. split; [exact H1|]. split; [exact H2|].
  exact (brawl_countdown_composes (M := sample_math) 98.5 0.75 super_input
           super_input _ _ _ _ _ _ _ _ _ _ Hwf Hdt H1 H2).
Defined.
